(** * PS5 backport library: patch engine, classification, pipeline, config

    A shallow embedding of [src/Backport.py] (class [PS5ELFProcessor]).
    File contents are byte lists, paths are lists of components, the file
    system is a finite map from paths to contents, and the three external
    collaborators (decoder, SDK version patcher, signer) are parameters. *)

From Stdlib Require Import Strings.Byte.
From stdpp Require Import gmap strings list pretty.

#[local] Set Warnings "-clear-no-such-hyp".

Import (notations) Stdlib.Strings.Ascii.

(** ** Python [bytes]: [startswith], [in], [replace] *)

Module PyBytes.

Abbreviation bytes := (list byte).

Definition of_str (s : string) : bytes := String.list_byte_of_string s.

Fixpoint bytes_eqb (a b : bytes) : bool :=
  match a, b with
  | [], [] => true
  | x :: a', y :: b' => Byte.eqb x y && bytes_eqb a' b'
  | _, _ => false
  end.

(** [s.startswith(p)] *)
Fixpoint startswith (p s : bytes) : bool :=
  match p, s with
  | [], _ => true
  | x :: p', y :: s' => Byte.eqb x y && startswith p' s'
  | _ :: _, [] => false
  end.

(** [p in s] *)
Fixpoint contains (p s : bytes) : bool :=
  startswith p s ||
  match s with
  | [] => false
  | _ :: s' => contains p s'
  end.

(** The scan of [bytes.replace] for a non-empty [old]: leftmost match first,
    the scan resumes after the match ([skip] counts the bytes of the match
    still to be dropped). *)
Fixpoint replace_go (old new : bytes) (skip : nat) (s : bytes) : bytes :=
  match s with
  | [] => []
  | c :: s' =>
      match skip with
      | S k => replace_go old new k s'
      | O =>
          if startswith old s
          then new ++ replace_go old new (length old - 1) s'
          else c :: replace_go old new 0 s'
      end
  end.

(** [s.replace(old, new)]; an empty [old] matches before every byte and at
    the end. *)
Definition replace (old new s : bytes) : bytes :=
  match old with
  | [] => new ++ concat (map (fun c => c :: new) s)
  | _ :: _ => replace_go old new 0 s
  end.

(** A border of [n] of length [k]: a proper non-empty prefix that is also a
    suffix. *)
Definition border_at (n : bytes) (k : nat) : bool :=
  bytes_eqb (take k n) (drop (length n - k) n).

Definition has_border (n : bytes) : bool :=
  existsb (border_at n) (seq 1 (length n - 1)).

End PyBytes.

(** ** [str] and [pathlib.Path] *)

Module PyPath.

(** A path is the list of its components; a file [Path(root) / filename] is
    [root ++ [filename]]. *)
Abbreviation path := (list string).

Definition lower_ascii (c : Ascii.ascii) : Ascii.ascii :=
  let n := Ascii.nat_of_ascii c in
  if (65 <=? n) && (n <=? 90) then Ascii.ascii_of_nat (n + 32) else c.

(** [s.lower()] on ASCII names *)
Fixpoint lower (s : string) : string :=
  match s with
  | EmptyString => EmptyString
  | String c s' => String (lower_ascii c) (lower s')
  end.

(** [s.endswith(sfx)] *)
Definition endswith (s sfx : string) : bool :=
  let n := String.length s in
  let k := String.length sfx in
  (k <=? n) && String.eqb (String.substring (n - k) k s) sfx.

(** [s.rfind(c)] *)
Fixpoint rfind (c : Ascii.ascii) (s : string) : option nat :=
  match s with
  | EmptyString => None
  | String x s' =>
      match rfind c s' with
      | Some i => Some (S i)
      | None => if Ascii.eqb x c then Some 0 else None
      end
  end.

(** [Path.name]: the last component, [''] for the empty path *)
Definition name (p : path) : string := default "" (last p).

(** [Path.suffix] of a file name: from the last dot, unless that dot is the
    first or the last character. *)
Definition suffix (n : string) : string :=
  match rfind "."%char n with
  | Some i =>
      if (0 <? i) && (i <? String.length n - 1)
      then String.substring i (String.length n - i) n
      else ""
  | None => ""
  end.

(** [Path.with_suffix(sfx)]; [None] is the [ValueError] of an empty name. *)
Definition with_suffix (p : path) (sfx : string) : option path :=
  let n := name p in
  if String.eqb n "" then None
  else
    let old := suffix n in
    let n' :=
      if String.eqb old "" then n +:+ sfx
      else String.substring 0 (String.length n - String.length old) n +:+ sfx in
    Some (removelast p ++ [n']).

(** [p] lies below directory [d] (what [os.walk(d)] reaches). *)
Definition is_under (d p : path) : bool :=
  bool_decide (d `prefix_of` p) && negb (bool_decide (p = d)).

(** [p.relative_to(d)] for [p] below [d], and [out / rel] *)
Definition relative_to (d p : path) : path := drop (length d) p.
Definition joinpath (out rel : path) : path := out ++ rel.

(** [Path.parent] *)
Definition parent (p : path) : path := removelast p.

(** a suffix as [with_suffix] takes it: a dot, then at least one character,
    none of them a dot *)
Definition well_formed_suffix (sfx : string) : Prop :=
  rfind "."%char sfx = Some 0 ∧ 1 < String.length sfx.

End PyPath.

(** ** JSON values and the persisted config file *)

Module Json.

#[local] Unset Elimination Schemes.
Inductive json : Type :=
  | JNull
  | JBool (b : bool)
  | JInt (z : Z)
  | JFloat (literal : string)
  | JStr (s : string)
  | JArr (l : list json)
  | JObj (m : gmap string json).
#[local] Set Elimination Schemes.

(** What [_load_config] can find at the config path. *)
Inductive config_file : Type :=
  | CfgAbsent                 (* [config_path.exists()] is false *)
  | CfgUnreadable             (* [open] raises *)
  | CfgUnparseable            (* [json.load] raises *)
  | CfgJson (j : json).       (* [json.load] returns [j] *)

End Json.

(** ** Exceptions and results *)

Module Exn.

Import PyPath.

Inductive exn : Type :=
  | FileNotFoundError (p : path)
  | SameFileError (src dst : path)
  | ValueError (msg : string)
  | TypeError (msg : string)
  | AttributeError (msg : string)
  | OSError (msg : string).

Definition show_path (p : path) : string := String.concat "/" p.

(** [str(e)] *)
Definition str (e : exn) : string :=
  match e with
  | FileNotFoundError p => "[Errno 2] No such file or directory: " +:+ show_path p
  | SameFileError s d => show_path s +:+ " and " +:+ show_path d +:+ " are the same file"
  | ValueError m => m
  | TypeError m => m
  | AttributeError m => m
  | OSError m => m
  end.

Inductive outcome (A : Type) : Type :=
  | Ret (a : A)
  | Raise (e : exn).
Arguments Ret {A} a.
Arguments Raise {A} e.

End Exn.

(** ** The file system

    Regular files are a finite map from paths to contents; [wdirs] records the
    directories that were created explicitly ([mkdir], [mkdtemp]); [wconfig]
    is the state of the JSON config file.  Copies and removals behave as on a
    working disk and fail only for the reasons visible here (missing source,
    source and destination the same file).  Failures of [open]/[read]/[write]
    are injected by an oracle, one record per path. *)

Module FS.

Import PyBytes PyPath Json Exn.

Record world : Type := World {
  wfiles : gmap path bytes;
  wdirs : gset path;
  wconfig : config_file
}.

Definition set_files (f : gmap path bytes → gmap path bytes) (w : world) : world :=
  World (f (wfiles w)) (wdirs w) (wconfig w).
Definition set_dirs (f : gset path → gset path) (w : world) : world :=
  World (wfiles w) (f (wdirs w)) (wconfig w).
Definition set_config (c : config_file) (w : world) : world :=
  World (wfiles w) (wdirs w) c.

(** A failing [open(p, 'wb')] / [f.write]: what it leaves on disk ([None]: the
    file was not touched) and the message of the exception. *)
Record write_failure : Type := WriteFailure {
  left_on_disk : option bytes;
  write_msg : string
}.

Record io_faults : Type := IoFaults {
  magic_fault : bool;                     (* reading the 4 magic bytes raises *)
  read_fault : option string;             (* reading the content raises *)
  write_fault : option write_failure;     (* writing the new content raises *)
  reread_fault : option string            (* the read-back for verification raises *)
}.

Definition no_faults : io_faults := IoFaults false None None None.

Definition file_exists (p : path) (w : world) : bool :=
  bool_decide (is_Some (wfiles w !! p)).

(** [with open(p, 'rb') as f: f.read()] *)
Definition read_file (fault : option string) (p : path) (w : world) : outcome bytes :=
  match fault with
  | Some m => Raise (OSError m)
  | None =>
      match wfiles w !! p with
      | Some c => Ret c
      | None => Raise (FileNotFoundError p)
      end
  end.

(** [with open(p, 'wb') as f: f.write(data)] *)
Definition write_file (fault : option write_failure) (p : path) (data : bytes)
    (w : world) : world * outcome unit :=
  match fault with
  | Some wf =>
      (match left_on_disk wf with
       | Some g => set_files (insert p g) w
       | None => w
       end, Raise (OSError (write_msg wf)))
  | None => (set_files (insert p data) w, Ret tt)
  end.

(** [shutil.copy2(src, dst)] *)
Definition copy2 (src dst : path) (w : world) : world * outcome unit :=
  if bool_decide (src = dst) then (w, Raise (SameFileError src dst))
  else
    match wfiles w !! src with
    | Some c => (set_files (insert dst c) w, Ret tt)
    | None => (w, Raise (FileNotFoundError src))
    end.

(** [os.remove(p)] inside [try: ... except: pass] *)
Definition remove (p : path) (w : world) : world := set_files (delete p) w.

(** the files [os.walk(d)] reaches, in the map's enumeration order *)
Definition walk (d : path) (w : world) : list path :=
  List.filter (is_under d) (map fst (map_to_list (wfiles w))).

(** [d.mkdir(parents=True, exist_ok=True)] *)
Definition mkdir_p (d : path) (w : world) : world :=
  set_dirs (λ ds, ds ∪ list_to_set (map (λ k, take k d) (seq 1 (length d)))) w.

(** [shutil.rmtree(d)]: the directory and everything below it *)
Definition rmtree (d : path) (w : world) : world :=
  World (filter (λ kv, ¬ d `prefix_of` kv.1) (wfiles w))
        (filter (λ q, ¬ d `prefix_of` q) (wdirs w))
        (wconfig w).

Definition dir_exists (d : path) (w : world) : bool := bool_decide (d ∈ wdirs w).

End FS.

(** ** File classification and the libc patch engine *)

Module Patch.

Import PyBytes PyPath Json Exn FS.

Definition LIBC_PATCH_PATTERN : bytes := of_str "4h6F1LLbTiw#A#B".
Definition LIBC_PATCH_REPLACEMENT : bytes := of_str "IWIBBdTHit4#A#B".

Definition ELF_MAGIC : bytes := [x7f; x45; x4c; x46].
Definition SELF_MAGIC_1 : bytes := [x4f; x15; x3d; x1d].
Definition SELF_MAGIC_2 : bytes := [x54; x14; xf5; xee].

(** The first four bytes, [None] when [open]/[read] raises. *)
Definition read_magic (io : path → io_faults) (p : path) (w : world) : option bytes :=
  if magic_fault (io p) then None
  else take 4 <$> wfiles w !! p.

Definition _is_elf_file (io : path → io_faults) (p : path) (w : world) : bool :=
  if endswith (name p) ".bak" then false
  else
    match read_magic io p w with
    | Some magic => bytes_eqb magic ELF_MAGIC
    | None => false
    end.

Definition _is_self_file (io : path → io_faults) (p : path) (w : world) : bool :=
  if endswith (name p) ".bak" then false
  else
    match read_magic io p w with
    | Some magic => bytes_eqb magic SELF_MAGIC_1 || bytes_eqb magic SELF_MAGIC_2
    | None => false
    end.

(** The first loop of every operation on SELF files: walk, skip [.bak],
    keep what [_is_self_file] accepts. *)
Definition find_self_files (io : path → io_faults) (d : path) (w : world) : list path :=
  List.filter (λ p, negb (endswith (name p) ".bak") && _is_self_file io p w) (walk d w).

(** The same loop over ELF files ([downgrade_and_sign]). *)
Definition find_elf_files (io : path → io_faults) (d : path) (w : world) : list path :=
  List.filter (λ p, negb (endswith (name p) ".bak") && _is_elf_file io p w) (walk d w).

(** The second loop of the patch operations: every [libc.prx] (any case)
    not yet in [self_files] is appended. *)
Fixpoint add_libc_files (walked self_files : list path) : list path :=
  match walked with
  | [] => self_files
  | p :: rest =>
      if String.eqb (lower (name p)) "libc.prx" && negb (bool_decide (p ∈ self_files))
      then add_libc_files rest (self_files ++ [p])
      else add_libc_files rest self_files
  end.

Definition patch_targets (io : path → io_faults) (d : path) (w : world) : list path :=
  add_libc_files (walk d w) (find_self_files io d w).

(** One entry of [results['files']].  [backup] is [None] when the entry has
    no ['backup'] key, [Some None] for the value [None]. *)
Record file_result : Type := FileResult {
  status : string;
  backup : option (option path);
  backup_cleaned : bool;
  message : string
}.

(** The report of [apply_libc_patch] and of [revert_libc_patch]: the counter
    [changed] is ['applied'] resp. ['reverted'], [already] is
    ['already_patched'] resp. ['already_original'], [not_found] is
    ['pattern_not_found'] resp. ['patch_not_found'].  The hex renderings of
    the patterns and the timestamp are left out. *)
Record patch_report : Type := PatchReport {
  operation : string;
  input_dir : path;
  changed : nat;
  already : nat;
  not_found : nat;
  failed : nat;
  files : gmap path file_result
}.

Definition applied := changed.
Definition already_patched := already.
Definition pattern_not_found := not_found.
Definition reverted := changed.
Definition already_original := already.
Definition patch_not_found := not_found.

(** What differs between the two operations: names, messages and the backup
    suffix. *)
Record direction : Type := Direction {
  d_operation : string;
  d_backup_suffix : string;
  d_changed : string;
  d_already : string;
  d_not_found : string;
  d_msg_changed : string;
  d_msg_already : string;
  d_msg_not_found : string;
  d_msg_verify : string;
  d_msg_error : string
}.

Definition apply_direction : direction := {|
  d_operation := "apply_libc_patch";
  d_backup_suffix := ".bak";
  d_changed := "applied";
  d_already := "already_patched";
  d_not_found := "pattern_not_found";
  d_msg_changed := "Patch applied successfully";
  d_msg_already := "File already contains replacement pattern";
  d_msg_not_found := "Search pattern not found in file";
  d_msg_verify := "Patch verification failed";
  d_msg_error := "Error during patching: "
|}.

Definition revert_direction : direction := {|
  d_operation := "revert_libc_patch";
  d_backup_suffix := ".revert_bak";
  d_changed := "reverted";
  d_already := "already_original";
  d_not_found := "patch_not_found";
  d_msg_changed := "Patch reverted successfully";
  d_msg_already := "File already contains original pattern";
  d_msg_not_found := "Patch pattern not found in file";
  d_msg_verify := "Reversion verification failed";
  d_msg_error := "Error during reversion: "
|}.

Definition set_entry (p : path) (fr : file_result) (r : patch_report) : patch_report :=
  PatchReport (operation r) (input_dir r) (changed r) (already r) (not_found r)
              (failed r) (<[p := fr]> (files r)).

Definition count_changed (r : patch_report) : patch_report :=
  PatchReport (operation r) (input_dir r) (S (changed r)) (already r) (not_found r)
              (failed r) (files r).
Definition count_already (r : patch_report) : patch_report :=
  PatchReport (operation r) (input_dir r) (changed r) (S (already r)) (not_found r)
              (failed r) (files r).
Definition count_not_found (r : patch_report) : patch_report :=
  PatchReport (operation r) (input_dir r) (changed r) (already r) (S (not_found r))
              (failed r) (files r).
Definition count_failed (r : patch_report) : patch_report :=
  PatchReport (operation r) (input_dir r) (changed r) (already r) (not_found r)
              (S (failed r)) (files r).

(** [file_result['backup_cleaned'] = True], done on the dictionary that is
    already stored in [results['files']]. *)
Definition mark_cleaned (p : path) (r : patch_report) : patch_report :=
  match files r !! p with
  | Some fr =>
      match backup fr with
      | Some _ => set_entry p (FileResult (status fr) (backup fr) true (message fr)) r
      | None => r
      end
  | None => r
  end.

Section Engine.

Variable D : direction.
Variable io : path → io_faults.
Variables search_pattern replacement_pattern : bytes.
Variable create_backup : bool.

(** the outer [except Exception as e] of the loop body *)
Definition on_read_error (p : path) (e : exn) (r : patch_report) : patch_report :=
  set_entry p (FileResult "error" None false ("Error reading file: " +:+ str e))
            (count_failed r).

(** [backup_path = None; if create_backup: backup_path = ...; copy2(...)] *)
Definition make_backup (p : path) (w : world) : world * outcome (option path) :=
  if create_backup then
    match with_suffix p (d_backup_suffix D) with
    | None => (w, Raise (ValueError "path has an empty name"))
    | Some b =>
        match copy2 p b w with
        | (w', Ret _) => (w', Ret (Some b))
        | (w', Raise e) => (w', Raise e)
        end
    end
  else (w, Ret None).

(** [if backup_path and backup_path.exists(): shutil.copy2(backup_path, file_path)] *)
Definition restore_backup (backup_path : option path) (p : path) (w : world)
    : world * outcome unit :=
  match backup_path with
  | Some b => if file_exists b w then copy2 b p w else (w, Ret tt)
  | None => (w, Ret tt)
  end.

(** the clean-up after the verification, whatever its result *)
Definition clean_backup (backup_path : option path) (p : path)
    (s : world * patch_report) : world * patch_report :=
  match backup_path with
  | Some b =>
      if file_exists b s.1 then (remove b s.1, mark_cleaned p s.2) else s
  | None => s
  end.

(** the body of the inner [try]: replace, write, read back, verify *)
Definition try_patch (p : path) (content : bytes) (backup_path : option path)
    (w : world) (r : patch_report) : world * outcome patch_report :=
  let patched_content := replace search_pattern replacement_pattern content in
  match write_file (write_fault (io p)) p patched_content w with
  | (w1, Raise e) => (w1, Raise e)
  | (w1, Ret _) =>
      match read_file (reread_fault (io p)) p w1 with
      | Raise e => (w1, Raise e)
      | Ret new_content =>
          if negb (contains search_pattern new_content)
             && contains replacement_pattern new_content
          then
            let r1 := set_entry p (FileResult (d_changed D) (Some backup_path) false
                                              (d_msg_changed D))
                                (count_changed r) in
            let '(w2, r2) := clean_backup backup_path p (w1, r1) in
            (w2, Ret r2)
          else
            match restore_backup backup_path p w1 with
            | (w2, Raise e) => (w2, Raise e)
            | (w2, Ret _) =>
                let r1 := set_entry p (FileResult "failed" None false (d_msg_verify D))
                                    (count_failed r) in
                let '(w3, r3) := clean_backup backup_path p (w2, r1) in
                (w3, Ret r3)
            end
      end
  end.

(** the body of the [for file_path in self_files] loop *)
Definition patch_one (s : world * patch_report) (p : path) : world * patch_report :=
  let '(w, r) := s in
  match read_file (read_fault (io p)) p w with
  | Raise e => (w, on_read_error p e r)
  | Ret content =>
      if contains search_pattern content then
        if contains replacement_pattern content then
          (w, set_entry p (FileResult (d_already D) None false (d_msg_already D))
                        (count_already r))
        else
          match make_backup p w with
          | (w0, Raise e) => (w0, on_read_error p e r)
          | (w0, Ret backup_path) =>
              match try_patch p content backup_path w0 r with
              | (w1, Ret r1) => (w1, r1)
              | (w1, Raise e) =>
                  (* the inner [except Exception as e] *)
                  match restore_backup backup_path p w1 with
                  | (w2, Raise e') => (w2, on_read_error p e' r)
                  | (w2, Ret _) =>
                      (w2, set_entry p (FileResult "error" None false
                                                   (d_msg_error D +:+ str e))
                                     (count_failed r))
                  end
              end
          end
      else
        (w, set_entry p (FileResult (d_not_found D) None false (d_msg_not_found D))
                      (count_not_found r))
  end.

Definition patch_files (self_files : list path) (s : world * patch_report)
    : world * patch_report :=
  foldl patch_one s self_files.

Definition patch_libc (dir : path) (w : world) : world * patch_report :=
  let results := PatchReport (d_operation D) dir 0 0 0 0 ∅ in
  let self_files := patch_targets io dir w in
  match self_files with
  | [] => (w, results)
  | _ :: _ => patch_files self_files (w, results)
  end.

End Engine.

Definition apply_libc_patch (io : path → io_faults) (dir : path)
    (search_pattern replacement_pattern : option bytes) (create_backup : bool)
    (w : world) : world * patch_report :=
  patch_libc apply_direction io
             (default LIBC_PATCH_PATTERN search_pattern)
             (default LIBC_PATCH_REPLACEMENT replacement_pattern)
             create_backup dir w.

Definition revert_libc_patch (io : path → io_faults) (dir : path)
    (search_pattern original_pattern : option bytes) (create_backup : bool)
    (w : world) : world * patch_report :=
  patch_libc revert_direction io
             (default LIBC_PATCH_REPLACEMENT search_pattern)
             (default LIBC_PATCH_PATTERN original_pattern)
             create_backup dir w.

(** *** [check_libc_patch_status] *)

Record file_info : Type := FileInfo {
  fi_path : path;
  fi_relative_path : path;
  has_original : bool;
  has_patch : bool;
  is_libc_file : bool
}.

Record check_report : Type := CheckReport {
  original_files : list file_info;
  patched_files : list file_info;
  both_patterns_files : list file_info;
  no_pattern_files : list file_info;
  error_files : list (path * string);
  total_files : nat
}.

Definition check_one (io : path → io_faults) (dir : path) (search_pattern patch_pattern : bytes)
    (w : world) (r : check_report) (p : path) : check_report :=
  match read_file (read_fault (io p)) p w with
  | Ret content =>
      let ho := contains search_pattern content in
      let hp := contains patch_pattern content in
      let info := FileInfo p (relative_to dir p) ho hp
                           (contains (of_str "libc") (of_str (lower (name p)))) in
      if ho && negb hp then
        CheckReport (original_files r ++ [info]) (patched_files r) (both_patterns_files r)
                    (no_pattern_files r) (error_files r) (total_files r)
      else if hp && negb ho then
        CheckReport (original_files r) (patched_files r ++ [info]) (both_patterns_files r)
                    (no_pattern_files r) (error_files r) (total_files r)
      else if ho && hp then
        CheckReport (original_files r) (patched_files r) (both_patterns_files r ++ [info])
                    (no_pattern_files r) (error_files r) (total_files r)
      else
        CheckReport (original_files r) (patched_files r) (both_patterns_files r)
                    (no_pattern_files r ++ [info]) (error_files r) (total_files r)
  | Raise e =>
      CheckReport (original_files r) (patched_files r) (both_patterns_files r)
                  (no_pattern_files r) (error_files r ++ [(p, str e)]) (total_files r)
  end.

Definition check_libc_patch_status (io : path → io_faults) (dir : path)
    (search_pattern patch_pattern : option bytes) (w : world) : check_report :=
  let sp := default LIBC_PATCH_PATTERN search_pattern in
  let pp := default LIBC_PATCH_REPLACEMENT patch_pattern in
  let self_files := patch_targets io dir w in
  match self_files with
  | [] => CheckReport [] [] [] [] [] 0
  | _ :: _ =>
      foldl (check_one io dir sp pp w) (CheckReport [] [] [] [] [] (length self_files))
            self_files
  end.

(** *** Vocabulary for the statements about the patch engine *)

(** the sum of the four counters *)
Definition total (r : patch_report) : nat :=
  changed r + already r + not_found r + failed r.

(** What the entry of a file says when the patch of it does not go through:
    the exception of the write, else that of the read-back, else the failed
    verification. *)
Definition failure_entry (D : direction) (fl : io_faults) : file_result :=
  match write_fault fl with
  | Some wf => FileResult "error" None false (d_msg_error D +:+ write_msg wf)
  | None =>
      match reread_fault fl with
      | Some m => FileResult "error" None false (d_msg_error D +:+ m)
      | None => FileResult "failed" None false (d_msg_verify D)
      end
  end.

(** The patch of [content] goes through: both accesses succeed and the
    read-back passes the verification. *)
Definition patch_goes_through (fl : io_faults) (search repl content : bytes) : Prop :=
  write_fault fl = None ∧ reread_fault fl = None ∧
  contains search (replace search repl content) = false ∧
  contains repl (replace search repl content) = true.

(** The name for a changed file differs from the other status names. *)
Definition distinct_statuses (D : direction) : Prop :=
  d_changed D ≠ "error" ∧ d_changed D ≠ "failed" ∧
  d_changed D ≠ d_already D ∧ d_changed D ≠ d_not_found D.

End Patch.

(** ** The config store *)

Module Config.

Import PyPath Json Exn FS.

Definition directories_entry (last_input last_output last_used : string) : json :=
  JObj (list_to_map [("last_input", JStr last_input);
                     ("last_output", JStr last_output);
                     ("last_used", JStr last_used)]).

Definition default_config : json :=
  JObj {[ "directories" := directories_entry "" "" "" ]}.

Definition _load_config (w : world) : json :=
  match wconfig w with
  | CfgJson j => j
  | CfgAbsent | CfgUnreadable | CfgUnparseable => default_config
  end.

(** [_save_config]: the write is inside [try: ... except: pass]; a failing
    write leaves the file in the state [fault] names. *)
Definition _save_config (fault : option config_file) (config : json) (w : world) : world :=
  match fault with
  | Some leftover => set_config leftover w
  | None => set_config (CfgJson config) w
  end.

(** [config['directories'] = v] *)
Definition setitem_directories (config v : json) : outcome json :=
  match config with
  | JObj m => Ret (JObj (<["directories" := v]> m))
  | JArr _ => Raise (TypeError "list indices must be integers or slices, not str")
  | JStr _ => Raise (TypeError "'str' object does not support item assignment")
  | JNull => Raise (TypeError "'NoneType' object does not support item assignment")
  | JBool _ => Raise (TypeError "'bool' object does not support item assignment")
  | JInt _ => Raise (TypeError "'int' object does not support item assignment")
  | JFloat _ => Raise (TypeError "'float' object does not support item assignment")
  end.

Definition _save_directories_to_config (fault : option config_file) (now : string)
    (input_dir output_dir : string) (w : world) : world * outcome unit :=
  let config := _load_config w in
  match setitem_directories config (directories_entry input_dir output_dir now) with
  | Raise e => (w, Raise e)
  | Ret config' => (_save_config fault config' w, Ret tt)
  end.

(** [d.get(k, dflt)], an [AttributeError] on anything but a dict *)
Definition dict_get (d : json) (k : string) (dflt : json) : outcome json :=
  match d with
  | JObj m => Ret (default dflt (m !! k))
  | JArr _ => Raise (AttributeError "'list' object has no attribute 'get'")
  | JStr _ => Raise (AttributeError "'str' object has no attribute 'get'")
  | JNull => Raise (AttributeError "'NoneType' object has no attribute 'get'")
  | JBool _ => Raise (AttributeError "'bool' object has no attribute 'get'")
  | JInt _ => Raise (AttributeError "'int' object has no attribute 'get'")
  | JFloat _ => Raise (AttributeError "'float' object has no attribute 'get'")
  end.

Definition get_last_directories (w : world) : outcome (json * json) :=
  match dict_get (_load_config w) "directories" (JObj ∅) with
  | Raise e => Raise e
  | Ret dirs =>
      match dict_get dirs "last_input" (JStr "") with
      | Raise e => Raise e
      | Ret a =>
          match dict_get dirs "last_output" (JStr "") with
          | Raise e => Raise e
          | Ret b => Ret (a, b)
          end
      end
  end.

End Config.

(** ** The pipeline: decrypt, downgrade and sign, full pipeline *)

Module Pipeline.

Import PyBytes PyPath Json Exn FS.

(** One entry of a stage's ['files']; [output] is [None] for a missing or
    empty ['output']. *)
Record stage_result : Type := StageResult {
  success : bool;
  output : option path;
  message : string
}.

Record stage_report : Type := StageReport {
  successful : nat;
  failed : nat;
  files : gmap path stage_result
}.

Definition empty_stage : stage_report := StageReport 0 0 ∅.

Definition record_result (p : path) (sr : stage_result) (r : stage_report) : stage_report :=
  StageReport (successful r) (failed r) (<[p := sr]> (files r)).
Definition count_successful (r : stage_report) : stage_report :=
  StageReport (S (successful r)) (failed r) (files r).
Definition count_failed (r : stage_report) : stage_report :=
  StageReport (successful r) (S (failed r)) (files r).

Record decrypt_results : Type := DecryptResults {
  dr_input_dir : path;
  dr_output_dir : path;
  dr_counts : stage_report       (* ['successful'], ['failed'], ['files'] *)
}.

Record libc_patch_summary : Type := LibcPatchSummary {
  lp_applied : nat;
  lp_reverted : nat;
  lp_results : option Patch.patch_report
}.

Record fakelib_summary : Type := FakelibSummary {
  fakelib : bool * string;               (* ['success'], ['message'] *)
  fakelib_copies : nat * list path       (* ['created'], ['locations'] *)
}.

Record downgrade_results : Type := DowngradeResults {
  ds_input_dir : path;
  ds_output_dir : path;
  ds_sdk_pair : Z;
  ds_paid : Z;
  ds_ptype : Z;
  ds_versions : option (Z * Z);          (* ['ps5_sdk_version'], ['ps4_sdk_version'] *)
  downgrade : stage_report;
  signing : stage_report;
  libc_patch : libc_patch_summary;
  ds_fakelib : fakelib_summary
}.

(** What the full pipeline reports under ['downgrade_and_sign']: the fixed
    dictionary of the abort branch, or the results of the stage. *)
Inductive downstream : Type :=
  | Aborted (counts : stage_report) (lp : libc_patch_summary) (fl : fakelib_summary)
  | Completed (r : downgrade_results).

Record pipeline_results : Type := PipelineResults {
  fp_input_dir : path;
  fp_output_dir : path;
  decrypt : decrypt_results;
  downgrade_and_sign_results : downstream
}.

(** The calls a run makes, in order. *)
Inductive event : Type :=
  | CallConvertFile (src dst : path)
  | CallPatchFile (f : path)
  | CallSignFile (src dst : path)
  | CallApplyLibcPatch (dir : path)
  | CallRevertLibcPatch (dir : path)
  | CallCopyFakelib (src dst : path)
  | CallDowngradeAndSign (src dst : path).

#[global] Instance event_eq_dec : EqDecision event.
Proof. solve_decision. Defined.

(** The collaborators and the environment.  [patch_file] is the SDK version
    patcher configured with a pair and its backup flag, [sign_file] the
    signer configured with PAID and program type; [set_versions_by_pair] may
    refuse a pair; [copy_fakelib_step] is step 4 of [downgrade_and_sign]. *)
Class Env : Type := {
  io : path → io_faults;
  convert_file : path → path → world → world * outcome bool;
  set_versions_by_pair : Z → outcome (Z * Z);
  patch_file : Z → bool → path → world → world * outcome (bool * string);
  sign_file : Z → Z → path → path → world → world * outcome bool;
  copy_fakelib_step : path → path → world → world * fakelib_summary;
  mkdtemp : world → path;
  cfg_write_fault : option config_file;
  now : string
}.

Abbreviation state := (world * list event)%type.

Definition path_exists (p : path) (w : world) : bool :=
  file_exists p w || dir_exists p w.

Section WithEnv.

Context `{E : Env}.

(** *** [decrypt_files] *)

Definition decrypt_one (input_dir output_dir : path) (overwrite : bool)
    (s : state * stage_report) (self_file : path) : state * stage_report :=
  let '((w, tr), r) := s in
  let relative_path := relative_to input_dir self_file in
  let output_file := joinpath output_dir relative_path in
  let w1 := mkdir_p (parent output_file) w in
  if path_exists output_file w1 && negb overwrite then ((w1, tr), r)
  else
    let tr1 := tr ++ [CallConvertFile self_file output_file] in
    match convert_file self_file output_file w1 with
    | (w2, Ret ok) =>
        ((w2, tr1),
         record_result self_file
           (StageResult ok (Some output_file) (if ok then "Success" else "Failed"))
           (if ok then count_successful r else count_failed r))
    | (w2, Raise e) =>
        ((w2, tr1),
         record_result self_file
           (StageResult false (Some output_file) ("Error: " +:+ str e))
           (count_failed r))
    end.

Definition decrypt_files (input_dir output_dir : path) (overwrite save_to_config : bool)
    (s : state) : state * outcome decrypt_results :=
  let '(w, tr) := s in
  let '(w0, saved) :=
    if save_to_config
    then Config._save_directories_to_config cfg_write_fault now
           (show_path input_dir) (show_path output_dir) w
    else (w, Ret tt) in
  match saved with
  | Raise e => ((w0, tr), Raise e)
  | Ret _ =>
      let self_files := Patch.find_self_files io input_dir w0 in
      match self_files with
      | [] => ((w0, tr), Ret (DecryptResults input_dir output_dir empty_stage))
      | _ :: _ =>
          let w1 := mkdir_p output_dir w0 in
          let '(s', r) :=
            foldl (decrypt_one input_dir output_dir overwrite)
                  ((w1, tr), empty_stage) self_files in
          (s', Ret (DecryptResults input_dir output_dir r))
      end
  end.

(** *** [downgrade_and_sign] *)

Definition downgrade_one (sdk_pair : Z) (create_backup : bool)
    (s : state * stage_report) (elf_file : path) : state * stage_report :=
  let '((w, tr), r) := s in
  let tr1 := tr ++ [CallPatchFile elf_file] in
  match patch_file sdk_pair create_backup elf_file w with
  | (w1, Ret (ok, msg)) =>
      ((w1, tr1),
       record_result elf_file (StageResult ok None msg)
         (if ok then count_successful r else count_failed r))
  | (w1, Raise e) =>
      ((w1, tr1),
       record_result elf_file (StageResult false None ("Error: " +:+ str e))
         (count_failed r))
  end.

(** [results['downgrade']['files'].get(f, {}).get('success', False)] *)
Definition downgrade_ok (dg : stage_report) (f : path) : bool :=
  default false (success <$> files dg !! f).

Definition sign_one (paid ptype : Z) (input_dir output_dir : path) (overwrite : bool)
    (dg : stage_report) (s : state * stage_report) (elf_file : path)
    : state * stage_report :=
  let '((w, tr), r) := s in
  if negb (downgrade_ok dg elf_file) then
    ((w, tr),
     count_failed
       (record_result elf_file
          (StageResult false None "Skipped due to downgrade failure") r))
  else
    let output_file := joinpath output_dir (relative_to input_dir elf_file) in
    let w1 := mkdir_p (parent output_file) w in
    if path_exists output_file w1 && negb overwrite then ((w1, tr), r)
    else
      let tr1 := tr ++ [CallSignFile elf_file output_file] in
      match sign_file paid ptype elf_file output_file w1 with
      | (w2, Ret ok) =>
          ((w2, tr1),
           record_result elf_file
             (StageResult ok (Some output_file) (if ok then "Success" else "Failed"))
             (if ok then count_successful r else count_failed r))
      | (w2, Raise e) =>
          ((w2, tr1),
           record_result elf_file
             (StageResult false (Some output_file) ("Error: " +:+ str e))
             (count_failed r))
      end.

(** Step 3: the libc patch on the signed output. *)
Definition libc_step (output_dir : path) (sdk_pair : Z)
    (apply_libc_patch auto_revert_for_high_sdk : bool) (s : state)
    : state * libc_patch_summary :=
  let '(w, tr) := s in
  if apply_libc_patch then
    if (sdk_pair <=? 6)%Z then
      let '(w1, patch_results) := Patch.apply_libc_patch io output_dir None None false w in
      ((w1, tr ++ [CallApplyLibcPatch output_dir]),
       LibcPatchSummary (Patch.applied patch_results) 0 (Some patch_results))
    else if auto_revert_for_high_sdk then
      let '(w1, revert_results) := Patch.revert_libc_patch io output_dir None None false w in
      ((w1, tr ++ [CallRevertLibcPatch output_dir]),
       LibcPatchSummary 0 (Patch.reverted revert_results) (Some revert_results))
    else (s, LibcPatchSummary 0 0 None)
  else (s, LibcPatchSummary 0 0 None).

(** Step 4: the fakelib copies. *)
Definition fakelib_step (fakelib_source : option path) (output_dir : path) (s : state)
    : state * fakelib_summary :=
  let '(w, tr) := s in
  match fakelib_source with
  | Some src =>
      let '(w1, fl) := copy_fakelib_step src output_dir w in
      ((w1, tr ++ [CallCopyFakelib src output_dir]), fl)
  | None => (s, FakelibSummary (false, "") (0, []))
  end.

Definition downgrade_and_sign (input_dir output_dir : path) (sdk_pair paid ptype : Z)
    (fakelib_source : option path)
    (create_backup overwrite apply_libc_patch auto_revert_for_high_sdk save_to_config : bool)
    (s : state) : state * outcome downgrade_results :=
  let '(w, tr) := s in
  let tr0 := tr ++ [CallDowngradeAndSign input_dir output_dir] in
  let '(w0, saved) :=
    if save_to_config
    then Config._save_directories_to_config cfg_write_fault now
           (show_path input_dir) (show_path output_dir) w
    else (w, Ret tt) in
  match saved with
  | Raise e => ((w0, tr0), Raise e)
  | Ret _ =>
      match set_versions_by_pair sdk_pair with
      | Raise e => ((w0, tr0), Raise e)
      | Ret versions =>
          let results dg sg lp fl :=
            DowngradeResults input_dir output_dir sdk_pair paid ptype (Some versions)
                             dg sg lp fl in
          let nothing := FakelibSummary (false, "") (0, []) in
          let elf_files := Patch.find_elf_files io input_dir w0 in
          match elf_files with
          | [] =>
              ((w0, tr0),
               Ret (results empty_stage empty_stage (LibcPatchSummary 0 0 None) nothing))
          | _ :: _ =>
              let '(s1, dg) :=
                foldl (downgrade_one sdk_pair create_backup)
                      ((w0, tr0), empty_stage) elf_files in
              let s2 := (mkdir_p output_dir s1.1, s1.2) in
              let '(s3, sg) :=
                foldl (sign_one paid ptype input_dir output_dir overwrite dg)
                      (s2, empty_stage) elf_files in
              let '(s4, lp) :=
                libc_step output_dir sdk_pair apply_libc_patch auto_revert_for_high_sdk s3 in
              let '(s5, fl) := fakelib_step fakelib_source output_dir s4 in
              (s5, Ret (results dg sg lp fl))
          end
      end
  end.

(** *** [process_full_pipeline] *)

Definition abort_report : downstream :=
  Aborted empty_stage (LibcPatchSummary 0 0 None)
          (FakelibSummary (false, "Pipeline aborted") (0, [])).

(** the body of the [try] *)
Definition pipeline_body (temp_dir input_dir output_dir : path) (sdk_pair paid ptype : Z)
    (fakelib_source : option path)
    (create_backup overwrite apply_libc_patch auto_revert_for_high_sdk : bool)
    (s : state) : state * outcome pipeline_results :=
  match decrypt_files input_dir temp_dir overwrite false s with
  | (s1, Raise e) => (s1, Raise e)
  | (s1, Ret decrypt_results) =>
      if successful (dr_counts decrypt_results) =? 0 then
        (s1, Ret (PipelineResults input_dir output_dir decrypt_results abort_report))
      else
        match Config._save_directories_to_config cfg_write_fault now
                (show_path input_dir) (show_path output_dir) s1.1 with
        | (w2, Raise e) => ((w2, s1.2), Raise e)
        | (w2, Ret _) =>
            match downgrade_and_sign temp_dir output_dir sdk_pair paid ptype
                    fakelib_source create_backup overwrite apply_libc_patch
                    auto_revert_for_high_sdk false (w2, s1.2) with
            | (s3, Raise e) => (s3, Raise e)
            | (s3, Ret downgrade_sign_results) =>
                (s3, Ret (PipelineResults input_dir output_dir decrypt_results
                                          (Completed downgrade_sign_results)))
            end
        end
  end.

(** [temp_dir = mkdtemp(...)], the [try] and its [finally: rmtree(temp_dir)] *)
Definition process_full_pipeline (input_dir output_dir : path) (sdk_pair paid ptype : Z)
    (fakelib_source : option path)
    (create_backup overwrite apply_libc_patch auto_revert_for_high_sdk : bool)
    (s : state) : state * outcome pipeline_results :=
  let temp_dir := mkdtemp s.1 in
  let s0 := (set_dirs (λ ds, ds ∪ {[temp_dir]}) s.1, s.2) in
  let '(s1, res) :=
    pipeline_body temp_dir input_dir output_dir sdk_pair paid ptype fakelib_source
                  create_backup overwrite apply_libc_patch auto_revert_for_high_sdk s0 in
  ((rmtree temp_dir s1.1, s1.2), res).

End WithEnv.

(** *** Vocabulary for the statements about the pipeline *)

Definition is_libc_call (e : event) : bool :=
  match e with
  | CallApplyLibcPatch _ | CallRevertLibcPatch _ => true
  | _ => false
  end.

(** Every call but that of the decoder belongs to the downstream stage. *)
Definition is_downstream_call (e : event) : bool :=
  match e with
  | CallConvertFile _ _ => false
  | _ => true
  end.

(** The entry the sign loop writes for a file whose downgrade failed. *)
Definition skipped_entry : stage_result :=
  StageResult false None "Skipped due to downgrade failure".

(** the number of entries with [success = False] *)
Definition unsuccessful (m : gmap path stage_result) : nat :=
  size (filter (λ kv, success kv.2 = false) m).

(** the calls step 3 makes *)
Definition libc_calls (output_dir : path) (sdk_pair : Z)
    (apply_libc_patch auto_revert_for_high_sdk : bool) : list event :=
  if apply_libc_patch then
    if (sdk_pair <=? 6)%Z then [CallApplyLibcPatch output_dir]
    else if auto_revert_for_high_sdk then [CallRevertLibcPatch output_dir]
    else []
  else [].

(** the calls step 4 makes *)
Definition fakelib_calls (fakelib_source : option path) (output_dir : path) : list event :=
  match fakelib_source with
  | Some src => [CallCopyFakelib src output_dir]
  | None => []
  end.

End Pipeline.

(** ** Concrete inputs: small directories and test doubles *)

Module Demo.

Import PyBytes PyPath Json Exn FS.

Definition mk_world (l : list (path * bytes)) (c : config_file) : world :=
  World (list_to_map l) ∅ c.

Definition nofaults : path → io_faults := λ _, no_faults.

(** Test doubles for the collaborators: the decoder and the signer swap the
    magic, the version patcher refuses files named [*.bad] and knows the
    pairs 1 to 10. *)
Definition demo_env : Pipeline.Env := {|
  Pipeline.io := nofaults;
  Pipeline.convert_file := λ src dst w,
    match wfiles w !! src with
    | Some c => (set_files (insert dst (Patch.ELF_MAGIC ++ drop 4 c)) w, Ret true)
    | None => (w, Ret false)
    end;
  Pipeline.set_versions_by_pair := λ pair,
    if ((1 <=? pair) && (pair <=? 10))%Z then Ret (pair, pair)
    else Raise (ValueError "unsupported SDK pair");
  Pipeline.patch_file := λ pair cb f w,
    if endswith (name f) ".bad" then (w, Ret (false, "no SDK version found"))
    else (w, Ret (true, "patched"));
  Pipeline.sign_file := λ paid ptype src dst w,
    match wfiles w !! src with
    | Some c => (set_files (insert dst (Patch.SELF_MAGIC_1 ++ drop 4 c)) w, Ret true)
    | None => (w, Ret false)
    end;
  Pipeline.copy_fakelib_step := λ src out w,
    (w, Pipeline.FakelibSummary (true, "fakelib directory not found (skipping)") (0, []));
  Pipeline.mkdtemp := λ w, ["tmp"; "ps5_elf_0"];
  Pipeline.cfg_write_fault := None;
  Pipeline.now := "2024-01-01 00:00:00"
|}.

Definition elf (s : string) : bytes := Patch.ELF_MAGIC ++ of_str s.
Definition self (s : bytes) : bytes := Patch.SELF_MAGIC_1 ++ s.

(** a signed file with the original pattern *)
Definition eboot : path := ["d"; "eboot.bin"].
Definition one_original : world :=
  mk_world [(eboot, self (Patch.LIBC_PATCH_PATTERN ++ of_str "zz"))] CfgAbsent.

(** the same bytes under a name that ends in [.revert_bak] *)
Definition leftover : path := ["d"; "eboot.revert_bak"].
Definition one_leftover : world :=
  mk_world [(leftover, self (Patch.LIBC_PATCH_PATTERN ++ of_str "zz"))] CfgAbsent.

(** a patched file, and the write to it fails *)
Definition x_self : path := ["d"; "x.self"].
Definition x_revert_bak : path := ["d"; "x.revert_bak"].
Definition one_patched : world :=
  mk_world [(x_self, self Patch.LIBC_PATCH_REPLACEMENT)] CfgAbsent.
Definition write_fails_on_x : path → io_faults := λ p,
  if bool_decide (p = x_self)
  then IoFaults false None (Some (WriteFailure (Some []) "No space left on device")) None
  else no_faults.

(** a patched file next to a file with both patterns whose name is the
    revert backup path of the first *)
Definition patched_and_both : world :=
  mk_world [(x_revert_bak,
             self (Patch.LIBC_PATCH_PATTERN ++ Patch.LIBC_PATCH_REPLACEMENT));
            (x_self, self Patch.LIBC_PATCH_REPLACEMENT)] CfgAbsent.

(** a file with both patterns under an ordinary name *)
Definition one_both : world :=
  mk_world [(x_self, self (Patch.LIBC_PATCH_PATTERN ++ Patch.LIBC_PATCH_REPLACEMENT))]
           CfgAbsent.

Definition empty_report : Patch.patch_report :=
  Patch.PatchReport "apply_libc_patch" ["d"] 0 0 0 0 ∅.

(** patterns for which the verification fails: replacing ["ab"] by ["ba"]
    in ["aab"] gives ["aba"] *)
Definition ab : bytes := of_str "ab".
Definition ba : bytes := of_str "ba".
Definition one_aab : world := mk_world [(x_self, self (of_str "aab"))] CfgAbsent.

(** raw executables, one of them refused by the version patcher *)
Definition a_elf : path := ["in"; "a.elf"].
Definition b_bad : path := ["in"; "b.bad"].
Definition two_elfs : world :=
  mk_world [(a_elf, elf "aaaa"); (b_bad, elf "bbbb")] CfgAbsent.

Definition empty_world : world := mk_world [] CfgAbsent.

(** a raw executable under a name that ends in [.revert_bak], and one under
    a name that ends in [.bak] *)
Definition elf_leftover : world := mk_world [(leftover, elf "aaaa")] CfgAbsent.
Definition x_bak : path := ["d"; "x.self.bak"].
Definition one_bak : world := mk_world [(x_bak, self (of_str "aaaa"))] CfgAbsent.

(** a config file that holds the JSON array [[]] *)
Definition array_config : world := mk_world [] (CfgJson (JArr [])).

(** a config file that holds the JSON object [{}] *)
Definition empty_object_config : world := mk_world [] (CfgJson (JObj ∅)).

End Demo.

(** ** Patterns whose copies cannot overlap *)

Module Patterns.

Import PyBytes.

(** No occurrence of [old] can straddle an inserted copy of [new]: no
    non-empty suffix of [old] is comparable (as a prefix) with [new], and no
    proper non-empty suffix of [new] is comparable with [old]. *)
Definition comparable (a b : bytes) : bool := startswith a b || startswith b a.

Definition overlap_free (old new : bytes) : bool :=
  forallb (λ i, negb (comparable (drop i old) new)) (seq 0 (length old)) &&
  forallb (λ i, negb (comparable (drop i new) old)) (seq 1 (length new - 1)).

End Patterns.

(** ** Vocabulary for the statements about whole operations *)

Module PatchVocabulary.

Import PyBytes PyPath Json Exn FS Patch.

(** Only the file map changes. *)
Definition same_meta (w w' : world) : Prop :=
  wdirs w' = wdirs w ∧ wconfig w' = wconfig w.

(** Nothing is left to do for the loop body on [p] with bytes [c]: the file
    lacks the search pattern or holds the replacement, or the backup cannot
    be named. *)
Definition settled (D : direction) (search_pattern replacement_pattern : bytes)
    (create_backup : bool) (p : path) (c : bytes) : Prop :=
  contains search_pattern c = false ∨ contains replacement_pattern c = true ∨
  (create_backup = true ∧ with_suffix p (d_backup_suffix D) = None).

End PatchVocabulary.

(** ** Vocabulary for the statements about [check_libc_patch_status] *)

Module CheckVocabulary.

Import PyBytes PyPath Json Exn FS Patch.

(** the paths a status report lists, list by list *)
Definition listed_paths (r : check_report) : list path :=
  map fi_path (original_files r) ++ map fi_path (patched_files r) ++
  map fi_path (both_patterns_files r) ++ map fi_path (no_pattern_files r) ++
  map fst (error_files r).

(** An entry of a status list describes its file: the file is readable, the
    two flags say which patterns its bytes hold, and they have the values
    [ho] and [hp]. *)
Definition describes (io : path → io_faults) (dir : path) (sp pp : bytes) (w : world)
    (ho hp : bool) (i : file_info) : Prop :=
  ∃ content,
    read_file (read_fault (io (fi_path i))) (fi_path i) w = Ret content ∧
    has_original i = contains sp content ∧ has_patch i = contains pp content ∧
    has_original i = ho ∧ has_patch i = hp ∧
    fi_relative_path i = relative_to dir (fi_path i).

(** An entry of the error list carries the message of the exception the
    read of its file raises. *)
Definition read_error (io : path → io_faults) (w : world) (e : path * string) : Prop :=
  ∃ x, read_file (read_fault (io e.1)) e.1 w = Raise x ∧ e.2 = str x.

(** the five lists hold what the classification says *)
Definition classified_report (io : path → io_faults) (dir : path) (sp pp : bytes)
    (w : world) (r : check_report) : Prop :=
  Forall (describes io dir sp pp w true false) (original_files r) ∧
  Forall (describes io dir sp pp w false true) (patched_files r) ∧
  Forall (describes io dir sp pp w true true) (both_patterns_files r) ∧
  Forall (describes io dir sp pp w false false) (no_pattern_files r) ∧
  Forall (read_error io w) (error_files r).

End CheckVocabulary.

(** ** Vocabulary for the statements about the stage reports *)

Module PipelineVocabulary.

Import PyBytes PyPath Json Exn FS Pipeline.

(** the number of entries with [success = True] *)
Definition succeeded (m : gmap path stage_result) : nat :=
  size (filter (λ kv, success kv.2 = true) m).

(** where a stage puts the output for [f]: [output_dir / f.relative_to(input_dir)] *)
Definition output_for (input_dir output_dir f : path) : path :=
  joinpath output_dir (relative_to input_dir f).

(** the files of [l] that have an entry in [m], in the order of [l] *)
Definition recorded {A} (m : gmap path A) (l : list path) : list path :=
  List.filter (λ f, bool_decide (is_Some (m !! f))) l.

(** the files of [l] whose entry in [m] names an output, in the order of [l] *)
Definition with_output (m : gmap path stage_result) (l : list path) : list path :=
  List.filter (λ f, match m !! f with
                    | Some sr => bool_decide (is_Some (output sr))
                    | None => false
                    end) l.

(** A stage report is balanced: the two counters count the entries by their
    [success] flag, so they add up to the number of entries. *)
Definition balanced (r : stage_report) : Prop :=
  successful r = succeeded (files r) ∧ failed r = unsuccessful (files r) ∧
  successful r + failed r = size (files r).

(** the calls of the downstream stage as a whole *)
Definition is_stage_call (e : event) : bool :=
  match e with
  | CallDowngradeAndSign _ _ => true
  | _ => false
  end.

End PipelineVocabulary.

(** ** The fakelib copies: [_copy_fakelib], [_copy_fakelib_to_eboot_dirs]

    Directories are implicit in the file map: a path is a directory when it
    was created explicitly or when a file or an explicitly created directory
    lies below it.  [shutil.copytree] behaves as on a working disk; copying a
    directory to a destination inside itself, which the real call answers
    with ever deeper copies until it fails, is modelled as that failure
    without the partial copies. *)

Module Fakelib.

Import PyBytes PyPath Json Exn FS.

(** [p.is_dir()] *)
Definition is_dir (d : path) (w : world) : bool :=
  negb (file_exists d w) &&
  (negb (bool_decide (filter (λ q, d `prefix_of` q) (wdirs w) = ∅))
   || negb (bool_decide (walk d w = []))).

(** [p.exists()] *)
Definition exists_ (p : path) (w : world) : bool := file_exists p w || is_dir p w.

(** [shutil.rmtree(d)], which refuses a regular file *)
Definition rmtree_dir (d : path) (w : world) : world * outcome unit :=
  if file_exists d w
  then (w, Raise (OSError ("[Errno 20] Not a directory: " +:+ show_path d)))
  else (rmtree d w, Ret tt).

(** where [copytree(src, dst)] puts the file or directory [p] of [src] *)
Definition relocate (src dst p : path) : path := dst ++ drop (length src) p.

(** [shutil.copytree(src, dst)] *)
Definition copytree (src dst : path) (w : world) : world * outcome unit :=
  if file_exists src w
  then (w, Raise (OSError ("[Errno 20] Not a directory: " +:+ show_path src)))
  else if negb (is_dir src w) then (w, Raise (FileNotFoundError src))
  else if exists_ dst w
  then (w, Raise (OSError ("[Errno 17] File exists: " +:+ show_path dst)))
  else if bool_decide (src `prefix_of` dst)
  then (w, Raise (OSError "[Errno 36] File name too long"))
  else
    let copied :=
      map (λ kv : path * bytes, (relocate src dst kv.1, kv.2))
          (List.filter (λ kv : path * bytes, is_under src kv.1)
                       (map_to_list (wfiles w))) in
    let w1 := mkdir_p dst w in
    (World (list_to_map copied ∪ wfiles w1)
           (wdirs w1 ∪ set_map (relocate src dst)
                               (filter (λ q, src `prefix_of` q) (wdirs w)))
           (wconfig w1),
     Ret tt).

(** the body of the two [try] blocks: remove what is at the destination,
    then copy the tree *)
Definition replace_tree (src dest : path) (w : world) : world * outcome unit :=
  let '(w1, removed) := if exists_ dest w then rmtree_dir dest w else (w, Ret tt) in
  match removed with
  | Raise e => (w1, Raise e)
  | Ret _ => copytree src dest w1
  end.

Definition _copy_fakelib (fakelib_source output_dir : path) (w : world)
    : world * (bool * string) :=
  if negb (exists_ fakelib_source w) then
    (w, (true, "fakelib directory not found at " +:+ show_path fakelib_source
               +:+ " (skipping)"))
  else if negb (is_dir fakelib_source w) then
    (w, (false, "fakelib path exists but is not a directory: "
                +:+ show_path fakelib_source))
  else
    let fakelib_dest := output_dir ++ ["fakelib"] in
    match replace_tree fakelib_source fakelib_dest w with
    | (w1, Ret _) =>
        let file_count := length (walk fakelib_dest w1) in
        (w1, (true, "Copied fakelib directory from " +:+ show_path fakelib_source
                    +:+ " (" +:+ pretty file_count +:+ " files)"))
    | (w1, Raise e) => (w1, (false, "Failed to copy fakelib: " +:+ str e))
    end.

(** the [eboot.bin] files (any case) below the output directory *)
Definition eboot_files (output_dir : path) (w : world) : list path :=
  List.filter (λ p, String.eqb (lower (name p)) "eboot.bin") (walk output_dir w).

(** the body of the [for eboot_file in eboot_files] loop; the state carries
    ['created'] and ['locations'] *)
Definition copy_to_eboot_dir (fakelib_source output_dir : path)
    (s : world * (nat * list path)) (eboot_file : path) : world * (nat * list path) :=
  let '(w, (created, locations)) := s in
  let eboot_dir := parent eboot_file in
  if bool_decide (eboot_dir = output_dir) then s
  else
    let fakelib_dest := eboot_dir ++ ["fakelib"] in
    match replace_tree fakelib_source fakelib_dest w with
    | (w1, Ret _) => (w1, (S created, locations ++ [fakelib_dest]))
    | (w1, Raise _) => (w1, (created, locations))
    end.

Definition _copy_fakelib_to_eboot_dirs (fakelib_source output_dir : path) (w : world)
    : world * (nat * list path) :=
  if negb (exists_ fakelib_source w) || negb (is_dir fakelib_source w)
  then (w, (0, []))
  else
    let found := eboot_files output_dir w in
    match found with
    | [] => (w, (0, []))
    | _ :: _ => foldl (copy_to_eboot_dir fakelib_source output_dir) (w, (0, [])) found
    end.

(** Step 4 of [downgrade_and_sign]: the copy into the output directory and,
    when it succeeded, the copies next to the [eboot.bin] files. *)
Definition copy_fakelib_step (fakelib_source output_dir : path) (w : world)
    : world * Pipeline.fakelib_summary :=
  let '(w1, (success, message)) := _copy_fakelib fakelib_source output_dir w in
  if success then
    let '(w2, fakelib_copies) := _copy_fakelib_to_eboot_dirs fakelib_source output_dir w1 in
    (w2, Pipeline.FakelibSummary (success, message) fakelib_copies)
  else (w1, Pipeline.FakelibSummary (success, message) (0, [])).

(** [q] lies in or below a directory named [fakelib] in or below
    [output_dir]: a component [fakelib] follows the components of
    [output_dir] *)
Definition below_a_fakelib (output_dir q : path) : bool :=
  bool_decide (output_dir `prefix_of` q) &&
  bool_decide ("fakelib" ∈ drop (length output_dir) q).

(** the counter counts the recorded locations, and each of them is the
    [fakelib] directory next to one of the files of [l], outside the output
    directory itself *)
Definition counted (output_dir : path) (l : list path) (c : nat * list path) : Prop :=
  c.1 = length c.2 ∧
  Forall (λ loc, ∃ e, e ∈ l ∧ parent e ≠ output_dir ∧ loc = parent e ++ ["fakelib"]) c.2.

End Fakelib.

(** ** [src/Backpork.py]: the directory filter of the walks *)

Module Gui.

Import PyPath Exn.

(** [l.remove(x)]: the first item equal to [x] goes; [None] is the
    [ValueError] for a missing item *)
Fixpoint list_remove (x : string) (l : list string) : option (list string) :=
  match l with
  | [] => None
  | y :: l' => if String.eqb y x then Some l' else cons y <$> list_remove x l'
  end.

(** [_should_skip_dir(dirs, skip_name)]; the list is changed in place, the
    result is the list after the call *)
Definition _should_skip_dir (dirs : list string) (skip_name : string)
    : outcome (list string) :=
  let dirs_to_remove :=
    List.filter (λ d, String.eqb (lower d) (lower skip_name)) dirs in
  foldl (λ acc dir_name,
           match acc with
           | Ret ds =>
               match list_remove dir_name ds with
               | Some ds' => Ret ds'
               | None => Raise (ValueError "list.remove(x): x not in list")
               end
           | Raise e => Raise e
           end)
        (Ret dirs) dirs_to_remove.

End Gui.

(** ** More concrete inputs *)

Module Samples.

Import PyBytes PyPath Json Exn FS Demo.

(** signed files in one directory: one with the original pattern, one
    patched, one without pattern, and a [libc.prx] that is no SELF file *)
Definition a_self : path := ["d"; "a.self"].
Definition b_self : path := ["d"; "b.self"].
Definition c_self : path := ["d"; "c.self"].
Definition libc_prx : path := ["d"; "sce_module"; "libc.prx"].
Definition original_bytes : bytes := self (Patch.LIBC_PATCH_PATTERN ++ of_str "zz").
Definition patched_bytes : bytes := self (Patch.LIBC_PATCH_REPLACEMENT ++ of_str "zz").
Definition mixed_dir : world :=
  mk_world [(a_self, original_bytes);
            (b_self, patched_bytes);
            (c_self, self (of_str "plain"));
            (libc_prx, of_str "raw" ++ Patch.LIBC_PATCH_PATTERN)] CfgAbsent.

(** signed inputs for the decoder, one of them in a subdirectory *)
Definition in_a : path := ["in"; "a.self"].
Definition in_b : path := ["in"; "sub"; "b.self"].
Definition two_selfs : world :=
  mk_world [(in_a, self (of_str "aaaa")); (in_b, self (of_str "bbbb"))] CfgAbsent.

(** a fakelib directory next to an output tree with two [eboot.bin] files
    and a stale copy *)
Definition fakelib_src : path := ["proj"; "fakelib"].
Definition fakelib_world : world :=
  mk_world [(["proj"; "fakelib"; "libc.prx"], of_str "stub one");
            (["proj"; "fakelib"; "sub"; "libSce.sprx"], of_str "stub two");
            (["out"; "eboot.bin"], self (of_str "main"));
            (["out"; "game"; "EBOOT.BIN"], self (of_str "game"));
            (["out"; "fakelib"; "stale.prx"], of_str "old")] CfgAbsent.

(** the output directory is the directory that holds the fakelib source *)
Definition inplace_world : world :=
  mk_world [(["proj"; "fakelib"; "libc.prx"], of_str "stub one");
            (["proj"; "eboot.bin"], self (of_str "main"))] CfgAbsent.

(** the test doubles of [demo_env] with the fakelib step of the code *)
Definition full_env : Pipeline.Env := {|
  Pipeline.io := nofaults;
  Pipeline.convert_file := Pipeline.convert_file (Env := demo_env);
  Pipeline.set_versions_by_pair := Pipeline.set_versions_by_pair (Env := demo_env);
  Pipeline.patch_file := Pipeline.patch_file (Env := demo_env);
  Pipeline.sign_file := Pipeline.sign_file (Env := demo_env);
  Pipeline.copy_fakelib_step := Fakelib.copy_fakelib_step;
  Pipeline.mkdtemp := Pipeline.mkdtemp (Env := demo_env);
  Pipeline.cfg_write_fault := None;
  Pipeline.now := "2024-01-01 00:00:00"
|}.

End Samples.

(** * Facts *)

(** ** Byte strings *)

Module PyBytesFacts.

Import PyBytes.

Lemma byte_eqb_true (x y : byte) : Byte.eqb x y = true ↔ x = y.
Proof. split; [apply Byte.byte_dec_bl | apply Byte.byte_dec_lb]. Qed.

Lemma bytes_eqb_eq (a b : bytes) : bytes_eqb a b = true ↔ a = b.
Proof.
  revert b. induction a as [|x a IH]; intros [|y b]; simpl; try (split; congruence).
  rewrite andb_true_iff, byte_eqb_true, IH. split.
  - intros [-> ->]. reflexivity.
  - intros [= -> ->]. auto.
Qed.

Lemma startswith_prefix (p s : bytes) : startswith p s = true ↔ p `prefix_of` s.
Proof.
  revert s. induction p as [|x p IH]; intros s; simpl.
  - split; [intros _; apply prefix_nil | reflexivity].
  - destruct s as [|y s].
    + split; [discriminate | intros H; by apply prefix_nil_not in H].
    + rewrite andb_true_iff, byte_eqb_true, IH. split.
      * intros [-> H]. by apply prefix_cons.
      * intros H. split; [by eapply prefix_cons_inv_1 | by eapply prefix_cons_inv_2].
Qed.

Lemma startswith_false (p s : bytes) : startswith p s = false ↔ ¬ p `prefix_of` s.
Proof. rewrite <- startswith_prefix. destruct (startswith p s); naive_solver. Qed.

Lemma contains_spec (p s : bytes) :
  contains p s = true ↔ ∃ a b, s = a ++ p ++ b.
Proof.
  induction s as [|c s IH]; simpl.
  - rewrite orb_false_r, startswith_prefix. split.
    + intros [k ->]. exists [], k. reflexivity.
    + intros (a & b & H). symmetry in H.
      apply app_eq_nil in H as [-> H]. apply app_eq_nil in H as [-> _].
      apply prefix_nil.
  - rewrite orb_true_iff, startswith_prefix, IH. split.
    + intros [[k ->] | (a & b & ->)].
      * exists [], k. reflexivity.
      * exists (c :: a), b. reflexivity.
    + intros ([|x a] & b & H).
      * left. exists b. exact H.
      * right. injection H as -> ->. eauto.
Qed.

Lemma contains_cons_false (p : bytes) c s :
  contains p (c :: s) = false → contains p s = false.
Proof. simpl. intros H. apply orb_false_iff in H. tauto. Qed.

Lemma contains_startswith_false (p s : bytes) :
  contains p s = false → startswith p s = false.
Proof. destruct s; simpl; intros H; apply orb_false_iff in H; tauto. Qed.

Lemma contains_drop_false (p s : bytes) n :
  contains p s = false → contains p (drop n s) = false.
Proof.
  revert s. induction n as [|n IH]; intros s H; [by rewrite drop_0|].
  destruct s as [|c s]; [exact H|]. simpl. apply IH. by eapply contains_cons_false.
Qed.

Lemma contains_nil_l (s : bytes) : contains [] s = true.
Proof. destruct s; reflexivity. Qed.

(** the scan, once the bytes of a match are skipped *)
Lemma replace_go_skip old new k s :
  replace_go old new k s = replace_go old new 0 (drop k s).
Proof.
  revert s. induction k as [|k IH]; intros s; [by rewrite drop_0|].
  destruct s as [|c s]; [reflexivity|]. simpl. apply IH.
Qed.

Lemma replace_nil old new : old ≠ [] → replace old new [] = [].
Proof. destruct old; [done | reflexivity]. Qed.

Lemma replace_match old new s :
  old ≠ [] → startswith old s = true →
  replace old new s = new ++ replace old new (drop (length old) s).
Proof.
  intros Hne Hs. destruct old as [|o old]; [done|]. unfold replace.
  destruct s as [|c s]; [discriminate|].
  cbn [replace_go]. rewrite Hs, replace_go_skip. simpl.
  by rewrite Nat.sub_0_r.
Qed.

Lemma replace_nomatch old new c s :
  old ≠ [] → startswith old (c :: s) = false →
  replace old new (c :: s) = c :: replace old new s.
Proof.
  intros Hne Hs. destruct old as [|o old]; [done|]. unfold replace.
  cbn [replace_go]. by rewrite Hs.
Qed.

(** A prefix [w] of the result of a replacement either is a prefix of the
    scanned bytes, or runs into an inserted copy of [new]. *)
Lemma startswith_replace_split old new :
  old ≠ [] →
  ∀ s w, w `prefix_of` replace old new s →
    w `prefix_of` s ∨
    ∃ w1 w2, w = w1 ++ w2 ∧ w2 ≠ [] ∧ (w2 `prefix_of` new ∨ new `prefix_of` w2).
Proof.
  intros Hne s. induction s as [|c s IH]; intros w Hw.
  - rewrite replace_nil in Hw by done. by left.
  - destruct w as [|x w]; [left; apply prefix_nil|].
    destruct (startswith old (c :: s)) eqn:Hs.
    + rewrite replace_match in Hw by done.
      right. exists [], (x :: w). split; [done|]. split; [done|].
      eapply prefix_weak_total; [exact Hw | by apply prefix_app_r].
    + rewrite replace_nomatch in Hw by done.
      assert (x = c) as -> by (by eapply prefix_cons_inv_1).
      apply prefix_cons_inv_2 in Hw. destruct (IH w Hw) as [H | (w1 & w2 & -> & H2 & H3)].
      * left. by apply prefix_cons.
      * right. exists (c :: w1), w2. done.
Qed.

Lemma border_at_true n k :
  border_at n k = true ↔ take k n = drop (length n - k) n.
Proof. unfold border_at. apply bytes_eqb_eq. Qed.

Lemma has_border_false n :
  has_border n = false →
  ∀ k, 0 < k < length n → take k n ≠ drop (length n - k) n.
Proof.
  unfold has_border. intros H k Hk Heq.
  assert (existsb (border_at n) (seq 1 (length n - 1)) = true) as Ht; [|congruence].
  apply existsb_exists. exists k. split.
  - apply in_seq. lia.
  - by apply border_at_true.
Qed.

(** With a borderless, absent [new], undoing a replacement gives back the
    bytes one started from. *)
Theorem replace_inverse old new s :
  old ≠ [] → has_border new = false → contains new s = false →
  replace new old (replace old new s) = s.
Proof.
  intros Hold Hb. pose proof (has_border_false _ Hb) as Hnb.
  remember (length s) as n eqn:Hn. revert s Hn.
  induction n as [n IH] using lt_wf_ind. intros s -> Hc.
  assert (new ≠ []) as Hnew.
  { intros ->. by rewrite contains_nil_l in Hc. }
  destruct s as [|c s]; [by rewrite !replace_nil|].
  destruct (startswith old (c :: s)) eqn:Hs.
  - rewrite (replace_match old new (c :: s) Hold Hs).
    rewrite (replace_match new old);
      [| done | apply startswith_prefix; by apply prefix_app_r].
    rewrite drop_app_length.
    apply startswith_prefix in Hs as [k Hk].
    assert (0 < length old) by (destruct old; [done | simpl; lia]).
    rewrite (IH (length (drop (length old) (c :: s)))); first by rewrite Hk, drop_app_length.
    + rewrite length_drop. simpl. lia.
    + reflexivity.
    + by apply contains_drop_false.
  - rewrite replace_nomatch by done.
    assert (startswith new (c :: replace old new s) = false) as Hn'.
    { apply startswith_false. intros Hp.
      destruct new as [|x n']; [done|].
      assert (x = c) as -> by (by eapply prefix_cons_inv_1).
      apply prefix_cons_inv_2 in Hp.
      destruct (startswith_replace_split old (c :: n') Hold s n' Hp)
        as [H | (w1 & w2 & Hw & Hw2 & [H | H])].
      - apply contains_startswith_false in Hc.
        apply startswith_false in Hc. apply Hc. by apply prefix_cons.
      - apply (Hnb (length w2)).
        + subst n'. simpl. rewrite length_app.
          destruct w2; [done | simpl; lia].
        + destruct H as [k Hk]. rewrite Hk at 1. rewrite take_app_length.
          subst n'. rewrite app_comm_cons.
          replace (length ((c :: w1) ++ w2) - length w2) with (length (c :: w1))
            by (rewrite length_app; lia).
          by rewrite drop_app_length.
      - apply prefix_length in H. subst n'. simpl in H. rewrite length_app in H. lia. }
    rewrite replace_nomatch by done.
    f_equal. apply (IH (length s)); [simpl; lia | reflexivity |].
    by eapply contains_cons_false.
Qed.

End PyBytesFacts.

(** ** Lists *)

Module ListFacts.

Lemma elem_of_list_filter {A} (f : A → bool) (l : list A) x :
  x ∈ List.filter f l ↔ f x = true ∧ x ∈ l.
Proof. rewrite !list_elem_of_In, filter_In. tauto. Qed.

Lemma NoDup_list_filter {A} (f : A → bool) (l : list A) :
  NoDup l → NoDup (List.filter f l).
Proof.
  induction 1 as [|x l Hx Hl IH]; simpl; [constructor|].
  destruct (f x); [|done]. constructor; [|done].
  rewrite elem_of_list_filter. tauto.
Qed.

End ListFacts.

(** ** Names and paths *)

Module PyPathFacts.

Import PyPath.

Lemma length_append a b :
  String.length (a +:+ b) = String.length a + String.length b.
Proof. induction a as [|c a IH]; simpl; [done | by rewrite IH]. Qed.

Lemma substring_0_all s : String.substring 0 (String.length s) s = s.
Proof. induction s as [|c s IH]; simpl; [done | by rewrite IH]. Qed.

Lemma substring_append_l a b :
  String.substring 0 (String.length a) (a +:+ b) = a.
Proof.
  induction a as [|c a IH]; simpl; [by destruct b | by rewrite IH].
Qed.

Lemma substring_append_r a b :
  String.substring (String.length a) (String.length b) (a +:+ b) = b.
Proof. induction a as [|c a IH]; simpl; [apply substring_0_all | done]. Qed.

Lemma length_substring i k s :
  i + k ≤ String.length s → String.length (String.substring i k s) = k.
Proof.
  revert i k. induction s as [|c s IH]; intros i k H; simpl in H.
  - assert (i = 0) as -> by lia. assert (k = 0) as -> by lia. done.
  - destruct i as [|i]; simpl.
    + destruct k as [|k]; simpl; [done|]. rewrite IH; [done | lia].
    + apply IH. lia.
Qed.

Lemma rfind_append c a b :
  rfind c (a +:+ b)
  = match rfind c b with
    | Some i => Some (String.length a + i)
    | None => rfind c a
    end.
Proof.
  induction a as [|x a IH].
  - change ("" +:+ b) with b. destruct (rfind c b); reflexivity.
  - change (String x a +:+ b) with (String x (a +:+ b)).
    cbn [rfind String.length]. rewrite IH. destruct (rfind c b); reflexivity.
Qed.

Lemma length_zero s : String.length s = 0 → s = "".
Proof. by destruct s. Qed.


Lemma bak_well_formed : well_formed_suffix ".bak".
Proof. split; [done | simpl; lia]. Qed.

Lemma revert_bak_well_formed : well_formed_suffix ".revert_bak".
Proof. split; [done | simpl; lia]. Qed.

Lemma suffix_append stem sfx :
  stem ≠ "" → well_formed_suffix sfx → suffix (stem +:+ sfx) = sfx.
Proof.
  intros Hs [Hr Hl]. unfold suffix. rewrite rfind_append, Hr, Nat.add_0_r.
  assert (0 < String.length stem).
  { destruct stem; [done | simpl; lia]. }
  rewrite length_append.
  rewrite (proj2 (Nat.ltb_lt 0 _)) by done.
  rewrite (proj2 (Nat.ltb_lt _ _)) by lia. simpl.
  replace (String.length stem + String.length sfx - String.length stem)
    with (String.length sfx) by lia.
  apply substring_append_r.
Qed.

Lemma suffix_length n :
  suffix n ≠ "" →
  0 < String.length n - String.length (suffix n).
Proof.
  unfold suffix. destruct (rfind "." n) as [i|]; [|done].
  destruct ((0 <? i) && (i <? String.length n - 1)) eqn:Hc; [|done].
  apply andb_true_iff in Hc as [H1 H2].
  apply Nat.ltb_lt in H1. apply Nat.ltb_lt in H2.
  intros _. rewrite length_substring by lia. lia.
Qed.

Lemma name_snoc l n : name (l ++ [n]) = n.
Proof. unfold name. by rewrite last_snoc. Qed.

(** The result of [with_suffix] is the parent with a name made of a
    non-empty stem and the suffix. *)
Lemma with_suffix_inv q sfx p :
  with_suffix q sfx = Some p →
  ∃ stem, stem ≠ "" ∧ p = removelast q ++ [stem +:+ sfx].
Proof.
  unfold with_suffix. destruct (String.eqb (name q) "") eqn:Hn; [done|].
  apply String.eqb_neq in Hn.
  destruct (String.eqb (suffix (name q)) "") eqn:Hs; intros [= <-].
  - by exists (name q).
  - apply String.eqb_neq in Hs. eexists. split; [|done].
    intros He. apply (f_equal String.length) in He.
    pose proof (suffix_length _ Hs) as Hl.
    rewrite length_substring in He; simpl in He; lia.
Qed.

(** [with_suffix] with the suffix a path already has gives the path itself:
    the backup path of a backup is that backup. *)
Lemma with_suffix_fixed q sfx p :
  well_formed_suffix sfx → with_suffix q sfx = Some p → with_suffix p sfx = Some p.
Proof.
  intros Hw Hq. destruct (with_suffix_inv q sfx p Hq) as (stem & Hs & ->).
  unfold with_suffix. rewrite name_snoc, List.removelast_last.
  assert (stem +:+ sfx ≠ "") as Hne.
  { destruct stem; [done | discriminate]. }
  rewrite (proj2 (String.eqb_neq _ _) Hne), suffix_append by done.
  assert (sfx ≠ "") as Hsfx.
  { destruct Hw as [_ Hl]. destruct sfx; [simpl in Hl; lia | done]. }
  rewrite (proj2 (String.eqb_neq _ _) Hsfx), length_append.
  replace (String.length stem + String.length sfx - String.length sfx)
    with (String.length stem) by lia.
  by rewrite substring_append_l.
Qed.

Lemma endswith_append stem sfx : endswith (stem +:+ sfx) sfx = true.
Proof.
  unfold endswith. rewrite length_append.
  rewrite (proj2 (Nat.leb_le _ _)) by lia.
  replace (String.length stem + String.length sfx - String.length sfx)
    with (String.length stem) by lia.
  rewrite substring_append_r. simpl. apply String.eqb_refl.
Qed.

(** the name of a backup path ends in the backup suffix *)
Lemma with_suffix_endswith q sfx p :
  with_suffix q sfx = Some p → endswith (name p) sfx = true.
Proof.
  intros Hq. destruct (with_suffix_inv q sfx p Hq) as (stem & _ & ->).
  rewrite name_snoc. apply endswith_append.
Qed.

End PyPathFacts.

(** ** The patch engine: the loop body and the loop *)

Module PatchFacts.

Import PyBytes PyPath Json Exn FS Patch.
Import PyBytesFacts ListFacts PyPathFacts.


Section Counting.

Variable D : direction.
Variable io : path → io_faults.
Variables search_pattern replacement_pattern : bytes.
Variable create_backup : bool.

Lemma mark_cleaned_total p r : total (mark_cleaned p r) = total r.
Proof.
  unfold mark_cleaned. destruct (files r !! p) as [fr|]; [|done].
  by destruct (backup fr).
Qed.

Lemma mark_cleaned_dom p r : dom (files (mark_cleaned p r)) = dom (files r).
Proof.
  unfold mark_cleaned. destruct (files r !! p) as [fr|] eqn:Hp; [|done].
  destruct (backup fr); [|done]. simpl. rewrite dom_insert_L.
  apply elem_of_dom_2 in Hp. set_solver.
Qed.

Lemma clean_backup_total b p s : total (clean_backup b p s).2 = total s.2.
Proof.
  unfold clean_backup. destruct b as [b|]; [|done].
  destruct (file_exists b s.1); [|done]. apply mark_cleaned_total.
Qed.

Lemma clean_backup_dom b p s :
  dom (files (clean_backup b p s).2) = dom (files s.2).
Proof.
  unfold clean_backup. destruct b as [b|]; [|done].
  destruct (file_exists b s.1); [|done]. apply mark_cleaned_dom.
Qed.

Lemma try_patch_counts p content b w r w' r' :
  try_patch D io search_pattern replacement_pattern p content b w r = (w', Ret r') →
  total r' = S (total r) ∧ dom (files r') = {[p]} ∪ dom (files r).
Proof.
  unfold try_patch.
  destruct (write_file _ _ _ _) as [w1 [[]|e]]; [|done].
  destruct (read_file _ _ _) as [new_content|e]; [|done].
  destruct (negb _ && _).
  - match goal with |- context [clean_backup ?b ?p ?s] =>
      pose proof (clean_backup_total b p s) as Ht;
      pose proof (clean_backup_dom b p s) as Hd;
      destruct (clean_backup b p s) as [w2 r2] end.
    intros [= <- <-]. simpl in *. rewrite Ht, Hd, dom_insert_L.
    split; [unfold total; simpl; lia | done].
  - destruct (restore_backup _ _ _) as [w2 [[]|e]]; [|done].
    match goal with |- context [clean_backup ?b ?p ?s] =>
      pose proof (clean_backup_total b p s) as Ht;
      pose proof (clean_backup_dom b p s) as Hd;
      destruct (clean_backup b p s) as [w3 r3] end.
    intros [= <- <-]. simpl in *. rewrite Ht, Hd, dom_insert_L.
    split; [unfold total; simpl; lia | done].
Qed.

(** Every pass through the loop body bumps exactly one counter and writes
    the entry of its file. *)
Lemma patch_one_counts s p :
  let s' := patch_one D io search_pattern replacement_pattern create_backup s p in
  total s'.2 = S (total s.2) ∧ dom (files s'.2) = {[p]} ∪ dom (files s.2).
Proof.
  destruct s as [w r]. unfold patch_one. cbv zeta.
  destruct (read_file _ _ _) as [content|e]; simpl.
  2: { rewrite dom_insert_L. split; [unfold total; simpl; lia | done]. }
  destruct (contains search_pattern content); simpl.
  2: { rewrite dom_insert_L. split; [unfold total; simpl; lia | done]. }
  destruct (contains replacement_pattern content); simpl.
  { rewrite dom_insert_L. split; [unfold total; simpl; lia | done]. }
  destruct (make_backup _ _ _ _) as [w0 [b|e]]; simpl.
  2: { rewrite dom_insert_L. split; [unfold total; simpl; lia | done]. }
  destruct (try_patch _ _ _ _ _ _ _ _ _) as [w1 [r1|e]] eqn:Ht; simpl.
  { by apply try_patch_counts in Ht. }
  destruct (restore_backup _ _ _) as [w2 [[]|e']]; simpl;
    rewrite dom_insert_L; (split; [unfold total; simpl; lia | done]).
Qed.

Lemma patch_files_counts l s :
  let s' := patch_files D io search_pattern replacement_pattern create_backup l s in
  total s'.2 = total s.2 + length l ∧
  dom (files s'.2) = list_to_set l ∪ dom (files s.2).
Proof.
  revert s. induction l as [|p l IH]; intros s; simpl.
  - split; [lia | set_solver].
  - destruct (IH (patch_one D io search_pattern replacement_pattern create_backup s p))
      as [Ht Hd].
    destruct (patch_one_counts s p) as [Ht1 Hd1].
    unfold patch_files in *. simpl in *. rewrite Ht, Hd, Ht1, Hd1.
    split; [lia | set_solver].
Qed.

Lemma patch_libc_counts dir w :
  let r := (patch_libc D io search_pattern replacement_pattern create_backup dir w).2 in
  total r = length (patch_targets io dir w) ∧
  dom (files r) = list_to_set (patch_targets io dir w).
Proof.
  unfold patch_libc. cbv zeta.
  destruct (patch_targets io dir w) as [|p l] eqn:Hl; [done|].
  destruct (patch_files_counts (p :: l)
              (w, PatchReport (d_operation D) dir 0 0 0 0 ∅)) as [Ht Hd].
  rewrite Ht, Hd. simpl. split; [done | set_solver].
Qed.

End Counting.


Lemma file_exists_true p w : file_exists p w = true ↔ is_Some (wfiles w !! p).
Proof. unfold file_exists. apply bool_decide_eq_true. Qed.

Lemma copy2_ok src dst w c :
  src ≠ dst → wfiles w !! src = Some c →
  copy2 src dst w = (set_files (insert dst c) w, Ret tt).
Proof.
  intros Hne Hc. unfold copy2. rewrite bool_decide_eq_false_2 by done. by rewrite Hc.
Qed.


Section Step.

Variable D : direction.
Variable io : path → io_faults.
Variables search_pattern replacement_pattern : bytes.

Lemma patch_one_failure_restores p w r content b :
  wfiles w !! p = Some content →
  read_fault (io p) = None →
  contains search_pattern content = true →
  contains replacement_pattern content = false →
  with_suffix p (d_backup_suffix D) = Some b → b ≠ p →
  ¬ patch_goes_through (io p) search_pattern replacement_pattern content →
  ∃ w', patch_one D io search_pattern replacement_pattern true (w, r) p
          = (w', set_entry p (failure_entry D (io p)) (count_failed r)) ∧
        wfiles w' !! p = Some content.
Proof.
  intros Hp Hrd Hs Hr Hb Hne Hfail. unfold patch_one.
  unfold read_file at 1. rewrite Hrd, Hp, Hs, Hr.
  unfold make_backup. rewrite Hb, (copy2_ok p b w content) by done.
  unfold try_patch, failure_entry, write_file.
  assert (∀ w1, wfiles w1 !! b = Some content →
            restore_backup (Some b) p w1
            = (set_files (insert p content) w1, Ret tt)) as Hrest.
  { intros w1 Hb1. unfold restore_backup.
    rewrite (proj2 (file_exists_true b w1)) by (by rewrite Hb1).
    by rewrite (copy2_ok b p w1 content). }
  destruct (write_fault (io p)) as [wf|] eqn:Hw.
  - (* the write raises *)
    destruct (left_on_disk wf) as [g|]; rewrite Hrest.
    + eexists. split; [reflexivity|]. simpl. by rewrite lookup_insert_eq.
    + simpl. by rewrite lookup_insert_ne, lookup_insert_eq.
    + eexists. split; [reflexivity|]. simpl. by rewrite lookup_insert_eq.
    + simpl. by rewrite lookup_insert_eq.
  - set (w1 := set_files (insert p _) (set_files (insert b content) w)).
    assert (wfiles w1 !! b = Some content) as Hb1.
    { unfold w1. simpl. by rewrite lookup_insert_ne, lookup_insert_eq. }
    assert (wfiles w1 !! p
            = Some (replace search_pattern replacement_pattern content)) as Hp1.
    { unfold w1. simpl. by rewrite lookup_insert_eq. }
    clearbody w1.
    unfold read_file. destruct (reread_fault (io p)) as [m|] eqn:Hrr.
    + (* the read-back raises *)
      rewrite (Hrest w1 Hb1). eexists. split; [reflexivity|].
      simpl. by rewrite lookup_insert_eq.
    + (* the verification fails *)
      rewrite Hp1.
      destruct (negb _ && _) eqn:Hv.
      { exfalso. apply Hfail. apply andb_true_iff in Hv as [Hv1 Hv2].
        apply negb_true_iff in Hv1. done. }
      rewrite (Hrest w1 Hb1). unfold clean_backup. cbn [fst snd].
      assert (file_exists b (set_files (insert p content) w1) = true) as ->.
      { apply file_exists_true. simpl. rewrite lookup_insert_ne by done.
        by rewrite Hb1. }
      unfold mark_cleaned. cbn [files set_entry]. rewrite lookup_insert_eq. cbn [backup].
      eexists. split; [reflexivity|].
      simpl. rewrite lookup_delete_ne by done. by rewrite lookup_insert_eq.
Qed.

End Step.



Lemma apply_distinct : distinct_statuses apply_direction.
Proof. repeat split; discriminate. Qed.
Lemma revert_distinct : distinct_statuses revert_direction.
Proof. repeat split; discriminate. Qed.

Section Step.

Variable D : direction.
Variable io : path → io_faults.
Variables search_pattern replacement_pattern : bytes.
Variable create_backup : bool.

Abbreviation step := (patch_one D io search_pattern replacement_pattern create_backup).

(** A file that holds both patterns is reported and not touched. *)
Lemma patch_one_both p w r content :
  wfiles w !! p = Some content → read_fault (io p) = None →
  contains search_pattern content = true →
  contains replacement_pattern content = true →
  step (w, r) p
  = (w, set_entry p (FileResult (d_already D) None false (d_msg_already D))
                  (count_already r)).
Proof.
  intros Hp Hrd Hs Hr. unfold patch_one, read_file. by rewrite Hrd, Hp, Hs, Hr.
Qed.

(** A file without the search pattern is reported and not touched. *)
Lemma patch_one_absent p w r content :
  wfiles w !! p = Some content → read_fault (io p) = None →
  contains search_pattern content = false →
  step (w, r) p
  = (w, set_entry p (FileResult (d_not_found D) None false (d_msg_not_found D))
                  (count_not_found r)).
Proof.
  intros Hp Hrd Hs. unfold patch_one, read_file. by rewrite Hrd, Hp, Hs.
Qed.

Lemma make_backup_inv p w w0 bp :
  make_backup D create_backup p w = (w0, Ret bp) →
  match bp with
  | Some b => b ≠ p ∧ ∃ c, wfiles w !! p = Some c ∧ w0 = set_files (insert b c) w
  | None => w0 = w
  end.
Proof.
  unfold make_backup. destruct create_backup; [|by intros [= <- <-]].
  destruct (with_suffix _ _) as [b|]; [|done]. unfold copy2.
  case_bool_decide as Hpb; [done|].
  destruct (wfiles w !! p) as [c|] eqn:Hc; [|done].
  intros [= <- <-]. split; [congruence|]. eauto.
Qed.

(** If the entry of the file says it was changed, the patch went through:
    the file held the search pattern only, and it now holds the result of the
    replacement, which passed the verification. *)
Lemma patch_one_changed_inv p w r :
  distinct_statuses D →
  status <$> files (step (w, r) p).2 !! p = Some (d_changed D) →
  ∃ content,
    wfiles w !! p = Some content ∧
    contains search_pattern content = true ∧
    contains replacement_pattern content = false ∧
    contains search_pattern (replace search_pattern replacement_pattern content) = false ∧
    contains replacement_pattern (replace search_pattern replacement_pattern content) = true ∧
    wfiles (step (w, r) p).1 !! p
      = Some (replace search_pattern replacement_pattern content).
Proof.
  intros (Hd1 & Hd2 & Hd3 & Hd4). unfold patch_one, on_read_error.
  unfold read_file at 1 2.
  destruct (read_fault (io p)); cbn [snd files set_entry].
  { rewrite lookup_insert_eq. simpl. congruence. }
  destruct (wfiles w !! p) as [content|] eqn:Hp; cbn [snd files set_entry].
  2: { rewrite lookup_insert_eq. simpl. congruence. }
  destruct (contains search_pattern content) eqn:Hs; cbn [snd files set_entry].
  2: { rewrite lookup_insert_eq. simpl. congruence. }
  destruct (contains replacement_pattern content) eqn:Hr; cbn [snd files set_entry].
  { rewrite lookup_insert_eq. simpl. congruence. }
  destruct (make_backup _ _ _ _) as [w0 [bp|e]] eqn:Hb; cbn [snd files set_entry].
  2: { rewrite lookup_insert_eq. simpl. congruence. }
  apply make_backup_inv in Hb.
  unfold try_patch, write_file.
  destruct (write_fault (io p)) as [wf|].
  { destruct (restore_backup _ _ _) as [w2 [[]|e']]; cbn [snd files set_entry];
      rewrite lookup_insert_eq; simpl; congruence. }
  unfold read_file. destruct (reread_fault (io p)).
  { destruct (restore_backup _ _ _) as [w2 [[]|e']]; cbn [snd files set_entry];
      rewrite lookup_insert_eq; simpl; congruence. }
  cbn [wfiles set_files]. rewrite lookup_insert_eq.
  destruct (negb _ && _) eqn:Hv.
  2: { destruct (restore_backup _ _ _) as [w2 [[]|e']].
       - unfold clean_backup. cbn [fst snd].
         destruct bp as [b|]; [destruct (file_exists b w2)|]; cbn [snd];
           unfold mark_cleaned; cbn [files set_entry]; rewrite ?lookup_insert_eq;
           cbn [backup files set_entry]; rewrite ?lookup_insert_eq; simpl; congruence.
       - destruct (restore_backup _ _ _) as [w3 [[]|e'']]; cbn [snd files set_entry];
           rewrite lookup_insert_eq; simpl; congruence. }
  apply andb_true_iff in Hv as [Hv1 Hv2]. apply negb_true_iff in Hv1.
  intros _. exists content. repeat (split; [done|]).
  unfold clean_backup. cbn [fst snd].
  destruct bp as [b|].
  - destruct Hb as (Hne & c & Hc & ->).
    destruct (file_exists b _); cbn [fst wfiles set_files remove].
    + rewrite lookup_delete_ne by done. by rewrite lookup_insert_eq.
    + by rewrite lookup_insert_eq.
  - subst w0. cbn [fst wfiles set_files]. by rewrite lookup_insert_eq.
Qed.

(** The patch goes through whenever the backup can be made (or is not asked
    for) and nothing fails. *)
Lemma patch_one_success p w r content :
  wfiles w !! p = Some content → read_fault (io p) = None →
  contains search_pattern content = true →
  contains replacement_pattern content = false →
  (create_backup = true →
   ∃ b, with_suffix p (d_backup_suffix D) = Some b ∧ b ≠ p) →
  patch_goes_through (io p) search_pattern replacement_pattern content →
  ∃ w' r', step (w, r) p = (w', r') ∧
    wfiles w' !! p = Some (replace search_pattern replacement_pattern content) ∧
    status <$> files r' !! p = Some (d_changed D) ∧
    changed r' = S (changed r) ∧ failed r' = failed r.
Proof.
  intros Hp Hrd Hs Hr Hb (Hw & Hrr & Hv1 & Hv2). unfold patch_one.
  unfold read_file at 1. rewrite Hrd, Hp, Hs, Hr.
  unfold make_backup, try_patch, write_file, read_file.
  destruct create_backup.
  - destruct (Hb eq_refl) as (b & Hbs & Hne).
    rewrite Hbs, (copy2_ok p b w content) by done.
    rewrite Hw, Hrr. cbn [wfiles set_files]. rewrite lookup_insert_eq, Hv1, Hv2.
    cbn [negb andb]. unfold clean_backup. cbn [fst snd].
    match goal with |- context [file_exists b ?w1] =>
      assert (file_exists b w1 = true) as ->
    end.
    { apply file_exists_true. simpl. rewrite lookup_insert_ne by done.
      by rewrite lookup_insert_eq. }
    unfold mark_cleaned. cbn [files set_entry]. rewrite lookup_insert_eq. cbn [backup].
    do 2 eexists. split; [reflexivity|]. simpl.
    rewrite lookup_delete_ne by done. by rewrite !lookup_insert_eq.
  - rewrite Hw, Hrr. cbn [wfiles set_files]. rewrite lookup_insert_eq, Hv1, Hv2.
    cbn [negb andb clean_backup].
    do 2 eexists. split; [reflexivity|]. simpl. by rewrite !lookup_insert_eq.
Qed.

(** Running the loop body again on a file it has just changed reports the
    search pattern as not found and touches nothing. *)
Lemma patch_one_twice p w r r0 :
  distinct_statuses D →
  status <$> files (step (w, r) p).2 !! p = Some (d_changed D) →
  read_fault (io p) = None →
  step ((step (w, r) p).1, r0) p
  = ((step (w, r) p).1,
     set_entry p (FileResult (d_not_found D) None false (d_msg_not_found D))
               (count_not_found r0)).
Proof.
  intros HD Hst Hrd.
  destruct (patch_one_changed_inv p w r HD Hst) as (content & _ & _ & _ & Hv1 & _ & Hp').
  by eapply patch_one_absent.
Qed.

End Step.


(** Apply, then revert, on one file: when the replacement pattern has no
    border, the revert step gives back the bytes the apply step started
    from, provided its backup can be made and nothing fails. *)
Lemma apply_then_revert_general io1 io2 sp rp cb1 cb2 p w r r0 content :
  has_border rp = false →
  wfiles w !! p = Some content →
  let s1 := patch_one apply_direction io1 sp rp cb1 (w, r) p in
  status <$> files s1.2 !! p = Some "applied" →
  io2 p = no_faults →
  (cb2 = true → ∃ b, with_suffix p ".revert_bak" = Some b ∧ b ≠ p) →
  let s2 := patch_one revert_direction io2 rp sp cb2 (s1.1, r0) p in
  wfiles s2.1 !! p = Some content ∧
  status <$> files s2.2 !! p = Some "reverted".
Proof.
  intros Hb Hp s1 Hst Hio Hbk s2.
  destruct (patch_one_changed_inv apply_direction io1 sp rp cb1 p w r apply_distinct Hst)
    as (c & Hc & Hs & Hr & Hv1 & Hv2 & Hp1).
  rewrite Hp in Hc. injection Hc as <-.
  assert (sp ≠ []) as Hne.
  { intros ->. by rewrite contains_nil_l in Hv1. }
  pose proof (replace_inverse sp rp content Hne Hb Hr) as Hinv.
  destruct (patch_one_success revert_direction io2 rp sp cb2 p s1.1 r0
              (replace sp rp content)) as (w' & r' & Heq & Hw' & Hst' & _); try done.
  - by rewrite Hio.
  - rewrite Hio. unfold patch_goes_through. by rewrite Hinv.
  - subst s2. rewrite Heq. simpl. by rewrite Hw', Hinv.
Qed.


Lemma write_file_frame fault q data w p :
  p ≠ q → wfiles (write_file fault q data w).1 !! p = wfiles w !! p.
Proof.
  intros Hne. unfold write_file. destruct fault as [[[g|] m]|]; simpl;
    by rewrite ?lookup_insert_ne.
Qed.

Lemma copy2_frame src dst w p :
  p ≠ dst → wfiles (copy2 src dst w).1 !! p = wfiles w !! p.
Proof.
  intros Hne. unfold copy2. case_bool_decide; [done|].
  destruct (wfiles w !! src); simpl; by rewrite ?lookup_insert_ne.
Qed.

Lemma remove_frame b w p : p ≠ b → wfiles (remove b w) !! p = wfiles w !! p.
Proof. intros Hne. simpl. by rewrite lookup_delete_ne. Qed.

Lemma restore_backup_frame bp q w p :
  p ≠ q → wfiles (restore_backup bp q w).1 !! p = wfiles w !! p.
Proof.
  intros Hne. unfold restore_backup. destruct bp as [b|]; [|done].
  destruct (file_exists b w); [|done]. by apply copy2_frame.
Qed.

Lemma set_entry_frame q fr r p : p ≠ q → files (set_entry q fr r) !! p = files r !! p.
Proof. intros Hne. simpl. by rewrite lookup_insert_ne. Qed.

Lemma mark_cleaned_frame q r p : p ≠ q → files (mark_cleaned q r) !! p = files r !! p.
Proof.
  intros Hne. unfold mark_cleaned. destruct (files r !! q) as [fr|]; [|done].
  destruct (backup fr); [|done]. by apply set_entry_frame.
Qed.

Lemma mark_cleaned_failed q r : failed (mark_cleaned q r) = failed r.
Proof.
  unfold mark_cleaned. destruct (files r !! q) as [fr|]; [|done].
  by destruct (backup fr).
Qed.

Lemma clean_backup_frame bp q s p :
  p ≠ q → (∀ b, bp = Some b → b ≠ p) →
  wfiles (clean_backup bp q s).1 !! p = wfiles s.1 !! p ∧
  files (clean_backup bp q s).2 !! p = files s.2 !! p ∧
  failed (clean_backup bp q s).2 = failed s.2.
Proof.
  intros Hne Hb. unfold clean_backup. destruct bp as [b|]; [|done].
  destruct (file_exists b s.1); [|done]. cbn [fst snd].
  rewrite remove_frame by (pose proof (Hb b eq_refl) as H; congruence).
  by rewrite mark_cleaned_frame, mark_cleaned_failed.
Qed.

Lemma clean_backup_failed bp q s : failed (clean_backup bp q s).2 = failed s.2.
Proof.
  unfold clean_backup. destruct bp as [b|]; [|done].
  destruct (file_exists b s.1); [apply mark_cleaned_failed | done].
Qed.

Section Frame.

Variable D : direction.
Variable io : path → io_faults.
Variables search_pattern replacement_pattern : bytes.
Variable create_backup : bool.

Abbreviation step := (patch_one D io search_pattern replacement_pattern create_backup).

Lemma make_backup_frame q w p :
  (create_backup = true → with_suffix q (d_backup_suffix D) ≠ Some p) →
  wfiles (make_backup D create_backup q w).1 !! p = wfiles w !! p ∧
  ∀ b, (make_backup D create_backup q w).2 = Ret (Some b) → b ≠ p.
Proof.
  intros Hb. unfold make_backup. destruct create_backup; [|done].
  destruct (with_suffix q (d_backup_suffix D)) as [b|] eqn:Hs; [|done].
  assert (b ≠ p) as Hne by (intros ->; by apply Hb).
  pose proof (copy2_frame q b w p) as Hc.
  destruct (copy2 q b w) as [w' [[]|e]]; simpl in *.
  - split; [apply Hc; congruence|]. by intros ? [= <-].
  - split; [apply Hc; congruence | done].
Qed.

Lemma try_patch_frame q content bp w r p :
  p ≠ q → (∀ b, bp = Some b → b ≠ p) →
  let res := try_patch D io search_pattern replacement_pattern q content bp w r in
  wfiles res.1 !! p = wfiles w !! p ∧
  ∀ r', res.2 = Ret r' → files r' !! p = files r !! p ∧ failed r ≤ failed r'.
Proof.
  intros Hne Hb. unfold try_patch.
  pose proof (write_file_frame (write_fault (io q)) q
                (replace search_pattern replacement_pattern content) w p Hne) as Hw.
  destruct (write_file _ _ _ _) as [w1 [[]|e]]; cbn [fst snd] in *; [|done].
  destruct (read_file _ _ _) as [new_content|e]; cbn [fst snd]; [|done].
  destruct (negb _ && _).
  - match goal with |- context [clean_backup ?b ?q ?s] =>
      destruct (clean_backup_frame b q s p Hne Hb) as (H1 & H2 & H3);
      destruct (clean_backup b q s) as [w2 r2] end.
    cbn [fst snd] in *. split; [congruence|]. intros r' [= <-].
    rewrite H2, H3. rewrite set_entry_frame by done. simpl. split; [done | lia].
  - pose proof (restore_backup_frame bp q w1 p Hne) as Hr.
    destruct (restore_backup bp q w1) as [w2 [[]|e]]; cbn [fst snd] in *;
      [|split; [congruence | done]].
    match goal with |- context [clean_backup ?b ?q ?s] =>
      destruct (clean_backup_frame b q s p Hne Hb) as (H1 & H2 & H3);
      destruct (clean_backup b q s) as [w3 r3] end.
    cbn [fst snd] in *. split; [congruence|]. intros r' [= <-].
    rewrite H2, H3. rewrite set_entry_frame by done. simpl. split; [done | lia].
Qed.

(** The loop body on [q] leaves every other file alone, but for the backup
    path of [q], and every other entry of the report; the failed counter
    never goes down. *)
Lemma patch_one_frame s q p :
  p ≠ q →
  (create_backup = true → with_suffix q (d_backup_suffix D) ≠ Some p) →
  wfiles (step s q).1 !! p = wfiles s.1 !! p ∧
  files (step s q).2 !! p = files s.2 !! p.
Proof.
  intros Hne Hb. destruct s as [w r]. unfold patch_one, on_read_error.
  destruct (read_file _ _ _) as [content|e]; cbn [fst snd];
    [|by rewrite set_entry_frame].
  destruct (contains search_pattern content); cbn [fst snd];
    [|by rewrite set_entry_frame].
  destruct (contains replacement_pattern content); cbn [fst snd];
    [by rewrite set_entry_frame|].
  destruct (make_backup_frame q w p Hb) as [Hm1 Hm2].
  destruct (make_backup D create_backup q w) as [w0 [bp|e]]; cbn [fst snd] in *;
    [|by rewrite set_entry_frame].
  assert (∀ b, bp = Some b → b ≠ p) as Hbp by (intros b ->; by apply Hm2).
  destruct (try_patch_frame q content bp w0 r p Hne Hbp) as [Ht1 Ht2].
  destruct (try_patch _ _ _ _ _ _ _ _ _) as [w1 [r1|e]]; cbn [fst snd] in *.
  - destruct (Ht2 r1 eq_refl) as [H _]. split; [by etrans | done].
  - pose proof (restore_backup_frame bp q w1 p Hne) as Hr.
    destruct (restore_backup bp q w1) as [w2 [[]|e']]; cbn [fst snd] in *;
      rewrite set_entry_frame by done; (split; [|done]);
      (etrans; [exact Hr|]); by etrans.
Qed.

Lemma patch_one_failed_mono s q : failed s.2 ≤ failed (step s q).2.
Proof.
  destruct s as [w r]. unfold patch_one, on_read_error.
  destruct (read_file _ _ _) as [content|e]; cbn [fst snd]; [|simpl; lia].
  destruct (contains search_pattern content); cbn [fst snd]; [|simpl; lia].
  destruct (contains replacement_pattern content); cbn [fst snd]; [simpl; lia|].
  destruct (make_backup D create_backup q w) as [w0 [bp|e]]; cbn [fst snd];
    [|simpl; lia].
  unfold try_patch.
  destruct (write_file _ _ _ _) as [w1 [[]|e]]; cbn [fst snd].
  2: { destruct (restore_backup _ _ _) as [w2 [[]|e']]; simpl; lia. }
  destruct (read_file _ _ _) as [new_content|e]; cbn [fst snd].
  2: { destruct (restore_backup _ _ _) as [w2 [[]|e']]; simpl; lia. }
  destruct (negb _ && _).
  - match goal with |- context [clean_backup ?b ?q ?s] =>
      pose proof (clean_backup_failed b q s) as Hf;
      destruct (clean_backup b q s) as [w2 r2] end.
    simpl in *. lia.
  - destruct (restore_backup bp q w1) as [w2 [[]|e]]; cbn [fst snd].
    + match goal with |- context [clean_backup ?b ?q ?s] =>
        pose proof (clean_backup_failed b q s) as Hf;
        destruct (clean_backup b q s) as [w3 r3] end.
      simpl in *. lia.
    + destruct (restore_backup _ _ _) as [w3 [[]|e']]; simpl; lia.
Qed.

Lemma patch_files_failed_mono l s :
  failed s.2 ≤ failed (patch_files D io search_pattern replacement_pattern
                         create_backup l s).2.
Proof.
  revert s. induction l as [|q l IH]; intros s; [done|].
  unfold patch_files in *. cbn [foldl]. etrans; [|apply IH].
  apply patch_one_failed_mono.
Qed.

Lemma patch_files_frame l s p :
  p ∉ l →
  (create_backup = true →
   ∀ q, q ∈ l → with_suffix q (d_backup_suffix D) ≠ Some p) →
  let s' := patch_files D io search_pattern replacement_pattern create_backup l s in
  wfiles s'.1 !! p = wfiles s.1 !! p ∧ files s'.2 !! p = files s.2 !! p.
Proof.
  revert s. induction l as [|q l IH]; intros s Hp Hb; [done|].
  unfold patch_files in *. cbn [foldl]. cbv zeta in *.
  destruct (IH (step s q)) as [H1 H2]; [set_solver | |].
  { intros Hcb q' Hq'. apply Hb; [done | set_solver]. }
  destruct (patch_one_frame s q p) as [H3 H4]; [set_solver | |].
  { intros Hcb. apply Hb; [done | set_solver]. }
  split; congruence.
Qed.

(** What the loop does to one of its files is what the loop body does to it
    in the state the loop has reached, as long as no other file of the loop
    has it as its backup path. *)
Lemma patch_files_at l s p :
  NoDup l → p ∈ l →
  (create_backup = true →
   ∀ q, q ∈ l → q ≠ p → with_suffix q (d_backup_suffix D) ≠ Some p) →
  ∃ s0, wfiles s0.1 !! p = wfiles s.1 !! p ∧
    let s' := patch_files D io search_pattern replacement_pattern create_backup l s in
    wfiles s'.1 !! p = wfiles (step s0 p).1 !! p ∧
    files s'.2 !! p = files (step s0 p).2 !! p ∧
    failed (step s0 p).2 ≤ failed s'.2 .
Proof.
  revert s. induction l as [|q l IH]; intros s Hnd Hin Hb; [set_solver|].
  apply NoDup_cons in Hnd as [Hq Hnd]. unfold patch_files in *. cbn [foldl].
  destruct (decide (p = q)) as [->|Hne].
  - exists s. split; [done|]. cbv zeta.
    destruct (patch_files_frame l (step s q) q Hq) as [H1 H2].
    { intros Hcb q' Hq'. apply Hb; [done | set_solver | set_solver]. }
    unfold patch_files in *. split; [done|]. split; [done|].
    apply (patch_files_failed_mono l (step s q)).
  - destruct (IH (step s q)) as (s0 & H0 & H); [done | set_solver | |].
    { intros Hcb q' Hq' Hne'. apply Hb; [done | set_solver | done]. }
    exists s0. split; [|done]. rewrite H0.
    apply patch_one_frame; [done|]. intros Hcb. apply Hb; [done | set_solver | done].
Qed.

End Frame.

Lemma add_libc_files_NoDup walked self_files :
  NoDup self_files → NoDup (add_libc_files walked self_files).
Proof.
  revert self_files. induction walked as [|p rest IH]; intros self_files Hnd; simpl.
  - done.
  - destruct (String.eqb _ _ && negb (bool_decide (p ∈ self_files))) eqn:Hc;
      [|by apply IH].
    apply IH. apply andb_true_iff in Hc as [_ Hc]. apply negb_true_iff in Hc.
    apply bool_decide_eq_false in Hc.
    apply NoDup_app. split; [done|]. split; [|apply NoDup_singleton].
    intros x Hx Hx'. apply list_elem_of_singleton in Hx'. by subst.
Qed.

Lemma patch_targets_NoDup io d w : NoDup (patch_targets io d w).
Proof.
  unfold patch_targets. apply add_libc_files_NoDup.
  unfold find_self_files, walk. do 2 apply NoDup_list_filter.
  apply NoDup_fst_map_to_list.
Qed.

End PatchFacts.

(** ** Classification *)

Module ClassifyFacts.

Import PyBytes PyPath Json Exn FS Patch.
Import ListFacts.

Lemma _is_self_file_bak io p w :
  endswith (name p) ".bak" = true → _is_self_file io p w = false.
Proof. intros H. unfold _is_self_file. by rewrite H. Qed.

Lemma _is_elf_file_bak io p w :
  endswith (name p) ".bak" = true → _is_elf_file io p w = false.
Proof. intros H. unfold _is_elf_file. by rewrite H. Qed.

Lemma lower_length s : String.length (lower s) = String.length s.
Proof. induction s; simpl; congruence. Qed.

Lemma libc_prx_not_bak n :
  lower n = "libc.prx" → endswith n ".bak" = false.
Proof.
  intros H. pose proof (lower_length n) as Hl. rewrite H in Hl. simpl in Hl.
  do 9 (destruct n as [|? n]; try discriminate).
  unfold endswith.
  cbn [String.length Nat.leb Nat.sub String.substring andb].
  apply not_true_is_false. intros He.
  apply String.eqb_eq in He. injection He as -> -> -> ->.
  simpl in H. discriminate.
Qed.

Lemma add_libc_files_elem walked self_files p :
  p ∈ add_libc_files walked self_files →
  p ∈ self_files ∨ lower (name p) = "libc.prx".
Proof.
  revert self_files. induction walked as [|q rest IH]; intros self_files; simpl.
  - by left.
  - destruct (String.eqb (lower (name q)) "libc.prx" && _) eqn:Hc; intros Hin.
    + apply IH in Hin as [Hin | Hin]; [|by right].
      apply elem_of_app in Hin as [Hin | Hin]; [by left|].
      apply list_elem_of_singleton in Hin as ->. right.
      apply andb_true_iff in Hc as [Hc _]. by apply String.eqb_eq.
    + by apply IH.
Qed.

Lemma bak_not_in_targets io d w p :
  endswith (name p) ".bak" = true →
  (p ∉ find_self_files io d w) ∧ (p ∉ find_elf_files io d w) ∧
  (p ∉ patch_targets io d w).
Proof.
  intros Hb.
  assert (p ∉ find_self_files io d w) as Hs.
  { unfold find_self_files. rewrite elem_of_list_filter, Hb. simpl. naive_solver. }
  split; [done|]. split.
  - unfold find_elf_files. rewrite elem_of_list_filter, Hb. simpl. naive_solver.
  - intros Hin. apply add_libc_files_elem in Hin as [Hin | Hin]; [done|].
    apply libc_prx_not_bak in Hin. congruence.
Qed.

(** A name that ends in [.bak] is in no target set, whatever the file
    holds. *)
Theorem bak_files_are_never_targets io d w p :
  endswith (name p) ".bak" = true →
  (p ∉ find_self_files io d w) ∧ (p ∉ find_elf_files io d w) ∧
  (p ∉ patch_targets io d w).
Proof. apply bak_not_in_targets. Qed.

End ClassifyFacts.

(** ** The patch engine: the operations *)

Module PatchTheorems.

Import PyBytes PyPath Json Exn FS Patch.
Import PyBytesFacts ListFacts PyPathFacts PatchFacts ClassifyFacts.

Section Lift.

Variable D : direction.
Variable io : path → io_faults.
Variables search_pattern replacement_pattern : bytes.

(** The loop of [apply_libc_patch] / [revert_libc_patch] with backups: a
    target whose backup is made and whose patch does not go through holds
    its old bytes when the operation returns, and is reported as failed. *)
Lemma patch_libc_failure_restores dir w p content b :
  well_formed_suffix (d_backup_suffix D) →
  p ∈ patch_targets io dir w →
  wfiles w !! p = Some content →
  read_fault (io p) = None →
  contains search_pattern content = true →
  contains replacement_pattern content = false →
  with_suffix p (d_backup_suffix D) = Some b → b ≠ p →
  ¬ patch_goes_through (io p) search_pattern replacement_pattern content →
  let res := patch_libc D io search_pattern replacement_pattern true dir w in
  wfiles res.1 !! p = Some content ∧
  files res.2 !! p = Some (failure_entry D (io p)) ∧
  1 ≤ failed res.2.
Proof.
  intros Hwf Hin Hp Hrd Hs Hr Hb Hne Hfail. unfold patch_libc. cbv zeta.
  pose proof (patch_targets_NoDup io dir w) as Hnd.
  destruct (patch_targets io dir w) as [|q0 l] eqn:Hl; [set_solver|].
  destruct (patch_files_at D io search_pattern replacement_pattern true (q0 :: l)
              (w, PatchReport (d_operation D) dir 0 0 0 0 ∅) p Hnd Hin)
    as ([w0 r0] & H0 & H1 & H2 & H3).
  { intros _ q _ Hq Hqp. apply (with_suffix_fixed _ _ _ Hwf) in Hqp. congruence. }
  cbn [fst snd] in *.
  destruct (patch_one_failure_restores D io search_pattern replacement_pattern
              p w0 r0 content b) as (w' & Heq & Hw'); try done.
  { by rewrite H0. }
  rewrite Heq in *. cbn [fst snd] in *. rewrite H1, H2. split; [done|].
  split; [simpl; by rewrite lookup_insert_eq|].
  change (failed (set_entry p (failure_entry D (io p)) (count_failed r0)))
    with (S (failed r0)) in H3. lia.
Qed.

(** A target that holds both patterns is reported as already in the target
    state, and holds the same bytes when the operation returns, as long as
    it is not the backup path of another target. *)
Lemma patch_libc_both create_backup dir w p content :
  p ∈ patch_targets io dir w →
  wfiles w !! p = Some content →
  read_fault (io p) = None →
  contains search_pattern content = true →
  contains replacement_pattern content = true →
  (create_backup = true → endswith (name p) (d_backup_suffix D) = false) →
  let res := patch_libc D io search_pattern replacement_pattern create_backup dir w in
  wfiles res.1 !! p = Some content ∧
  files res.2 !! p
    = Some (FileResult (d_already D) None false (d_msg_already D)).
Proof.
  intros Hin Hp Hrd Hs Hr Hb. unfold patch_libc. cbv zeta.
  pose proof (patch_targets_NoDup io dir w) as Hnd.
  destruct (patch_targets io dir w) as [|q0 l] eqn:Hl; [set_solver|].
  destruct (patch_files_at D io search_pattern replacement_pattern create_backup
              (q0 :: l) (w, PatchReport (d_operation D) dir 0 0 0 0 ∅) p Hnd Hin)
    as ([w0 r0] & H0 & H1 & H2 & _).
  { intros Hcb q _ _ Hqp. apply with_suffix_endswith in Hqp.
    specialize (Hb Hcb). congruence. }
  cbn [fst snd] in *.
  rewrite (patch_one_both D io search_pattern replacement_pattern create_backup
             p w0 r0 content) in * by (done || by rewrite H0).
  cbn [fst snd] in *. rewrite H1, H2, H0. split; [done|].
  simpl. by rewrite lookup_insert_eq.
Qed.

End Lift.


(** [apply_libc_patch] never changes a target that holds both patterns,
    with or without backups. *)
Theorem apply_leaves_both_patterns_file io dir sp rp cb w p content :
  p ∈ patch_targets io dir w →
  wfiles w !! p = Some content →
  read_fault (io p) = None →
  contains (default LIBC_PATCH_PATTERN sp) content = true →
  contains (default LIBC_PATCH_REPLACEMENT rp) content = true →
  let res := apply_libc_patch io dir sp rp cb w in
  wfiles res.1 !! p = Some content ∧
  status <$> files res.2 !! p = Some "already_patched".
Proof.
  intros Hin Hp Hrd Hs Hr. unfold apply_libc_patch.
  destruct (patch_libc_both apply_direction io (default LIBC_PATCH_PATTERN sp)
              (default LIBC_PATCH_REPLACEMENT rp) cb dir w p content) as [H1 H2];
    try done.
  - intros _. destruct (endswith (name p) ".bak") eqn:He; [|done].
    by destruct (bak_not_in_targets io dir w p He) as (_ & _ & H).
  - cbv zeta. by rewrite H1, H2.
Qed.

(** [revert_libc_patch] does not change a target that holds both patterns
    when it runs without backups, or when the name of the target does not
    end in [.revert_bak]. *)
Theorem revert_leaves_both_patterns_file io dir sp rp cb w p content :
  p ∈ patch_targets io dir w →
  wfiles w !! p = Some content →
  read_fault (io p) = None →
  contains (default LIBC_PATCH_REPLACEMENT sp) content = true →
  contains (default LIBC_PATCH_PATTERN rp) content = true →
  (cb = false ∨ endswith (name p) ".revert_bak" = false) →
  let res := revert_libc_patch io dir sp rp cb w in
  wfiles res.1 !! p = Some content ∧
  status <$> files res.2 !! p = Some "already_original".
Proof.
  intros Hin Hp Hrd Hs Hr Hc. unfold revert_libc_patch.
  destruct (patch_libc_both revert_direction io (default LIBC_PATCH_REPLACEMENT sp)
              (default LIBC_PATCH_PATTERN rp) cb dir w p content) as [H1 H2];
    try done.
  - intros ->. by destruct Hc.
  - cbv zeta. by rewrite H1, H2.
Qed.

(** C10.  In every run of [apply_libc_patch] the enumerated targets are
    pairwise distinct, the four counters add up to their number, and the
    report's file mapping has an entry, with its one status, for exactly the
    enumerated targets; the same for [revert_libc_patch] with its counters. *)
Theorem C10_exactly_one_status io dir sp rp cb w :
  NoDup (patch_targets io dir w) ∧
  (let r := (apply_libc_patch io dir sp rp cb w).2 in
   applied r + already_patched r + pattern_not_found r + failed r
     = length (patch_targets io dir w) ∧
   size (files r) = length (patch_targets io dir w) ∧
   (∀ p, p ∈ patch_targets io dir w ↔ is_Some (files r !! p))) ∧
  (let r := (revert_libc_patch io dir sp rp cb w).2 in
   reverted r + already_original r + patch_not_found r + failed r
     = length (patch_targets io dir w) ∧
   size (files r) = length (patch_targets io dir w) ∧
   (∀ p, p ∈ patch_targets io dir w ↔ is_Some (files r !! p))).
Proof.
  pose proof (patch_targets_NoDup io dir w) as Hnd.
  assert (∀ m : gmap path file_result,
            dom m = list_to_set (patch_targets io dir w) →
            size m = length (patch_targets io dir w) ∧
            ∀ p, p ∈ patch_targets io dir w ↔ is_Some (m !! p)) as Hdom.
  { intros m Hd. split.
    - rewrite <- size_dom, Hd. by apply size_list_to_set.
    - intros p. rewrite <- elem_of_dom, Hd. set_solver. }
  unfold apply_libc_patch, revert_libc_patch. split; [done|]. split; cbv zeta.
  - destruct (patch_libc_counts apply_direction io
                (default LIBC_PATCH_PATTERN sp) (default LIBC_PATCH_REPLACEMENT rp)
                cb dir w) as [Ht Hd].
    split; [exact Ht|]. by apply Hdom.
  - destruct (patch_libc_counts revert_direction io
                (default LIBC_PATCH_REPLACEMENT sp) (default LIBC_PATCH_PATTERN rp)
                cb dir w) as [Ht Hd].
    split; [exact Ht|]. by apply Hdom.
Qed.

(** Once the loop body of [apply_libc_patch] has reported a file as applied,
    running it again on that file reports "pattern_not_found", counts it
    there, and changes nothing on disk. *)
Theorem apply_again_reports_pattern_not_found io sp rp cb p w r r0 :
  let first := patch_one apply_direction io sp rp cb (w, r) p in
  status <$> files first.2 !! p = Some "applied" →
  read_fault (io p) = None →
  patch_one apply_direction io sp rp cb (first.1, r0) p
  = (first.1,
     set_entry p (FileResult "pattern_not_found" None false
                             "Search pattern not found in file")
               (count_not_found r0)).
Proof.
  intros first Hst Hrd.
  apply (patch_one_twice apply_direction io sp rp cb p w r r0 apply_distinct Hst Hrd).
Qed.

(** The round trip on one file with the default patterns: after the loop
    body of [apply_libc_patch] has reported the file as applied, the loop
    body of [revert_libc_patch] gives back the bytes the file had before,
    provided nothing fails and, with backups, the path of the file is not
    its own [.revert_bak] backup path. *)
Theorem apply_then_revert_restores io1 io2 cb1 cb2 p w r r0 content :
  wfiles w !! p = Some content →
  let s1 := patch_one apply_direction io1 LIBC_PATCH_PATTERN LIBC_PATCH_REPLACEMENT
                      cb1 (w, r) p in
  status <$> files s1.2 !! p = Some "applied" →
  io2 p = no_faults →
  (cb2 = true → ∃ b, with_suffix p ".revert_bak" = Some b ∧ b ≠ p) →
  let s2 := patch_one revert_direction io2 LIBC_PATCH_REPLACEMENT LIBC_PATCH_PATTERN
                      cb2 (s1.1, r0) p in
  wfiles s2.1 !! p = Some content ∧
  status <$> files s2.2 !! p = Some "reverted".
Proof.
  intros Hp s1 Hst Hio Hb.
  by apply (apply_then_revert_general io1 io2 LIBC_PATCH_PATTERN LIBC_PATCH_REPLACEMENT
              cb1 cb2 p w r r0 content).
Qed.

End PatchTheorems.

(** ** The config store *)

Module ConfigFacts.

Import PyPath Json Exn FS Config.

(** The config file holds a JSON object, or nothing that parses. *)
Definition object_or_unusable (c : config_file) : Prop :=
  match c with
  | CfgJson (JObj _) | CfgAbsent | CfgUnreadable | CfgUnparseable => True
  | CfgJson _ => False
  end.

(** Saving the directories does not raise when the config file is absent,
    unreadable, unparseable or holds a JSON object, whether or not the
    write succeeds. *)
Theorem save_directories_swallows fault now i o w :
  object_or_unusable (wconfig w) →
  (_save_directories_to_config fault now i o w).2 = Ret tt.
Proof.
  unfold _save_directories_to_config, _load_config.
  destruct (wconfig w) as [| | |[]]; simpl; done.
Qed.

(** Without a usable config file, and for an object that lacks the
    directory fields, [get_last_directories] returns two empty strings. *)
Theorem get_last_directories_defaults w :
  (match wconfig w with
  | CfgAbsent | CfgUnreadable | CfgUnparseable => True
  | CfgJson (JObj m) =>
      match m !! "directories" with
      | None => True
      | Some (JObj ds) => ds !! "last_input" = None ∧ ds !! "last_output" = None
      | Some _ => False
      end
  | CfgJson _ => False
  end) →
  get_last_directories w = Ret (JStr "", JStr "").
Proof.
  unfold get_last_directories, _load_config.
  destruct (wconfig w) as [| | |[| | | | | |m]]; try done.
  simpl. destruct (m !! "directories") as [[| | | | | |ds]|]; try done.
  simpl. by intros [-> ->].
Qed.

End ConfigFacts.

(** ** The pipeline *)

Module PipelineFacts.

Import PyBytes PyPath Json Exn FS Pipeline.
Import ListFacts.


Section WithEnv.

Context `{E : Env}.

(** *** The downgrade loop *)

Lemma downgrade_one_trace sdk_pair cb s r f :
  (downgrade_one sdk_pair cb (s, r) f).1.2 = s.2 ++ [CallPatchFile f].
Proof.
  destruct s as [w tr]. unfold downgrade_one.
  by destruct (patch_file sdk_pair cb f w) as [w1 [[ok msg]|e]].
Qed.

Lemma downgrade_one_dom sdk_pair cb s r f :
  dom (files (downgrade_one sdk_pair cb (s, r) f).2) = {[f]} ∪ dom (files r).
Proof.
  destruct s as [w tr]. unfold downgrade_one.
  destruct (patch_file sdk_pair cb f w) as [w1 [[[] msg]|e]]; simpl;
    by rewrite dom_insert_L.
Qed.

Lemma downgrade_loop_trace sdk_pair cb l s r :
  (foldl (downgrade_one sdk_pair cb) (s, r) l).1.2 = s.2 ++ map CallPatchFile l.
Proof.
  revert s r. induction l as [|f l IH]; intros s r; cbn [foldl map].
  - by rewrite app_nil_r.
  - destruct (downgrade_one sdk_pair cb (s, r) f) as [s1 r1] eqn:Hstep.
    rewrite IH. pose proof (downgrade_one_trace sdk_pair cb s r f) as Ht.
    rewrite Hstep in Ht. simpl in Ht. rewrite Ht. by rewrite <- app_assoc.
Qed.

Lemma downgrade_loop_dom sdk_pair cb l s r :
  dom (files (foldl (downgrade_one sdk_pair cb) (s, r) l).2)
  = list_to_set l ∪ dom (files r).
Proof.
  revert s r. induction l as [|f l IH]; intros s r; cbn [foldl].
  - set_solver.
  - destruct (downgrade_one sdk_pair cb (s, r) f) as [s1 r1] eqn:Hstep.
    rewrite IH. pose proof (downgrade_one_dom sdk_pair cb s r f) as Hd.
    rewrite Hstep in Hd. simpl in Hd. rewrite Hd. set_solver.
Qed.

(** *** The sign loop *)

Section SignLoop.

Variables paid ptype : Z.
Variables input_dir output_dir : path.
Variable overwrite : bool.
Variable dg : stage_report.

Abbreviation sign := (sign_one paid ptype input_dir output_dir overwrite dg).
Abbreviation out f := (joinpath output_dir (relative_to input_dir f)).

(** One pass: what it may add to the trace and to the report. *)
Lemma sign_one_skip w tr r f :
  downgrade_ok dg f = false →
  sign ((w, tr), r) f = ((w, tr), count_failed (record_result f skipped_entry r)).
Proof. intros H. unfold sign_one. by rewrite H. Qed.

(** The events a pass adds: none, or the one call of the signer on its file. *)
Lemma sign_one_trace s r f :
  (sign (s, r) f).1.2 = s.2 ∨
  (downgrade_ok dg f = true ∧ (sign (s, r) f).1.2 = s.2 ++ [CallSignFile f (out f)]).
Proof.
  destruct s as [w tr]. unfold sign_one.
  destruct (downgrade_ok dg f); simpl; [|by left].
  destruct (path_exists _ _ && negb overwrite); [by left|].
  destruct (sign_file _ _ _ _ _) as [w2 [ok|e]]; right; done.
Qed.

Lemma sign_loop_trace l s r :
  ∃ evs, (foldl sign (s, r) l).1.2 = s.2 ++ evs ∧
    Forall (λ e, ∃ f, f ∈ l ∧ downgrade_ok dg f = true ∧ e = CallSignFile f (out f)) evs.
Proof.
  revert s r. induction l as [|f l IH]; intros s r; cbn [foldl].
  - exists []. by rewrite app_nil_r.
  - destruct (sign_one paid ptype input_dir output_dir overwrite dg (s, r) f)
      as [s1 r1] eqn:Hstep.
    destruct (IH s1 r1) as (evs & Heq & Hall).
    pose proof (sign_one_trace s r f) as Ht. rewrite Hstep in Ht. simpl in Ht.
    assert (Forall (λ e, ∃ f0, f0 ∈ f :: l ∧ downgrade_ok dg f0 = true
                         ∧ e = CallSignFile f0 (out f0)) evs) as Hall'.
    { eapply Forall_impl; [exact Hall|]. intros e (f0 & ? & ? & ?).
      exists f0. set_solver. }
    destruct Ht as [Ht | [Hok Ht]].
    + exists evs. by rewrite Heq, Ht.
    + exists (CallSignFile f (out f) :: evs). rewrite Heq, Ht, <- app_assoc.
      split; [done|]. constructor; [|done]. exists f. set_solver.
Qed.

(** With [overwrite] set, a pass over a file whose downgrade succeeded calls
    the signer. *)
Lemma sign_one_calls s r f :
  downgrade_ok dg f = true → overwrite = true →
  (sign (s, r) f).1.2 = s.2 ++ [CallSignFile f (out f)].
Proof.
  intros Hok ->. destruct s as [w tr]. unfold sign_one. rewrite Hok. simpl.
  rewrite andb_false_r.
  by destruct (sign_file _ _ _ _ _) as [w2 [ok|e]].
Qed.

Lemma sign_loop_mono l s r e :
  e ∈ s.2 → e ∈ (foldl sign (s, r) l).1.2.
Proof.
  intros He. destruct (sign_loop_trace l s r) as (evs & -> & _). set_solver.
Qed.

Lemma sign_loop_calls l s r f :
  f ∈ l → downgrade_ok dg f = true → overwrite = true →
  CallSignFile f (out f) ∈ (foldl sign (s, r) l).1.2.
Proof.
  revert s r. induction l as [|g l IH]; intros s r Hin Hok Hov; [set_solver|].
  cbn [foldl]. destruct (sign_one paid ptype input_dir output_dir overwrite dg (s, r) g)
    as [s1 r1] eqn:Hstep.
  apply elem_of_cons in Hin as [-> | Hin].
  - apply sign_loop_mono.
    pose proof (sign_one_calls s r g Hok Hov) as Hc. rewrite Hstep in Hc; simpl in Hc.
    simpl in Hc. rewrite Hc. set_solver.
  - by apply IH.
Qed.

(** The entries a pass leaves alone. *)
Lemma sign_one_frame s r f g :
  g ≠ f → files (sign (s, r) f).2 !! g = files r !! g.
Proof.
  intros Hne. destruct s as [w tr]. unfold sign_one.
  destruct (downgrade_ok dg f); simpl.
  - destruct (path_exists _ _ && negb overwrite); [done|].
    destruct (sign_file _ _ _ _ _) as [w2 [[]|e]]; simpl; by rewrite lookup_insert_ne.
  - by rewrite lookup_insert_ne.
Qed.

Lemma sign_one_entry_skip s r f :
  downgrade_ok dg f = false → files (sign (s, r) f).2 !! f = Some skipped_entry.
Proof.
  intros H. destruct s as [w tr]. rewrite sign_one_skip by done. simpl.
  by rewrite lookup_insert_eq.
Qed.

(** A pass over a file whose downgrade succeeded: either the signer is
    called and its result recorded, or the file is left out because its
    output exists and [overwrite] is off. *)
Lemma sign_one_entry_ok s r f :
  downgrade_ok dg f = true →
  (∃ sr, files (sign (s, r) f).2 !! f = Some sr ∧ output sr = Some (out f) ∧
         (sign (s, r) f).1.2 = s.2 ++ [CallSignFile f (out f)]) ∨
  (overwrite = false ∧ (sign (s, r) f).2 = r ∧ (sign (s, r) f).1.2 = s.2).
Proof.
  intros Hok. destruct s as [w tr]. unfold sign_one. rewrite Hok. simpl.
  destruct (path_exists _ _ && negb overwrite) eqn:Hex.
  - right. apply andb_true_iff in Hex as [_ Hov]. apply negb_true_iff in Hov. done.
  - left. destruct (sign_file _ _ _ _ _) as [w2 [[]|e]]; simpl;
      eexists; rewrite lookup_insert_eq; done.
Qed.

Lemma unsuccessful_insert_false m f sr :
  m !! f = None → success sr = false →
  unsuccessful (<[f := sr]> m) = S (unsuccessful m).
Proof.
  intros Hm Hs. unfold unsuccessful. rewrite map_filter_insert_True by done.
  rewrite map_size_insert_None; [done|]. by apply map_lookup_filter_None_2; left.
Qed.

Lemma unsuccessful_insert_true m f sr :
  m !! f = None → success sr = true →
  unsuccessful (<[f := sr]> m) = unsuccessful m.
Proof.
  intros Hm Hs. unfold unsuccessful. rewrite map_filter_insert_not'; [done | |].
  - simpl. congruence.
  - intros y Hy. congruence.
Qed.

(** The failed counter counts the entries with [success = False], the
    skipped ones among them. *)
Lemma sign_one_counts s r f :
  files r !! f = None → failed r = unsuccessful (files r) →
  failed (sign (s, r) f).2 = unsuccessful (files (sign (s, r) f).2).
Proof.
  intros Hf Hinv. destruct s as [w tr]. unfold sign_one.
  destruct (downgrade_ok dg f); simpl.
  - destruct (path_exists _ _ && negb overwrite); [done|].
    destruct (sign_file _ _ _ _ _) as [w2 [[]|e]]; simpl.
    + by rewrite unsuccessful_insert_true.
    + rewrite unsuccessful_insert_false by done. by rewrite Hinv.
    + rewrite unsuccessful_insert_false by done. by rewrite Hinv.
  - rewrite unsuccessful_insert_false by done. by rewrite Hinv.
Qed.

Lemma sign_loop_frame l s r g :
  g ∉ l → files (foldl sign (s, r) l).2 !! g = files r !! g.
Proof.
  revert s r. induction l as [|f l IH]; intros s r Hg; cbn [foldl]; [done|].
  destruct (sign_one paid ptype input_dir output_dir overwrite dg (s, r) f)
    as [s1 r1] eqn:Hstep.
  rewrite IH by set_solver.
  pose proof (sign_one_frame s r f g) as Hf. rewrite Hstep in Hf; simpl in Hf. apply Hf. set_solver.
Qed.

Lemma sign_loop_entry_skip l s r f :
  f ∈ l → downgrade_ok dg f = false →
  files (foldl sign (s, r) l).2 !! f = Some skipped_entry.
Proof.
  revert s r. induction l as [|g l IH]; intros s r Hin Hok; [set_solver|].
  cbn [foldl].
  destruct (sign_one paid ptype input_dir output_dir overwrite dg (s, r) g)
    as [s1 r1] eqn:Hstep.
  destruct (decide (f ∈ l)) as [Hl|Hl]; [by apply IH|].
  assert (g = f) as -> by set_solver.
  rewrite sign_loop_frame by done.
  pose proof (sign_one_entry_skip s r f Hok) as He. rewrite Hstep in He; simpl in He. done.
Qed.

Lemma sign_loop_entry_ok l s r f :
  NoDup l → f ∈ l → downgrade_ok dg f = true → files r !! f = None →
  (∃ sr, files (foldl sign (s, r) l).2 !! f = Some sr ∧ output sr = Some (out f) ∧
         CallSignFile f (out f) ∈ (foldl sign (s, r) l).1.2) ∨
  (overwrite = false ∧ files (foldl sign (s, r) l).2 !! f = None).
Proof.
  revert s r. induction l as [|g l IH]; intros s r Hnd Hin Hok Hr; [set_solver|].
  cbn [foldl]. apply NoDup_cons in Hnd as [Hg Hnd].
  destruct (sign_one paid ptype input_dir output_dir overwrite dg (s, r) g)
    as [s1 r1] eqn:Hstep.
  apply elem_of_cons in Hin as [-> | Hin].
  - rewrite sign_loop_frame by done.
    destruct (sign_one_entry_ok s r g Hok) as [(sr & H1 & H2 & H3) | (H1 & H2 & H3)];
      rewrite Hstep in *; simpl in *.
    + left. exists sr. repeat split; [done..|].
      apply sign_loop_mono. rewrite H3. set_solver.
    + right. by subst r1.
  - apply IH; [done..|].
    pose proof (sign_one_frame s r g f) as Hf. rewrite Hstep in Hf; simpl in Hf.
    rewrite Hf; [done|]. set_solver.
Qed.

Lemma sign_loop_counts l s r :
  NoDup l → (∀ f, f ∈ l → files r !! f = None) →
  failed r = unsuccessful (files r) →
  failed (foldl sign (s, r) l).2 = unsuccessful (files (foldl sign (s, r) l).2).
Proof.
  revert s r. induction l as [|g l IH]; intros s r Hnd Hfresh Hinv; [done|].
  cbn [foldl]. apply NoDup_cons in Hnd as [Hg Hnd].
  destruct (sign_one paid ptype input_dir output_dir overwrite dg (s, r) g)
    as [s1 r1] eqn:Hstep.
  apply IH; [done | |].
  - intros f Hf. pose proof (sign_one_frame s r g f) as Hfr. rewrite Hstep in Hfr; simpl in Hfr.
    rewrite Hfr by set_solver. apply Hfresh. set_solver.
  - pose proof (sign_one_counts s r g) as Hc. rewrite Hstep in Hc; simpl in Hc. apply Hc; [|done].
    apply Hfresh. set_solver.
Qed.

End SignLoop.

(** *** Steps 3 and 4 *)


Lemma libc_step_trace output_dir sdk_pair ap au s :
  (libc_step output_dir sdk_pair ap au s).1.2
  = s.2 ++ libc_calls output_dir sdk_pair ap au.
Proof.
  destruct s as [w tr]. unfold libc_step, libc_calls.
  destruct ap; [|by rewrite app_nil_r].
  destruct (sdk_pair <=? 6)%Z.
  - by destruct (Patch.apply_libc_patch _ _ _ _ _ _).
  - destruct au; [|by rewrite app_nil_r].
    by destruct (Patch.revert_libc_patch _ _ _ _ _ _).
Qed.

Lemma fakelib_step_trace src output_dir s :
  (fakelib_step src output_dir s).1.2 = s.2 ++ fakelib_calls src output_dir.
Proof.
  destruct s as [w tr]. unfold fakelib_step, fakelib_calls.
  destruct src as [src|]; [|by rewrite app_nil_r].
  by destruct (copy_fakelib_step _ _ _).
Qed.

(** *** [downgrade_and_sign], taken apart *)

Lemma find_elf_files_NoDup d w : NoDup (Patch.find_elf_files io d w).
Proof.
  unfold Patch.find_elf_files, walk. do 2 apply NoDup_list_filter.
  apply NoDup_fst_map_to_list.
Qed.

Lemma find_self_files_NoDup d w : NoDup (Patch.find_self_files io d w).
Proof.
  unfold Patch.find_self_files, walk. do 2 apply NoDup_list_filter.
  apply NoDup_fst_map_to_list.
Qed.

Section DowngradeAndSign.

Variables input_dir output_dir : path.
Variables sdk_pair paid ptype : Z.
Variable fakelib_source : option path.
Variables create_backup overwrite apply_libc_patch auto_revert_for_high_sdk : bool.
Variable save_to_config : bool.

Abbreviation run :=
  (downgrade_and_sign input_dir output_dir sdk_pair paid ptype fakelib_source
     create_backup overwrite apply_libc_patch auto_revert_for_high_sdk save_to_config).

Abbreviation entered s := (s.2 ++ [CallDowngradeAndSign input_dir output_dir]).

Lemma downgrade_and_sign_raise s s' e :
  run s = (s', Raise e) → s'.2 = entered s.
Proof.
  destruct s as [w tr]. unfold downgrade_and_sign.
  destruct (if save_to_config then _ else _) as [w0 [[]|e0]]; [|by intros [= <- _]].
  destruct (set_versions_by_pair sdk_pair) as [v|e0]; [|by intros [= <- _]].
  destruct (Patch.find_elf_files io input_dir w0) as [|f l]; [done|].
  destruct (foldl (downgrade_one _ _) _ _) as [s1 dg].
  destruct (foldl (sign_one _ _ _ _ _ _) _ _) as [s3 sg].
  destruct (libc_step _ _ _ _ _) as [s4 lp].
  by destruct (fakelib_step _ _ _) as [s5 fl].
Qed.

Lemma downgrade_and_sign_ret s s' r :
  run s = (s', Ret r) →
  ∃ w0 elf_files,
    NoDup elf_files ∧
    let d := foldl (downgrade_one sdk_pair create_backup)
                   ((w0, entered s), empty_stage) elf_files in
    let g := foldl (sign_one paid ptype input_dir output_dir overwrite d.2)
                   ((mkdir_p output_dir d.1.1, d.1.2), empty_stage) elf_files in
    downgrade r = d.2 ∧ signing r = g.2 ∧
    s'.2 = match elf_files with
           | [] => entered s
           | _ :: _ =>
               g.1.2 ++ libc_calls output_dir sdk_pair apply_libc_patch
                                   auto_revert_for_high_sdk
                     ++ fakelib_calls fakelib_source output_dir
           end.
Proof.
  destruct s as [w tr]. unfold downgrade_and_sign.
  destruct (if save_to_config then _ else _) as [w0 [[]|e0]]; [|done].
  destruct (set_versions_by_pair sdk_pair) as [v|e0]; [|done].
  pose proof (find_elf_files_NoDup input_dir w0) as Hnd.
  destruct (Patch.find_elf_files io input_dir w0) as [|f l] eqn:Hl.
  - intros [= <- <-]. exists w0, []. done.
  - destruct (foldl (downgrade_one _ _) _ _) as [s1 dg] eqn:Hd.
    destruct (foldl (sign_one _ _ _ _ _ _) _ _) as [s3 sg] eqn:Hg.
    destruct (libc_step _ _ _ _ _) as [s4 lp] eqn:Hlp.
    destruct (fakelib_step _ _ _) as [s5 fl] eqn:Hfl.
    intros [= <- <-]. exists w0, (f :: l). split; [done|].
    cbn zeta. cbn [fst snd]. rewrite Hd. cbn [fst snd]. rewrite Hg. cbn [fst snd].
    repeat split.
    pose proof (fakelib_step_trace fakelib_source output_dir s4) as H1.
    pose proof (libc_step_trace output_dir sdk_pair apply_libc_patch
                  auto_revert_for_high_sdk s3) as H2.
    rewrite Hfl in H1. rewrite Hlp in H2. simpl in *. by rewrite H1, H2, <- app_assoc.
Qed.

End DowngradeAndSign.

(** *** The libc step of [downgrade_and_sign] *)

Lemma filter_libc_patch_calls l : List.filter is_libc_call (map CallPatchFile l) = [].
Proof. induction l; [done | by simpl]. Qed.

Lemma filter_libc_sign_calls evs :
  Forall (λ e, ∃ f dst, e = CallSignFile f dst) evs →
  List.filter is_libc_call evs = [].
Proof.
  induction 1 as [|e evs (f & dst & ->) _ IH]; [done | by simpl].
Qed.

Lemma filter_libc_calls o p ap au :
  List.filter is_libc_call (libc_calls o p ap au) = libc_calls o p ap au.
Proof.
  unfold libc_calls. destruct ap; [|done].
  destruct (p <=? 6)%Z; [done|]. by destruct au.
Qed.

Lemma filter_libc_fakelib src o : List.filter is_libc_call (fakelib_calls src o) = [].
Proof. by destruct src. Qed.

(** C2 (as amended).  In every run of [downgrade_and_sign] at most one of
    [apply_libc_patch] and [revert_libc_patch] is called.  A run that
    returns, has found at least one ELF file and has [apply_libc_patch]
    enabled calls [apply_libc_patch] on the output directory, and nothing
    else, for a pair at or below 6; for a pair above 6 with the auto-revert
    enabled it calls [revert_libc_patch] on the output directory, and
    nothing else.  A run with [apply_libc_patch] disabled, a run that finds
    no ELF file and a run that raises call neither. *)
Theorem C2_threshold_branching_amended
    input_dir output_dir sdk_pair paid ptype fakelib_source
    create_backup overwrite apply_libc_patch auto_revert_for_high_sdk save_to_config s :
  let res := downgrade_and_sign input_dir output_dir sdk_pair paid ptype
               fakelib_source create_backup overwrite apply_libc_patch
               auto_revert_for_high_sdk save_to_config s in
  ∃ evs, res.1.2 = s.2 ++ evs ∧
    let libc := List.filter is_libc_call evs in
    length libc ≤ 1 ∧
    match res.2 with
    | Ret r =>
        if decide (files (downgrade r) = ∅) then libc = []
        else if apply_libc_patch then
          if (sdk_pair <=? 6)%Z then libc = [CallApplyLibcPatch output_dir]
          else if auto_revert_for_high_sdk then libc = [CallRevertLibcPatch output_dir]
          else libc = []
        else libc = []
    | Raise _ => libc = []
    end.
Proof.
  intros res. destruct res as [s' [r|e]] eqn:Hres; subst res; cbn [fst snd].
  - destruct (downgrade_and_sign_ret _ _ _ _ _ _ _ _ _ _ _ _ _ _ Hres)
      as (w0 & elf_files & Hnd & Hdg & Hsg & Htr).
    cbv zeta in *.
    destruct elf_files as [|f l].
    + exists [CallDowngradeAndSign input_dir output_dir]. split; [done|].
      cbn [List.filter is_libc_call length]. split; [lia|].
      case_decide as Hemp; [done|]. exfalso. apply Hemp. by rewrite Hdg.
    + assert (files (downgrade r) ≠ ∅) as Hne.
      { rewrite Hdg. intros Hemp. apply (f_equal dom) in Hemp.
        rewrite downgrade_loop_dom, dom_empty_L in Hemp. set_solver. }
      clear Hdg Hsg.
      set (d := foldl (downgrade_one sdk_pair create_backup)
                  (w0, s.2 ++ [CallDowngradeAndSign input_dir output_dir], empty_stage)
                  (f :: l)) in *.
      destruct (sign_loop_trace paid ptype input_dir output_dir overwrite d.2 (f :: l)
                  (mkdir_p output_dir d.1.1, d.1.2) empty_stage)
        as (sevs & Hs & Hall).
      rewrite Hs in Htr. cbn [snd] in Htr. unfold d in Htr.
      rewrite downgrade_loop_trace in Htr. cbn [snd] in Htr.
      exists ([CallDowngradeAndSign input_dir output_dir] ++ map CallPatchFile (f :: l)
              ++ sevs
              ++ libc_calls output_dir sdk_pair apply_libc_patch auto_revert_for_high_sdk
              ++ fakelib_calls fakelib_source output_dir).
      split; [by rewrite Htr, <- !app_assoc|].
      rewrite !List.filter_app, filter_libc_patch_calls, filter_libc_calls,
        filter_libc_fakelib, app_nil_r.
      rewrite (filter_libc_sign_calls sevs).
      2: { eapply Forall_impl; [exact Hall|]. intros e (f0 & _ & _ & ->). eauto. }
      cbn [List.filter is_libc_call app]. unfold libc_calls.
      case_decide; [done|].
      destruct apply_libc_patch; [|simpl; split; [lia | done]].
      destruct (sdk_pair <=? 6)%Z; [simpl; split; [lia | done]|].
      destruct auto_revert_for_high_sdk; simpl; (split; [lia | done]).
  - apply downgrade_and_sign_raise in Hres.
    exists [CallDowngradeAndSign input_dir output_dir]. split; [done|].
    simpl. split; [lia | done].
Qed.


(** *** [decrypt_files] and the full pipeline *)

Lemma decrypt_one_trace input_dir output_dir overwrite s r f :
  ∃ evs, (decrypt_one input_dir output_dir overwrite (s, r) f).1.2 = s.2 ++ evs ∧
         Forall (λ e, is_downstream_call e = false) evs.
Proof.
  destruct s as [w tr]. unfold decrypt_one. cbv zeta.
  destruct (path_exists _ _ && negb overwrite).
  - exists []. by rewrite app_nil_r.
  - destruct (convert_file _ _ _) as [w2 [ok|e]]; eexists [_];
      (split; [done|]); by repeat constructor.
Qed.

Lemma decrypt_loop_trace input_dir output_dir overwrite l s r :
  ∃ evs, (foldl (decrypt_one input_dir output_dir overwrite) (s, r) l).1.2 = s.2 ++ evs ∧
         Forall (λ e, is_downstream_call e = false) evs.
Proof.
  revert s r. induction l as [|f l IH]; intros s r; cbn [foldl].
  - exists []. by rewrite app_nil_r.
  - destruct (decrypt_one_trace input_dir output_dir overwrite s r f) as (e1 & H1 & F1).
    destruct (decrypt_one input_dir output_dir overwrite (s, r) f) as [s1 r1].
    destruct (IH s1 r1) as (e2 & H2 & F2). simpl in H1.
    exists (e1 ++ e2). rewrite H2, H1, <- app_assoc. split; [done|].
    by apply Forall_app.
Qed.

Lemma decrypt_files_trace input_dir output_dir overwrite s s1 res :
  decrypt_files input_dir output_dir overwrite false s = (s1, res) →
  ∃ evs, s1.2 = s.2 ++ evs ∧ Forall (λ e, is_downstream_call e = false) evs.
Proof.
  destruct s as [w tr]. unfold decrypt_files.
  destruct (Patch.find_self_files io input_dir w) as [|f l].
  - intros [= <- _]. exists []. by rewrite app_nil_r.
  - destruct (decrypt_loop_trace input_dir output_dir overwrite (f :: l)
                (mkdir_p output_dir w, tr) empty_stage) as (evs & H & F).
    destruct (foldl _ _ _) as [s' r]. intros [= <- _]. by exists evs.
Qed.

Lemma decrypt_files_nothing input_dir output_dir overwrite s s1 dr :
  decrypt_files input_dir output_dir overwrite false s = (s1, Ret dr) →
  Patch.find_self_files io input_dir s.1 = [] →
  dr_counts dr = StageReport 0 0 ∅.
Proof.
  destruct s as [w tr]. unfold decrypt_files. simpl. intros H Hl.
  rewrite Hl in H. by injection H as <- <-.
Qed.

Lemma rmtree_gone d w :
  dir_exists d (rmtree d w) = false ∧
  ∀ p, d `prefix_of` p → wfiles (rmtree d w) !! p = None.
Proof.
  split.
  - unfold dir_exists, rmtree. simpl. apply bool_decide_eq_false.
    rewrite elem_of_filter. intros [H _]. by apply H.
  - intros p Hp. unfold rmtree. simpl. apply map_lookup_filter_None_2.
    right. intros x _ H. by apply H.
Qed.



End WithEnv.

End PipelineFacts.

(** ** Replacements with patterns that cannot overlap *)

Module PatternFacts.

Import PyBytes Patterns PyBytesFacts.

Lemma replace_go_length old new :
  length new = length old → old ≠ [] →
  ∀ s k, k ≤ length s → length (replace_go old new k s) = length s - k.
Proof.
  intros Hlen Hne s. induction s as [|c s IH]; intros k Hk; [done|].
  destruct k as [|k]; cbn [replace_go].
  - destruct (startswith old (c :: s)) eqn:Hs.
    + apply startswith_prefix, prefix_length in Hs. simpl in Hs.
      assert (0 < length old) by (destruct old; [done | simpl; lia]).
      rewrite length_app, IH by lia. simpl. lia.
    + simpl. rewrite IH by lia. lia.
  - simpl in *. apply IH. lia.
Qed.

Lemma replace_length old new s :
  length new = length old → old ≠ [] → length (replace old new s) = length s.
Proof.
  intros Hlen Hne. destruct old as [|o old]; [done|]. unfold replace.
  rewrite replace_go_length by (done || lia). lia.
Qed.

Lemma comparable_false a b :
  comparable a b = false → ¬ a `prefix_of` b ∧ ¬ b `prefix_of` a.
Proof.
  unfold comparable. intros H. apply orb_false_iff in H as [H1 H2].
  by rewrite <- !startswith_false.
Qed.

Lemma overlap_free_old old new :
  overlap_free old new = true →
  ∀ w1 w2, old = w1 ++ w2 → w2 ≠ [] → ¬ w2 `prefix_of` new ∧ ¬ new `prefix_of` w2.
Proof.
  unfold overlap_free. intros H w1 w2 -> Hw2.
  apply andb_true_iff in H as [H _]. rewrite forallb_forall in H.
  specialize (H (length w1)). rewrite drop_app_length in H.
  apply comparable_false. apply negb_true_iff, H, in_seq.
  rewrite length_app. destruct w2; [done | simpl; lia].
Qed.

Lemma overlap_free_new old new :
  overlap_free old new = true →
  ∀ i, 0 < i < length new → ¬ drop i new `prefix_of` old ∧ ¬ old `prefix_of` drop i new.
Proof.
  unfold overlap_free. intros H i Hi.
  apply andb_true_iff in H as [_ H]. rewrite forallb_forall in H.
  apply comparable_false. apply negb_true_iff, H, in_seq. lia.
Qed.

Lemma contains_app_false (p a b : bytes) :
  (∀ i, i < length a → startswith p (drop i a ++ b) = false) →
  contains p b = false → contains p (a ++ b) = false.
Proof.
  induction a as [|x a IH]; intros Ha Hb; [done|].
  cbn [app contains]. apply orb_false_iff. split.
  - apply (Ha 0). simpl. lia.
  - apply IH; [|done]. intros i Hi. apply (Ha (S i)). simpl. lia.
Qed.

(** After the replacement no copy of [old] is left. *)
Lemma replace_removes_old old new s :
  old ≠ [] → overlap_free old new = true →
  contains old (replace old new s) = false.
Proof.
  intros Hne Hof.
  remember (length s) as n eqn:Hn. revert s Hn.
  induction n as [n IH] using lt_wf_ind. intros s ->.
  destruct s as [|c s].
  { rewrite replace_nil by done. destruct old; [done | reflexivity]. }
  destruct (startswith old (c :: s)) eqn:Hs.
  - rewrite replace_match by done.
    assert (0 < length old) by (destruct old; [done | simpl; lia]).
    apply contains_app_false.
    + intros i Hi. apply startswith_false. intros Hp.
      assert (drop i new `prefix_of` drop i new ++
                replace old new (drop (length old) (c :: s))) as Hq
        by (by apply prefix_app_r).
      destruct (prefix_weak_total _ _ _ Hp Hq) as [H1 | H1].
      * destruct i as [|i].
        -- rewrite drop_0 in H1.
           destruct (overlap_free_old old new Hof [] old eq_refl Hne) as [H2 _]. done.
        -- destruct (overlap_free_new old new Hof (S i)) as [_ H2]; [lia | done].
      * destruct i as [|i].
        -- rewrite drop_0 in H1.
           destruct (overlap_free_old old new Hof [] old eq_refl Hne) as [_ H2]. done.
        -- destruct (overlap_free_new old new Hof (S i)) as [H2 _]; [lia | done].
    + apply (IH (length (drop (length old) (c :: s)))); [|done].
      rewrite length_drop. simpl. lia.
  - pose proof Hs as Hs'. rewrite replace_nomatch by done.
    cbn [contains]. apply orb_false_iff. split.
    + apply startswith_false. intros Hp.
      rewrite <- (replace_nomatch old new c s Hne Hs) in Hp.
      destruct (startswith_replace_split old new Hne (c :: s) old Hp)
        as [H1 | (w1 & w2 & Hw & Hw2 & H1)].
      * apply startswith_false in Hs'. done.
      * destruct (overlap_free_old old new Hof w1 w2 Hw Hw2) as [H2 H3].
        destruct H1; done.
    + apply (IH (length s)); [simpl; lia | done].
Qed.

(** ... and a copy of [new] is there when there was something to replace. *)
Lemma replace_inserts_new old new s :
  old ≠ [] → contains old s = true → contains new (replace old new s) = true.
Proof.
  intros Hne.
  remember (length s) as n eqn:Hn. revert s Hn.
  induction n as [n IH] using lt_wf_ind. intros s -> Hc.
  destruct s as [|c s].
  { destruct old; [done | discriminate]. }
  destruct (startswith old (c :: s)) eqn:Hs.
  - rewrite replace_match by done. apply contains_spec.
    exists [], (replace old new (drop (length old) (c :: s))). done.
  - rewrite replace_nomatch by done. cbn [contains] in *. rewrite Hs in Hc.
    simpl in Hc. apply orb_true_iff. right.
    apply (IH (length s)); [simpl; lia | done | done].
Qed.

Lemma default_patterns_overlap_free :
  overlap_free Patch.LIBC_PATCH_PATTERN Patch.LIBC_PATCH_REPLACEMENT = true ∧
  overlap_free Patch.LIBC_PATCH_REPLACEMENT Patch.LIBC_PATCH_PATTERN = true.
Proof. split; vm_compute; reflexivity. Qed.

End PatternFacts.

(** ** The walk, and what a whole operation leaves alone *)

Module WalkFacts.

Import PyBytes PyPath Json Exn FS Patch.
Import ListFacts PyPathFacts ClassifyFacts.

Lemma elem_of_walk d w p :
  p ∈ walk d w ↔ is_under d p = true ∧ is_Some (wfiles w !! p).
Proof.
  unfold walk. rewrite elem_of_list_filter, list_elem_of_fmap. split.
  - intros [Hu ([q c] & -> & Hin)]. split; [done|].
    apply elem_of_map_to_list in Hin. simpl. by rewrite Hin.
  - intros [Hu [c Hc]]. split; [done|]. exists (p, c). split; [done|].
    by apply elem_of_map_to_list.
Qed.

Lemma add_libc_files_walked walked self_files p :
  p ∈ add_libc_files walked self_files → p ∈ self_files ∨ p ∈ walked.
Proof.
  revert self_files. induction walked as [|q rest IH]; intros self_files; simpl.
  - by left.
  - destruct (String.eqb (lower (name q)) "libc.prx" && _); intros Hin.
    + apply IH in Hin as [Hin | Hin]; [|right; set_solver].
      apply elem_of_app in Hin as [Hin | Hin]; [by left|]. right. set_solver.
    + apply IH in Hin as [Hin | Hin]; [by left | right; set_solver].
Qed.

(** Every target is a file below the directory. *)
Lemma patch_targets_walk io d w p :
  p ∈ patch_targets io d w → is_under d p = true ∧ is_Some (wfiles w !! p).
Proof.
  intros Hin. apply elem_of_walk. unfold patch_targets in Hin.
  apply add_libc_files_walked in Hin as [Hin | Hin]; [|done].
  unfold find_self_files in Hin. by apply elem_of_list_filter in Hin as [_ Hin].
Qed.

Lemma is_under_spec d p :
  is_under d p = true ↔ ∃ k, k ≠ [] ∧ p = d ++ k.
Proof.
  unfold is_under. rewrite andb_true_iff, negb_true_iff, bool_decide_eq_true,
    bool_decide_eq_false. split.
  - intros [[k ->] Hne]. exists k. split; [|done]. intros ->. by rewrite app_nil_r in Hne.
  - intros (k & Hk & ->). split; [by exists k|].
    intros H. apply Hk. rewrite <- (app_nil_r d) in H at 2. by apply app_inv_head in H.
Qed.

(** The backup path of a file below [d] is below [d]. *)
Lemma with_suffix_under d q sfx b :
  with_suffix q sfx = Some b → is_under d q = true → is_under d b = true.
Proof.
  unfold with_suffix. destruct (String.eqb (name q) ""); [done|].
  intros [= <-]. rewrite !is_under_spec. intros (k & Hk & ->).
  destruct (exists_last Hk) as (k' & x & ->).
  rewrite app_assoc, removelast_last, <- app_assoc.
  eexists. split; [|reflexivity]. by destruct k'.
Qed.

End WalkFacts.

Module PatchMore.

Import PyBytes PyPath Json Exn FS Patch PatchVocabulary.
Import PyBytesFacts ListFacts PyPathFacts PatchFacts ClassifyFacts.
Import Patterns PatternFacts WalkFacts.

Section Meta.

Variable D : direction.
Variable io : path → io_faults.
Variables search_pattern replacement_pattern : bytes.
Variable create_backup : bool.

Abbreviation step := (patch_one D io search_pattern replacement_pattern create_backup).

Lemma same_meta_refl w : same_meta w w.
Proof. done. Qed.

Lemma same_meta_trans w1 w2 w3 : same_meta w1 w2 → same_meta w2 w3 → same_meta w1 w3.
Proof. intros [? ?] [? ?]. split; congruence. Qed.

Lemma write_file_meta fault q data w : same_meta w (write_file fault q data w).1.
Proof. unfold write_file. by destruct fault as [[[g|] m]|]. Qed.

Lemma copy2_meta src dst w : same_meta w (copy2 src dst w).1.
Proof.
  unfold copy2. case_bool_decide; [done|]. by destruct (wfiles w !! src).
Qed.

Lemma restore_backup_meta bp q w : same_meta w (restore_backup bp q w).1.
Proof.
  unfold restore_backup. destruct bp as [b|]; [|done].
  destruct (file_exists b w); [apply copy2_meta | done].
Qed.

Lemma clean_backup_meta bp q s : same_meta s.1 (clean_backup bp q s).1.
Proof.
  unfold clean_backup. destruct bp as [b|]; [|done].
  by destruct (file_exists b s.1).
Qed.

Lemma make_backup_meta q w : same_meta w (make_backup D create_backup q w).1.
Proof.
  unfold make_backup. destruct create_backup; [|done].
  destruct (with_suffix q (d_backup_suffix D)) as [b|]; [|done].
  pose proof (copy2_meta q b w) as H. by destruct (copy2 q b w) as [w' [[]|e]].
Qed.

Lemma try_patch_meta q content bp w r :
  same_meta w (try_patch D io search_pattern replacement_pattern q content bp w r).1.
Proof.
  unfold try_patch.
  pose proof (write_file_meta (write_fault (io q)) q
                (replace search_pattern replacement_pattern content) w) as Hw.
  destruct (write_file _ _ _ _) as [w1 [[]|e]]; cbn [fst] in *; [|done].
  destruct (read_file _ _ _) as [new_content|e]; [|done].
  destruct (negb _ && _).
  - match goal with |- context [clean_backup ?b ?q ?s] =>
      pose proof (clean_backup_meta b q s) as Hc;
      destruct (clean_backup b q s) as [w2 r2] end.
    cbn [fst] in *. by eapply same_meta_trans.
  - pose proof (restore_backup_meta bp q w1) as Hr.
    destruct (restore_backup bp q w1) as [w2 [[]|e]]; cbn [fst] in *;
      [|by eapply same_meta_trans].
    match goal with |- context [clean_backup ?b ?q ?s] =>
      pose proof (clean_backup_meta b q s) as Hc;
      destruct (clean_backup b q s) as [w3 r3] end.
    cbn [fst] in *. eapply same_meta_trans; [exact Hw|]. by eapply same_meta_trans.
Qed.

Lemma patch_one_meta s q : same_meta s.1 (step s q).1.
Proof.
  destruct s as [w r]. unfold patch_one.
  destruct (read_file _ _ _) as [content|e]; [|done].
  destruct (contains search_pattern content); [|done].
  destruct (contains replacement_pattern content); [done|].
  pose proof (make_backup_meta q w) as Hm.
  destruct (make_backup D create_backup q w) as [w0 [bp|e]]; cbn [fst] in *; [|done].
  pose proof (try_patch_meta q content bp w0 r) as Ht.
  destruct (try_patch _ _ _ _ _ _ _ _ _) as [w1 [r1|e]]; cbn [fst] in *.
  - by eapply same_meta_trans.
  - pose proof (restore_backup_meta bp q w1) as Hr.
    destruct (restore_backup bp q w1) as [w2 [[]|e']]; cbn [fst] in *;
      (eapply same_meta_trans; [exact Hm|]); by eapply same_meta_trans.
Qed.

Lemma patch_files_meta l s :
  same_meta s.1 (patch_files D io search_pattern replacement_pattern create_backup l s).1.
Proof.
  revert s. induction l as [|q l IH]; intros s; [done|].
  unfold patch_files in *. cbn [foldl].
  eapply same_meta_trans; [apply patch_one_meta | apply IH].
Qed.

(** The operation changes no directory and not the config file; it leaves
    alone every file that is neither a target nor the backup path of one, and
    so every file outside the directory. *)
Lemma patch_libc_frame dir w :
  let res := patch_libc D io search_pattern replacement_pattern create_backup dir w in
  same_meta w res.1 ∧
  (∀ q, q ∉ patch_targets io dir w →
        (create_backup = true →
         ∀ t, t ∈ patch_targets io dir w → with_suffix t (d_backup_suffix D) ≠ Some q) →
        wfiles res.1 !! q = wfiles w !! q) ∧
  (∀ q, is_under dir q = false → wfiles res.1 !! q = wfiles w !! q).
Proof.
  cbv zeta.
  assert (∀ q, q ∉ patch_targets io dir w →
               (create_backup = true →
                ∀ t, t ∈ patch_targets io dir w →
                     with_suffix t (d_backup_suffix D) ≠ Some q) →
               wfiles (patch_libc D io search_pattern replacement_pattern
                         create_backup dir w).1 !! q = wfiles w !! q) as Hframe.
  { intros q Hq Hb. unfold patch_libc.
    destruct (patch_targets io dir w) as [|t l] eqn:Hl; [done|].
    destruct (patch_files_frame D io search_pattern replacement_pattern create_backup
                (t :: l) (w, PatchReport (d_operation D) dir 0 0 0 0 ∅) q Hq Hb)
      as [H _].
    exact H. }
  split; [|split; [exact Hframe|]].
  - unfold patch_libc. destruct (patch_targets io dir w) as [|t l]; [done|].
    apply (patch_files_meta (t :: l) (w, _)).
  - intros q Hq. apply Hframe.
    + intros Hin. apply patch_targets_walk in Hin as [Hu _]. congruence.
    + intros _ t Ht Hs. apply patch_targets_walk in Ht as [Hu _].
      apply (with_suffix_under dir) in Hs; [congruence | done].
Qed.

(** What the operation does to a target is what the loop body does to it, in
    a state in which the target holds the bytes it held at the start. *)
Lemma patch_libc_at dir w p :
  p ∈ patch_targets io dir w →
  (create_backup = true →
   ∀ q, q ∈ patch_targets io dir w → q ≠ p → with_suffix q (d_backup_suffix D) ≠ Some p) →
  ∃ w0 r0, wfiles w0 !! p = wfiles w !! p ∧
    let res := patch_libc D io search_pattern replacement_pattern create_backup dir w in
    wfiles res.1 !! p = wfiles (step (w0, r0) p).1 !! p ∧
    files res.2 !! p = files (step (w0, r0) p).2 !! p.
Proof.
  intros Hin Hb. unfold patch_libc.
  pose proof (patch_targets_NoDup io dir w) as Hnd.
  destruct (patch_targets io dir w) as [|q0 l] eqn:Hl; [set_solver|].
  destruct (patch_files_at D io search_pattern replacement_pattern create_backup
              (q0 :: l) (w, PatchReport (d_operation D) dir 0 0 0 0 ∅) p Hnd Hin Hb)
    as ([w0 r0] & H0 & H1 & H2 & _).
  exists w0, r0. done.
Qed.

(** The loop body keeps the length of its file when the two patterns have
    the same length and the write does not fail. *)
Lemma patch_one_length p w r content :
  length replacement_pattern = length search_pattern → search_pattern ≠ [] →
  write_fault (io p) = None →
  wfiles w !! p = Some content →
  ∃ c', wfiles (step (w, r) p).1 !! p = Some c' ∧ length c' = length content.
Proof.
  intros Hlen Hne Hwf Hp. unfold patch_one.
  destruct (read_file _ _ _) as [c|e] eqn:Hrd; cbn [fst]; [|eauto].
  assert (c = content) as ->.
  { unfold read_file in Hrd. destruct (read_fault (io p)); [done|].
    rewrite Hp in Hrd. congruence. }
  destruct (contains search_pattern content); cbn [fst]; [|eauto].
  destruct (contains replacement_pattern content); cbn [fst]; [eauto|].
  destruct (make_backup D create_backup p w) as [w0 [bp|e]] eqn:Hb; cbn [fst].
  2: { unfold make_backup in Hb. destruct create_backup; [|done].
       destruct (with_suffix p (d_backup_suffix D)) as [b|]; [|injection Hb as <- _; eauto].
       unfold copy2 in Hb. case_bool_decide; [injection Hb as <- _; eauto|].
       rewrite Hp in Hb. done. }
  apply make_backup_inv in Hb.
  set (patched := replace search_pattern replacement_pattern content).
  assert (length patched = length content) as Hpl by (by apply replace_length).
  assert (wfiles w0 !! p = Some content ∧
          ∀ b, bp = Some b → b ≠ p ∧ wfiles w0 !! b = Some content) as [Hp0 Hbp].
  { destruct bp as [b|].
    - destruct Hb as (Hne' & c & Hc & ->). rewrite Hp in Hc. injection Hc as <-.
      simpl. rewrite lookup_insert_ne by done. split; [done|].
      intros ? [= <-]. by rewrite lookup_insert_eq.
    - subst w0. split; [done | done]. }
  (* what restoring does *)
  assert (∀ w1, (∀ b, bp = Some b → wfiles w1 !! b = Some content) →
                (∃ c1, wfiles w1 !! p = Some c1 ∧ length c1 = length content) →
                ∃ w2, restore_backup bp p w1 = (w2, Ret tt) ∧
                      (∀ q, q ≠ p → wfiles w2 !! q = wfiles w1 !! q) ∧
                      ∃ c2, wfiles w2 !! p = Some c2 ∧ length c2 = length content)
    as Hrest.
  { intros w1 Hb1 Hp1. unfold restore_backup. destruct bp as [b|]; [|eauto].
    destruct (Hbp b eq_refl) as [Hne' _].
    rewrite (proj2 (file_exists_true b w1)) by (by rewrite (Hb1 b eq_refl)).
    rewrite (copy2_ok b p w1 content) by (done || by apply Hb1).
    eexists. split; [reflexivity|]. split.
    - intros q Hq. simpl. by rewrite lookup_insert_ne.
    - simpl. rewrite lookup_insert_eq. eauto. }
  (* what the clean-up does *)
  assert (∀ s, (∃ c1, wfiles s.1 !! p = Some c1 ∧ length c1 = length content) →
               ∃ c2, wfiles (clean_backup bp p s).1 !! p = Some c2
                     ∧ length c2 = length content) as Hclean.
  { intros s Hs. unfold clean_backup. destruct bp as [b|]; [|done].
    destruct (Hbp b eq_refl) as [Hne' _].
    destruct (file_exists b s.1); [|done]. cbn [fst].
    by rewrite remove_frame. }
  unfold try_patch, write_file. rewrite Hwf. fold patched.
  set (w1 := set_files (insert p patched) w0).
  assert (wfiles w1 !! p = Some patched) as Hp1
    by (unfold w1; simpl; by rewrite lookup_insert_eq).
  assert (∀ b, bp = Some b → wfiles w1 !! b = Some content) as Hb1.
  { intros b Hbb. destruct (Hbp b Hbb) as [Hne' Hc]. unfold w1. simpl.
    by rewrite lookup_insert_ne. }
  clearbody w1.
  destruct (read_file (reread_fault (io p)) p w1) as [new_content|e]; cbn [fst].
  - destruct (negb _ && _).
    + match goal with |- context [clean_backup ?b ?q ?s] =>
        destruct (Hclean s) as (c2 & Hc2 & Hl2); [cbn [fst]; eauto|];
        destruct (clean_backup b q s) as [w2 r2] end.
      cbn [fst] in *. eauto.
    + destruct (Hrest w1 Hb1) as (w2 & -> & _ & c2 & Hc2 & Hl2); [eauto|].
      match goal with |- context [clean_backup ?b ?q ?s] =>
        destruct (Hclean s) as (c3 & Hc3 & Hl3); [cbn [fst]; eauto|];
        destruct (clean_backup b q s) as [w3 r3] end.
      cbn [fst] in *. eauto.
  - destruct (Hrest w1 Hb1) as (w2 & -> & _ & c2 & Hc2 & Hl2); [eauto|].
    cbn [fst]. eauto.
Qed.

End Meta.

End PatchMore.

(** ** The patch operations on a whole directory *)

Module PatchCoverage.

Import PyBytes PyPath Json Exn FS Patch PatchVocabulary.
Import PyBytesFacts ListFacts PyPathFacts PatchFacts ClassifyFacts.
Import Patterns PatternFacts WalkFacts PatchMore.

Lemma with_suffix_is_Some p sfx :
  name p ≠ "" → ∃ b, with_suffix p sfx = Some b.
Proof.
  intros Hn. unfold with_suffix.
  rewrite (proj2 (String.eqb_neq _ _) Hn). eauto.
Qed.

(** a target of [apply_libc_patch] is no [.bak] backup path *)
Lemma target_not_bak_backup io dir w p q :
  p ∈ patch_targets io dir w → with_suffix q ".bak" ≠ Some p.
Proof.
  intros Hin Hs. apply with_suffix_endswith in Hs.
  by destruct (bak_not_in_targets io dir w p Hs) as (_ & _ & H).
Qed.

Section Lift.

Variable D : direction.
Variable io : path → io_faults.
Variables search_pattern replacement_pattern : bytes.
Variable create_backup : bool.

Lemma patch_libc_absent dir w p content :
  p ∈ patch_targets io dir w →
  wfiles w !! p = Some content →
  read_fault (io p) = None →
  contains search_pattern content = false →
  (create_backup = true → endswith (name p) (d_backup_suffix D) = false) →
  let res := patch_libc D io search_pattern replacement_pattern create_backup dir w in
  wfiles res.1 !! p = Some content ∧
  files res.2 !! p
    = Some (FileResult (d_not_found D) None false (d_msg_not_found D)).
Proof.
  intros Hin Hp Hrd Hs Hb.
  destruct (patch_libc_at D io search_pattern replacement_pattern create_backup
              dir w p Hin) as (w0 & r0 & H0 & H1 & H2).
  { intros Hcb q _ _ Hqp. apply with_suffix_endswith in Hqp.
    specialize (Hb Hcb). congruence. }
  cbv zeta.
  rewrite (patch_one_absent D io search_pattern replacement_pattern create_backup
             p w0 r0 content) in * by (done || by rewrite H0).
  cbn [fst snd] in *. rewrite H1, H2, H0. split; [done|].
  simpl. by rewrite lookup_insert_eq.
Qed.

Lemma patch_libc_success dir w p content :
  p ∈ patch_targets io dir w →
  wfiles w !! p = Some content →
  read_fault (io p) = None →
  contains search_pattern content = true →
  contains replacement_pattern content = false →
  (create_backup = true →
   name p ≠ "" ∧ endswith (name p) (d_backup_suffix D) = false) →
  patch_goes_through (io p) search_pattern replacement_pattern content →
  let res := patch_libc D io search_pattern replacement_pattern create_backup dir w in
  wfiles res.1 !! p = Some (replace search_pattern replacement_pattern content) ∧
  status <$> files res.2 !! p = Some (d_changed D).
Proof.
  intros Hin Hp Hrd Hs Hr Hb Hgo.
  destruct (patch_libc_at D io search_pattern replacement_pattern create_backup
              dir w p Hin) as (w0 & r0 & H0 & H1 & H2).
  { intros Hcb q _ _ Hqp. apply with_suffix_endswith in Hqp.
    destruct (Hb Hcb) as [_ He]. congruence. }
  cbv zeta.
  destruct (patch_one_success D io search_pattern replacement_pattern create_backup
              p w0 r0 content) as (w' & r' & Heq & Hw' & Hst & _); try done.
  { by rewrite H0. }
  { intros Hcb. destruct (Hb Hcb) as [Hn He].
    destruct (with_suffix_is_Some p (d_backup_suffix D) Hn) as [b Hbs].
    exists b. split; [done|]. intros ->.
    apply with_suffix_endswith in Hbs. congruence. }
  rewrite Heq in *. cbn [fst snd] in *. by rewrite H1, H2.
Qed.

Lemma patch_libc_length dir w p content :
  length replacement_pattern = length search_pattern → search_pattern ≠ [] →
  p ∈ patch_targets io dir w →
  wfiles w !! p = Some content →
  write_fault (io p) = None →
  (create_backup = true → endswith (name p) (d_backup_suffix D) = false) →
  let res := patch_libc D io search_pattern replacement_pattern create_backup dir w in
  ∃ c', wfiles res.1 !! p = Some c' ∧ length c' = length content.
Proof.
  intros Hlen Hne Hin Hp Hwf Hb.
  destruct (patch_libc_at D io search_pattern replacement_pattern create_backup
              dir w p Hin) as (w0 & r0 & H0 & H1 & _).
  { intros Hcb q _ _ Hqp. apply with_suffix_endswith in Hqp.
    specialize (Hb Hcb). congruence. }
  cbv zeta. rewrite H1.
  apply patch_one_length; try done. by rewrite H0.
Qed.

End Lift.

Lemma target_not_bak io dir w p :
  p ∈ patch_targets io dir w → endswith (name p) ".bak" = false.
Proof.
  intros Hin. destruct (endswith (name p) ".bak") eqn:He; [|done].
  by destruct (bak_not_in_targets io dir w p He) as (_ & _ & H).
Qed.

Lemma default_patterns_go_through fl content :
  write_fault fl = None → reread_fault fl = None →
  (contains LIBC_PATCH_PATTERN content = true →
   patch_goes_through fl LIBC_PATCH_PATTERN LIBC_PATCH_REPLACEMENT content) ∧
  (contains LIBC_PATCH_REPLACEMENT content = true →
   patch_goes_through fl LIBC_PATCH_REPLACEMENT LIBC_PATCH_PATTERN content).
Proof.
  intros Hw Hr. destruct default_patterns_overlap_free as [H1 H2].
  split; intros Hc; (split; [done|]); (split; [done|]); split.
  - by apply replace_removes_old.
  - by apply replace_inserts_new.
  - by apply replace_removes_old.
  - by apply replace_inserts_new.
Qed.

(** Both operations skip a readable target that lacks the pattern they
    search for: its bytes are the same when the operation returns, and it is
    reported as "pattern_not_found" by [apply_libc_patch], as
    "patch_not_found" by [revert_libc_patch] (run without backups, or on a
    name that does not end in [.revert_bak]). *)
Theorem files_without_search_pattern_are_skipped io dir sp rp cb w p content :
  p ∈ patch_targets io dir w →
  wfiles w !! p = Some content →
  read_fault (io p) = None →
  (contains (default LIBC_PATCH_PATTERN sp) content = false →
   let res := apply_libc_patch io dir sp rp cb w in
   wfiles res.1 !! p = Some content ∧
   status <$> files res.2 !! p = Some "pattern_not_found") ∧
  (contains (default LIBC_PATCH_REPLACEMENT sp) content = false →
   cb = false ∨ endswith (name p) ".revert_bak" = false →
   let res := revert_libc_patch io dir sp rp cb w in
   wfiles res.1 !! p = Some content ∧
   status <$> files res.2 !! p = Some "patch_not_found").
Proof.
  intros Hin Hp Hrd. split.
  - intros Hs. unfold apply_libc_patch.
    destruct (patch_libc_absent apply_direction io (default LIBC_PATCH_PATTERN sp)
                (default LIBC_PATCH_REPLACEMENT rp) cb dir w p content) as [H1 H2];
      try done.
    + intros _. by eapply target_not_bak.
    + cbv zeta. by rewrite H1, H2.
  - intros Hs Hc. unfold revert_libc_patch.
    destruct (patch_libc_absent revert_direction io (default LIBC_PATCH_REPLACEMENT sp)
                (default LIBC_PATCH_PATTERN rp) cb dir w p content) as [H1 H2];
      try done.
    + intros ->. by destruct Hc.
    + cbv zeta. by rewrite H1, H2.
Qed.

(** Neither operation creates or removes a directory or touches the config
    file.  A file that is neither a target nor the backup path of a target
    holds the same bytes afterwards (without backups: every file that is not
    a target), and so does every file outside the directory the operation
    was given; read, write and verification failures do not change this. *)
Theorem patch_changes_only_targets_and_backups io dir sp rp cb w :
  let targets := patch_targets io dir w in
  let a := (apply_libc_patch io dir sp rp cb w).1 in
  let r := (revert_libc_patch io dir sp rp cb w).1 in
  (wdirs a = wdirs w ∧ wconfig a = wconfig w ∧
   wdirs r = wdirs w ∧ wconfig r = wconfig w) ∧
  (∀ q, q ∉ targets →
        (cb = true → ∀ t, t ∈ targets → with_suffix t ".bak" ≠ Some q) →
        wfiles a !! q = wfiles w !! q) ∧
  (∀ q, q ∉ targets →
        (cb = true → ∀ t, t ∈ targets → with_suffix t ".revert_bak" ≠ Some q) →
        wfiles r !! q = wfiles w !! q) ∧
  (∀ q, is_under dir q = false →
        wfiles a !! q = wfiles w !! q ∧ wfiles r !! q = wfiles w !! q).
Proof.
  cbv zeta. unfold apply_libc_patch, revert_libc_patch.
  destruct (patch_libc_frame apply_direction io (default LIBC_PATCH_PATTERN sp)
              (default LIBC_PATCH_REPLACEMENT rp) cb dir w) as ([A1 A2] & A3 & A4).
  destruct (patch_libc_frame revert_direction io (default LIBC_PATCH_REPLACEMENT sp)
              (default LIBC_PATCH_PATTERN rp) cb dir w) as ([R1 R2] & R3 & R4).
  split; [done|]. split; [exact A3|]. split; [exact R3|].
  intros q Hq. split; [by apply A4 | by apply R4].
Qed.

(** The default patterns have the same length, so patching keeps the size
    of a file: a target whose write does not fail has as many bytes after
    [apply_libc_patch] as before, whatever else fails; the same for
    [revert_libc_patch] run without backups or on a name that does not end
    in [.revert_bak]. *)
Theorem patch_preserves_file_length io dir cb w p content :
  p ∈ patch_targets io dir w →
  wfiles w !! p = Some content →
  write_fault (io p) = None →
  (∃ c', wfiles (apply_libc_patch io dir None None cb w).1 !! p = Some c' ∧
         length c' = length content) ∧
  (cb = false ∨ endswith (name p) ".revert_bak" = false →
   ∃ c', wfiles (revert_libc_patch io dir None None cb w).1 !! p = Some c' ∧
         length c' = length content).
Proof.
  intros Hin Hp Hwf. split.
  - apply (patch_libc_length apply_direction); try done.
    intros _. by eapply target_not_bak.
  - intros Hc. apply (patch_libc_length revert_direction); try done.
    intros ->. by destruct Hc.
Qed.

(** [apply_libc_patch] with the default patterns: a target that holds the
    original pattern and not the replacement, and that no read or write
    failure hits, holds the replaced bytes when the operation returns and is
    reported as "applied", with or without backups and whatever happens to
    the other files.  The verification cannot fail: the replaced bytes hold
    the replacement pattern and no copy of the original pattern. *)
Theorem apply_patches_original_file io dir cb w p content :
  p ∈ patch_targets io dir w →
  wfiles w !! p = Some content →
  io p = no_faults →
  contains LIBC_PATCH_PATTERN content = true →
  contains LIBC_PATCH_REPLACEMENT content = false →
  name p ≠ "" →
  let res := apply_libc_patch io dir None None cb w in
  let patched := replace LIBC_PATCH_PATTERN LIBC_PATCH_REPLACEMENT content in
  wfiles res.1 !! p = Some patched ∧
  status <$> files res.2 !! p = Some "applied" ∧
  contains LIBC_PATCH_PATTERN patched = false ∧
  contains LIBC_PATCH_REPLACEMENT patched = true.
Proof.
  intros Hin Hp Hio Hs Hr Hn. cbv zeta.
  destruct (default_patterns_go_through (io p) content) as [Hgo _];
    [by rewrite Hio..|].
  specialize (Hgo Hs).
  destruct (patch_libc_success apply_direction io LIBC_PATCH_PATTERN
              LIBC_PATCH_REPLACEMENT cb dir w p content) as [H1 H2]; try done.
  { by rewrite Hio. }
  { intros _. split; [done|]. by eapply target_not_bak. }
  split; [exact H1|]. split; [exact H2|].
  destruct Hgo as (_ & _ & Hv1 & Hv2). done.
Qed.

(** [revert_libc_patch] with the default patterns: a target that holds the
    replacement pattern and not the original, whose name does not end in
    [.revert_bak] and that no read or write failure hits, holds the bytes
    with the original pattern put back and is reported as "reverted". *)
Theorem revert_restores_patched_file io dir cb w p content :
  p ∈ patch_targets io dir w →
  wfiles w !! p = Some content →
  io p = no_faults →
  contains LIBC_PATCH_REPLACEMENT content = true →
  contains LIBC_PATCH_PATTERN content = false →
  name p ≠ "" →
  endswith (name p) ".revert_bak" = false →
  let res := revert_libc_patch io dir None None cb w in
  let restored := replace LIBC_PATCH_REPLACEMENT LIBC_PATCH_PATTERN content in
  wfiles res.1 !! p = Some restored ∧
  status <$> files res.2 !! p = Some "reverted" ∧
  contains LIBC_PATCH_REPLACEMENT restored = false ∧
  contains LIBC_PATCH_PATTERN restored = true.
Proof.
  intros Hin Hp Hio Hs Hr Hn Hb. cbv zeta.
  destruct (default_patterns_go_through (io p) content) as [_ Hgo];
    [by rewrite Hio..|].
  specialize (Hgo Hs).
  destruct (patch_libc_success revert_direction io LIBC_PATCH_REPLACEMENT
              LIBC_PATCH_PATTERN cb dir w p content) as [H1 H2]; try done.
  { by rewrite Hio. }
  split; [exact H1|]. split; [exact H2|].
  destruct Hgo as (_ & _ & Hv1 & Hv2). done.
Qed.

End PatchCoverage.

(** ** [check_libc_patch_status] *)

Module CheckFacts.

Import PyBytes PyPath Json Exn FS Patch CheckVocabulary.
Import ListFacts PatchFacts.

Section Loop.

Variable io : path → io_faults.
Variable dir : path.
Variables sp pp : bytes.
Variable w : world.

Abbreviation check := (check_one io dir sp pp w).

Lemma check_one_listed r p :
  listed_paths (check r p) ≡ₚ listed_paths r ++ [p] ∧
  total_files (check r p) = total_files r.
Proof.
  unfold check_one, listed_paths.
  destruct (read_file _ _ _) as [content|e]; cbv zeta.
  - destruct (contains sp content), (contains pp content); cbn [andb negb];
      cbn [original_files patched_files both_patterns_files no_pattern_files
           error_files total_files];
      rewrite ?map_app; cbn [map fi_path]; (split; [|done]); solve_Permutation.
  - cbn [original_files patched_files both_patterns_files no_pattern_files
         error_files total_files].
    rewrite map_app. cbn [map fst]. split; [|done]. by rewrite !app_assoc.
Qed.

Lemma check_loop_listed l r :
  listed_paths (foldl check r l) ≡ₚ listed_paths r ++ l ∧
  total_files (foldl check r l) = total_files r.
Proof.
  revert r. induction l as [|p l IH]; intros r; cbn [foldl].
  - by rewrite app_nil_r.
  - destruct (IH (check r p)) as [H1 H2].
    destruct (check_one_listed r p) as [H3 H4].
    rewrite H1, H2, H3, H4, <- app_assoc. done.
Qed.

Abbreviation sound := (classified_report io dir sp pp w).

Lemma check_one_sound r p : sound r → sound (check r p).
Proof.
  intros (H1 & H2 & H3 & H4 & H5). unfold check_one, classified_report.
  destruct (read_file _ _ _) as [content|e] eqn:Hrd; cbv zeta.
  - assert (∀ ho hp, contains sp content = ho → contains pp content = hp →
              describes io dir sp pp w ho hp
                (FileInfo p (relative_to dir p) (contains sp content)
                   (contains pp content)
                   (contains (of_str "libc") (of_str (lower (name p)))))) as Hd.
    { intros ho hp Ho Hp. exists content. done. }
    destruct (contains sp content) eqn:Ho, (contains pp content) eqn:Hp;
      cbn [andb negb];
      cbn [original_files patched_files both_patterns_files no_pattern_files
           error_files];
      repeat split; try done; apply Forall_app; (split; [done|]);
      apply Forall_singleton; by apply Hd.
  - cbn [original_files patched_files both_patterns_files no_pattern_files
         error_files].
    repeat split; try done. apply Forall_app. split; [done|].
    apply Forall_singleton. by exists e.
Qed.

Lemma check_loop_sound l r : sound r → sound (foldl check r l).
Proof.
  revert r. induction l as [|p l IH]; intros r Hr; cbn [foldl]; [done|].
  by apply IH, check_one_sound.
Qed.

End Loop.

(** [check_libc_patch_status] lists every target once: the paths in its five
    lists, taken together, are the enumerated targets, each exactly once;
    [total_files] is their number and the sum of the lengths of the five
    lists. *)
Theorem check_status_partitions_targets io dir sp pp w :
  let r := check_libc_patch_status io dir sp pp w in
  listed_paths r ≡ₚ patch_targets io dir w ∧
  NoDup (listed_paths r) ∧
  total_files r = length (patch_targets io dir w) ∧
  length (original_files r) + length (patched_files r) +
  length (both_patterns_files r) + length (no_pattern_files r) +
  length (error_files r) = total_files r.
Proof.
  cbv zeta.
  assert (listed_paths (check_libc_patch_status io dir sp pp w)
            ≡ₚ patch_targets io dir w ∧
          total_files (check_libc_patch_status io dir sp pp w)
            = length (patch_targets io dir w)) as [Hp Ht].
  { unfold check_libc_patch_status.
    destruct (patch_targets io dir w) as [|p l] eqn:Hl; [done|].
    by destruct (check_loop_listed io dir (default LIBC_PATCH_PATTERN sp)
                   (default LIBC_PATCH_REPLACEMENT pp) w (p :: l)
                   (CheckReport [] [] [] [] [] (length (p :: l)))) as [H1 H2]. }
  split; [exact Hp|]. split.
  { rewrite Hp. apply patch_targets_NoDup. }
  split; [exact Ht|].
  rewrite Ht, <- Hp. unfold listed_paths. rewrite !length_app, !length_map. lia.
Qed.

(** What the five lists of [check_libc_patch_status] mean.  Every entry of a
    pattern list belongs to a file that could be read, its two flags say
    which of the two patterns the bytes of the file hold, and the list is
    the one the flags select: original only, patch only, both, none.  Every
    entry of the error list belongs to a file whose read raised, with the
    message of that exception. *)
Theorem check_status_classifies_by_content io dir sp pp w :
  let r := check_libc_patch_status io dir sp pp w in
  let s := default LIBC_PATCH_PATTERN sp in
  let p := default LIBC_PATCH_REPLACEMENT pp in
  Forall (describes io dir s p w true false) (original_files r) ∧
  Forall (describes io dir s p w false true) (patched_files r) ∧
  Forall (describes io dir s p w true true) (both_patterns_files r) ∧
  Forall (describes io dir s p w false false) (no_pattern_files r) ∧
  Forall (read_error io w) (error_files r).
Proof.
  cbv zeta. unfold check_libc_patch_status.
  destruct (patch_targets io dir w) as [|p l]; [by repeat split|].
  apply check_loop_sound. by repeat split.
Qed.

End CheckFacts.

(** ** The stage loops: counters, entries and calls *)

Module StageFacts.

Import PyBytes PyPath Json Exn FS Pipeline PipelineVocabulary.
Import ListFacts PipelineFacts.

Lemma succeeded_insert_true (m : gmap path stage_result) f sr :
  m !! f = None → success sr = true → succeeded (<[f := sr]> m) = S (succeeded m).
Proof.
  intros Hm Hs. unfold succeeded. rewrite map_filter_insert_True by done.
  rewrite map_size_insert_None; [done|]. by apply map_lookup_filter_None_2; left.
Qed.

Lemma succeeded_insert_false (m : gmap path stage_result) f sr :
  m !! f = None → success sr = false → succeeded (<[f := sr]> m) = succeeded m.
Proof.
  intros Hm Hs. unfold succeeded. rewrite map_filter_insert_not'; [done | |].
  - simpl. congruence.
  - intros y Hy. congruence.
Qed.

Lemma balanced_empty : balanced empty_stage.
Proof. done. Qed.

(** recording a result for a fresh file and bumping the counter for its flag *)
Lemma balanced_record r f sr :
  files r !! f = None → balanced r →
  balanced (record_result f sr (if success sr then count_successful r else count_failed r)).
Proof.
  intros Hf (H1 & H2 & H3). unfold balanced.
  destruct (success sr) eqn:Hs; cbn [record_result count_successful count_failed
                                    successful failed files].
  - rewrite succeeded_insert_true, unsuccessful_insert_true by done.
    rewrite map_size_insert_None by done. lia.
  - rewrite succeeded_insert_false, unsuccessful_insert_false by done.
    rewrite map_size_insert_None by done. lia.
Qed.

Lemma balanced_record_failed r f sr :
  files r !! f = None → success sr = false → balanced r →
  balanced (record_result f sr (count_failed r)).
Proof.
  intros Hf Hs Hb. pose proof (balanced_record r f sr Hf Hb) as H.
  by rewrite Hs in H.
Qed.

Lemma recorded_cons_Some {A} (m : gmap path A) f l :
  is_Some (m !! f) → recorded m (f :: l) = f :: recorded m l.
Proof. intros H. unfold recorded. simpl. by rewrite bool_decide_eq_true_2. Qed.

Lemma recorded_cons_None {A} (m : gmap path A) f l :
  m !! f = None → recorded m (f :: l) = recorded m l.
Proof.
  intros H. unfold recorded. simpl. rewrite bool_decide_eq_false_2; [done|].
  rewrite H. by intros [? ?].
Qed.

Lemma recorded_ext {A} (m m' : gmap path A) l :
  (∀ f, f ∈ l → m !! f = m' !! f) → recorded m l = recorded m' l.
Proof.
  intros H. unfold recorded. induction l as [|f l IH]; [done|]. simpl.
  rewrite (H f) by set_solver. rewrite IH; [done|]. intros g Hg. apply H. set_solver.
Qed.

Lemma recorded_all {A} (m : gmap path A) l :
  (∀ f, f ∈ l → is_Some (m !! f)) → recorded m l = l.
Proof.
  intros H. unfold recorded. induction l as [|f l IH]; [done|]. simpl.
  rewrite bool_decide_eq_true_2 by (apply H; set_solver).
  rewrite IH; [done|]. intros g Hg. apply H. set_solver.
Qed.

Section WithEnv.

Context `{E : Env}.

(** *** The decrypt loop *)

Section DecryptLoop.

Variables input_dir output_dir : path.
Variable overwrite : bool.

Abbreviation dec := (decrypt_one input_dir output_dir overwrite).
Abbreviation convert_call f := (CallConvertFile f (output_for input_dir output_dir f)).

(** One pass either skips its file (only when [overwrite] is off) or calls
    the decoder once and records the result. *)
Lemma decrypt_one_cases s r f :
  (overwrite = false ∧ (dec (s, r) f).2 = r ∧ (dec (s, r) f).1.2 = s.2) ∨
  (∃ sr, (dec (s, r) f).2
         = record_result f sr (if success sr then count_successful r else count_failed r) ∧
         output sr = Some (output_for input_dir output_dir f) ∧
         (dec (s, r) f).1.2 = s.2 ++ [convert_call f]).
Proof.
  destruct s as [w tr]. unfold decrypt_one. cbv zeta.
  destruct (path_exists _ _ && negb overwrite) eqn:Hex.
  - left. apply andb_true_iff in Hex as [_ Hov]. apply negb_true_iff in Hov. done.
  - right. unfold output_for.
    destruct (convert_file _ _ _) as [w2 [[]|e]];
      [eexists (StageResult true _ _) | eexists (StageResult false _ _)
       | eexists (StageResult false _ _)];
      (split; [reflexivity|]); done.
Qed.

Lemma decrypt_loop_spec l s r :
  NoDup l → (∀ f, f ∈ l → files r !! f = None) → balanced r →
  let res := foldl dec (s, r) l in
  balanced res.2 ∧
  (∀ g, g ∉ l → files res.2 !! g = files r !! g) ∧
  (∀ f sr, f ∈ l → files res.2 !! f = Some sr →
           output sr = Some (output_for input_dir output_dir f)) ∧
  (overwrite = true → ∀ f, f ∈ l → is_Some (files res.2 !! f)) ∧
  res.1.2 = s.2 ++ map (λ f, convert_call f) (recorded (files res.2) l).
Proof.
  revert s r. induction l as [|f l IH]; intros s r Hnd Hfresh Hbal; cbn [foldl].
  { cbv zeta. cbn [fst snd]. rewrite app_nil_r.
    split; [done|]. split; [done|].
    split; [intros f sr Hf; by apply not_elem_of_nil in Hf|].
    split; [intros _ f Hf; by apply not_elem_of_nil in Hf | done]. }
  apply NoDup_cons in Hnd as [Hf Hnd]. cbv zeta.
  destruct (dec (s, r) f) as [s1 r1] eqn:Hstep.
  assert (files r !! f = None) as Hrf by (apply Hfresh; set_solver).
  assert (balanced r1 ∧ (∀ g, g ≠ f → files r1 !! g = files r !! g) ∧
          ((overwrite = false ∧ files r1 !! f = None ∧ s1.2 = s.2) ∨
           (∃ sr, files r1 !! f = Some sr ∧
                  output sr = Some (output_for input_dir output_dir f) ∧
                  s1.2 = s.2 ++ [convert_call f]))) as (Hb1 & Hfr1 & Hcase).
  { destruct (decrypt_one_cases s r f) as [(Hov & H2 & H3) | (sr & H1 & H2 & H3)];
      rewrite Hstep in *; cbn [fst snd] in *.
    - subst r1. split; [done|]. split; [done|]. left. done.
    - subst r1. split; [by apply balanced_record|]. split.
      + intros g Hg. destruct (success sr); simpl; by rewrite lookup_insert_ne.
      + right. exists sr. split; [|done].
        destruct (success sr); simpl; by rewrite lookup_insert_eq. }
  destruct (IH s1 r1 Hnd) as (I1 & I2 & I3 & I4 & I5); [|done|].
  { intros g Hg. rewrite Hfr1 by set_solver. apply Hfresh. set_solver. }
  cbv zeta in *.
  split; [done|]. split.
  { intros g Hg. rewrite I2 by set_solver. apply Hfr1. set_solver. }
  split.
  { intros g sr Hg Hsr. apply elem_of_cons in Hg as [-> | Hg]; [|by eapply I3].
    rewrite I2 in Hsr by done.
    destruct Hcase as [(_ & Hn & _) | (sr' & Hs' & Ho & _)]; congruence. }
  split.
  { intros Hov g Hg. apply elem_of_cons in Hg as [-> | Hg]; [|by apply I4].
    rewrite I2 by done.
    destruct Hcase as [(Hov' & _) | (sr' & Hs' & _)]; [congruence | by rewrite Hs']. }
  rewrite I5.
  destruct Hcase as [(_ & Hn & ->) | (sr' & Hs' & _ & ->)].
  - rewrite recorded_cons_None; [done|]. by rewrite I2.
  - rewrite recorded_cons_Some by (rewrite I2 by done; by rewrite Hs').
    simpl. by rewrite <- app_assoc.
Qed.

End DecryptLoop.

Lemma save_directories_files fault t i o w :
  wfiles (Config._save_directories_to_config fault t i o w).1 = wfiles w ∧
  wdirs (Config._save_directories_to_config fault t i o w).1 = wdirs w.
Proof.
  unfold Config._save_directories_to_config.
  destruct (Config.setitem_directories _ _); [|done].
  unfold Config._save_config. by destruct fault.
Qed.

Lemma find_self_files_ext d w w' :
  wfiles w = wfiles w' → Patch.find_self_files io d w = Patch.find_self_files io d w'.
Proof.
  intros H. unfold Patch.find_self_files, walk, Patch._is_self_file, Patch.read_magic.
  by rewrite H.
Qed.

Lemma find_elf_files_ext d w w' :
  wfiles w = wfiles w' → Patch.find_elf_files io d w = Patch.find_elf_files io d w'.
Proof.
  intros H. unfold Patch.find_elf_files, walk, Patch._is_elf_file, Patch.read_magic.
  by rewrite H.
Qed.

(** *** The downgrade loop *)

Lemma downgrade_one_record sdk_pair cb s r f :
  ∃ sr, (downgrade_one sdk_pair cb (s, r) f).2
        = record_result f sr (if success sr then count_successful r else count_failed r).
Proof.
  destruct s as [w tr]. unfold downgrade_one.
  destruct (patch_file sdk_pair cb f w) as [w1 [[[] msg]|e]];
    [eexists (StageResult true _ _) | eexists (StageResult false _ _)
     | eexists (StageResult false _ _)]; reflexivity.
Qed.

Lemma downgrade_loop_balanced sdk_pair cb l s r :
  NoDup l → (∀ f, f ∈ l → files r !! f = None) → balanced r →
  balanced (foldl (downgrade_one sdk_pair cb) (s, r) l).2.
Proof.
  revert s r. induction l as [|f l IH]; intros s r Hnd Hfresh Hbal; cbn [foldl]; [done|].
  apply NoDup_cons in Hnd as [Hf Hnd].
  destruct (downgrade_one_record sdk_pair cb s r f) as [sr Hsr].
  destruct (downgrade_one sdk_pair cb (s, r) f) as [s1 r1]. cbn [snd] in Hsr. subst r1.
  apply IH; [done | |].
  - intros g Hg. assert (g ≠ f) by set_solver.
    destruct (success sr); simpl; rewrite lookup_insert_ne by done;
      apply Hfresh; set_solver.
  - apply balanced_record; [|done]. apply Hfresh. set_solver.
Qed.

(** *** The sign loop *)

Section SignLoop.

Variables paid ptype : Z.
Variables input_dir output_dir : path.
Variable overwrite : bool.
Variable dg : stage_report.

Abbreviation sign := (sign_one paid ptype input_dir output_dir overwrite dg).
Abbreviation sign_call f := (CallSignFile f (output_for input_dir output_dir f)).

(** One pass: the file is skipped for its failed downgrade, or left out
    because its output exists, or handed to the signer. *)
Lemma sign_one_cases s r f :
  (downgrade_ok dg f = false ∧
   (sign (s, r) f).2 = record_result f skipped_entry (count_failed r) ∧
   (sign (s, r) f).1.2 = s.2) ∨
  (downgrade_ok dg f = true ∧ overwrite = false ∧
   (sign (s, r) f).2 = r ∧ (sign (s, r) f).1.2 = s.2) ∨
  (downgrade_ok dg f = true ∧
   ∃ sr, (sign (s, r) f).2
         = record_result f sr (if success sr then count_successful r else count_failed r) ∧
         output sr = Some (output_for input_dir output_dir f) ∧
         (sign (s, r) f).1.2 = s.2 ++ [sign_call f]).
Proof.
  destruct s as [w tr]. unfold sign_one.
  destruct (downgrade_ok dg f); cbn [negb]; [|by left].
  right. cbv zeta.
  destruct (path_exists _ _ && negb overwrite) eqn:Hex.
  - left. apply andb_true_iff in Hex as [_ Hov]. apply negb_true_iff in Hov. done.
  - right. split; [done|]. unfold output_for.
    destruct (sign_file _ _ _ _ _) as [w2 [[]|e]];
      [eexists (StageResult true _ _) | eexists (StageResult false _ _)
       | eexists (StageResult false _ _)];
      (split; [reflexivity|]); done.
Qed.

Lemma sign_loop_spec l s r :
  NoDup l → (∀ f, f ∈ l → files r !! f = None) → balanced r →
  let res := foldl sign (s, r) l in
  balanced res.2 ∧
  (∀ g, g ∉ l → files res.2 !! g = files r !! g) ∧
  (∀ f sr, f ∈ l → files res.2 !! f = Some sr → success sr = true →
           downgrade_ok dg f = true) ∧
  res.1.2 = s.2 ++ map (λ f, sign_call f) (with_output (files res.2) l).
Proof.
  revert s r. induction l as [|f l IH]; intros s r Hnd Hfresh Hbal; cbn [foldl].
  { cbv zeta. cbn [fst snd]. rewrite app_nil_r. split; [done|]. split; [done|].
    split; [intros f sr Hf; by apply not_elem_of_nil in Hf | done]. }
  apply NoDup_cons in Hnd as [Hf Hnd]. cbv zeta.
  assert (files r !! f = None) as Hrf by (apply Hfresh; set_solver).
  pose proof (sign_one_cases s r f) as Hcases.
  destruct (sign (s, r) f) as [s1 r1] eqn:Hstep. cbn [fst snd] in Hcases.
  assert (balanced r1 ∧ (∀ g, g ≠ f → files r1 !! g = files r !! g) ∧
          (∀ sr, files r1 !! f = Some sr → success sr = true →
                 downgrade_ok dg f = true) ∧
          ((s1.2 = s.2 ∧
            match files r1 !! f with
            | Some sr => output sr = None
            | None => True
            end) ∨
           (s1.2 = s.2 ++ [sign_call f] ∧
            ∃ sr, files r1 !! f = Some sr ∧ is_Some (output sr))))
    as (Hb1 & Hfr1 & Hok1 & Htr1).
  { destruct Hcases as [(Hno & -> & Ht) | [(Hok & Hov & -> & Ht) | (Hok & sr & -> & Ho & Ht)]].
    - split; [by apply balanced_record_failed|].
      split; [intros g Hg; simpl; by rewrite lookup_insert_ne|].
      split; [simpl; rewrite lookup_insert_eq; by intros ? [= <-]|].
      left. split; [done|]. simpl. by rewrite lookup_insert_eq.
    - split; [done|]. split; [done|]. split; [by rewrite Hrf|].
      left. split; [done|]. by rewrite Hrf.
    - split; [by apply balanced_record|].
      split; [intros g Hg; destruct (success sr); simpl; by rewrite lookup_insert_ne|].
      split; [done|]. right. split; [done|]. exists sr.
      split; [destruct (success sr); simpl; by rewrite lookup_insert_eq|].
      by rewrite Ho. }
  destruct (IH s1 r1 Hnd) as (I1 & I2 & I3 & I4); [|done|].
  { intros g Hg. rewrite Hfr1 by set_solver. apply Hfresh. set_solver. }
  cbv zeta in *.
  split; [done|]. split.
  { intros g Hg. rewrite I2 by set_solver. apply Hfr1. set_solver. }
  split.
  { intros g sr Hg Hsr Hs. apply elem_of_cons in Hg as [-> | Hg]; [|by eapply I3].
    rewrite I2 in Hsr by done. by eapply Hok1. }
  rewrite I4. unfold with_output. cbn [List.filter]. rewrite (I2 f Hf).
  destruct Htr1 as [[-> Hm] | [-> (sr & Hsr & Ho)]].
  - destruct (files r1 !! f) as [sr|]; [|done]. rewrite Hm.
    rewrite bool_decide_eq_false_2; [done|]. by intros [? ?].
  - rewrite Hsr, bool_decide_eq_true_2 by done. simpl. by rewrite <- app_assoc.
Qed.

End SignLoop.

Section DowngradeAndSign.

Variables input_dir output_dir : path.
Variables sdk_pair paid ptype : Z.
Variable fakelib_source : option path.
Variables create_backup overwrite apply_libc_patch auto_revert_for_high_sdk : bool.
Variable save_to_config : bool.

Abbreviation run :=
  (downgrade_and_sign input_dir output_dir sdk_pair paid ptype fakelib_source
     create_backup overwrite apply_libc_patch auto_revert_for_high_sdk save_to_config).

Lemma downgrade_ok_true dg f :
  downgrade_ok dg f = true ↔ ∃ sr, files dg !! f = Some sr ∧ success sr = true.
Proof.
  unfold downgrade_ok. destruct (files dg !! f) as [sr|]; simpl; naive_solver.
Qed.

Lemma downgrade_and_sign_inv s s' r :
  run s = (s', Ret r) →
  let elf_files := Patch.find_elf_files io input_dir s.1 in
  balanced (downgrade r) ∧ balanced (signing r) ∧
  (∀ f, f ∈ elf_files ↔ is_Some (files (downgrade r) !! f)) ∧
  successful (downgrade r) + failed (downgrade r) = length elf_files ∧
  (∀ f, is_Some (files (signing r) !! f) → f ∈ elf_files) ∧
  successful (signing r) ≤ successful (downgrade r) ∧
  s'.2 = s.2 ++ [CallDowngradeAndSign input_dir output_dir]
             ++ map CallPatchFile elf_files
             ++ map (λ f, CallSignFile f (output_for input_dir output_dir f))
                    (with_output (files (signing r)) elf_files)
             ++ match elf_files with
                | [] => []
                | _ :: _ =>
                    libc_calls output_dir sdk_pair apply_libc_patch
                               auto_revert_for_high_sdk
                    ++ fakelib_calls fakelib_source output_dir
                end.
Proof.
  destruct s as [w tr]. unfold downgrade_and_sign. cbn [fst snd].
  assert (∃ w0 saved, (if save_to_config
                       then Config._save_directories_to_config cfg_write_fault now
                              (show_path input_dir) (show_path output_dir) w
                       else (w, Ret tt)) = (w0, saved) ∧ wfiles w0 = wfiles w)
    as (w0 & saved & -> & Hw0).
  { destruct save_to_config; [|by eauto].
    pose proof (save_directories_files cfg_write_fault now (show_path input_dir)
                  (show_path output_dir) w) as [H _].
    destruct (Config._save_directories_to_config _ _ _ _ _) as [w0 saved]. eauto. }
  destruct saved as [[]|e]; [|done].
  destruct (set_versions_by_pair sdk_pair) as [v|e0]; [|done].
  rewrite <- (find_elf_files_ext input_dir w0 w Hw0).
  pose proof (find_elf_files_NoDup input_dir w0) as Hnd.
  destruct (Patch.find_elf_files io input_dir w0) as [|f l] eqn:Hl.
  { intros [= <- <-]. cbv zeta.
    cbn [downgrade signing empty_stage files successful failed snd with_output
         List.filter map length].
    rewrite !app_nil_r.
    split; [apply balanced_empty|]. split; [apply balanced_empty|].
    split. { intros f. rewrite lookup_empty. split; [set_solver | by intros [? ?]]. }
    split; [done|].
    split. { intros f. rewrite lookup_empty. by intros [? ?]. }
    done. }
  set (elf_files := f :: l) in *.
  pose proof (downgrade_loop_balanced sdk_pair create_backup elf_files
                (w0, tr ++ [CallDowngradeAndSign input_dir output_dir]) empty_stage Hnd)
    as Hdb.
  pose proof (downgrade_loop_dom sdk_pair create_backup elf_files
                (w0, tr ++ [CallDowngradeAndSign input_dir output_dir]) empty_stage)
    as Hdd.
  pose proof (downgrade_loop_trace sdk_pair create_backup elf_files
                (w0, tr ++ [CallDowngradeAndSign input_dir output_dir]) empty_stage)
    as Hdt.
  destruct (foldl (downgrade_one _ _) _ _) as [s1 dg].
  cbn [fst snd] in *.
  specialize (Hdb ltac:(done) balanced_empty).
  pose proof (sign_loop_spec paid ptype input_dir output_dir overwrite dg elf_files
                (mkdir_p output_dir s1.1, s1.2) empty_stage Hnd)
    as Hsg.
  destruct (foldl (sign_one _ _ _ _ _ _) _ _) as [s3 sg].
  destruct Hsg as (G1 & G2 & G3 & G4); [done | apply balanced_empty |].
  cbn [fst snd] in *.
  pose proof (libc_step_trace output_dir sdk_pair apply_libc_patch
                auto_revert_for_high_sdk s3) as H3.
  destruct (libc_step _ _ _ _ _) as [s4 lp].
  pose proof (fakelib_step_trace fakelib_source output_dir s4) as H4.
  destruct (fakelib_step _ _ _) as [s5 fl].
  intros [= <- <-]. cbv zeta. cbn [downgrade signing fst snd] in *.
  assert (∀ g, g ∈ elf_files ↔ is_Some (files dg !! g)) as Hdom.
  { intros g. rewrite <- elem_of_dom, Hdd. cbn [empty_stage files].
    rewrite dom_empty_L. set_solver. }
  split; [done|]. split; [done|]. split; [done|].
  split.
  { destruct Hdb as (_ & _ & ->). rewrite <- size_dom, Hdd. cbn [empty_stage files].
    rewrite dom_empty_L, union_empty_r_L. by apply size_list_to_set. }
  split.
  { intros g [sr Hg]. destruct (decide (g ∈ elf_files)) as [|Hn]; [done|].
    rewrite G2 in Hg by done. cbn [empty_stage files] in Hg.
    by rewrite lookup_empty in Hg. }
  split.
  { destruct Hdb as (-> & _ & _). destruct G1 as (-> & _ & _).
    unfold succeeded. rewrite <- !size_dom. apply subseteq_size.
    intros g Hg. apply elem_of_dom in Hg as [sr Hsr].
    apply map_lookup_filter_Some in Hsr as [Hsr Hs]. cbn [snd] in Hs.
    assert (g ∈ elf_files) as Hin.
    { destruct (decide (g ∈ elf_files)) as [|Hn]; [done|].
      rewrite G2 in Hsr by done. cbn [empty_stage files] in Hsr.
      by rewrite lookup_empty in Hsr. }
    apply (G3 g sr Hin Hsr), downgrade_ok_true in Hs as (sr' & Hd' & Hs').
    apply elem_of_dom. exists sr'. by apply map_lookup_filter_Some. }
  rewrite H4, H3, G4, Hdt. by rewrite <- !app_assoc.
Qed.

Lemma downgrade_and_sign_dirs s s' r :
  run s = (s', Ret r) → ds_input_dir r = input_dir ∧ ds_output_dir r = output_dir.
Proof.
  destruct s as [w tr]. unfold downgrade_and_sign.
  destruct (if save_to_config then _ else _) as [w0 [[]|e0]]; [|done].
  destruct (set_versions_by_pair sdk_pair) as [v|e0]; [|done].
  destruct (Patch.find_elf_files io input_dir w0) as [|f l]; [by intros [= <- <-]|].
  destruct (foldl (downgrade_one _ _) _ _) as [s1 dg].
  destruct (foldl (sign_one _ _ _ _ _ _) _ _) as [s3 sg].
  destruct (libc_step _ _ _ _ _) as [s4 lp].
  destruct (fakelib_step _ _ _) as [s5 fl]. by intros [= <- <-].
Qed.

End DowngradeAndSign.

End WithEnv.

End StageFacts.

(** ** The stages as a whole *)

Module PipelineCoverage.

Import PyBytes PyPath Json Exn FS Pipeline PipelineVocabulary.
Import ListFacts PipelineFacts StageFacts WalkFacts PatchMore.

Section WithEnv.

Context `{E : Env}.

(** Every returning run of [decrypt_files] accounts for what it did.  The
    two counters count the recorded files by their [success] flag and add
    up to their number; only SELF files of the input directory are
    recorded, each with the output path that mirrors its place below the
    input directory; with [overwrite] set every SELF file is recorded; and
    the decoder is called exactly once for each recorded file, in
    enumeration order, and for nothing else. *)
Theorem decrypt_files_accounts_for_every_file
    input_dir output_dir overwrite save_to_config s s' dr :
  decrypt_files input_dir output_dir overwrite save_to_config s = (s', Ret dr) →
  let r := dr_counts dr in
  let self_files := Patch.find_self_files io input_dir s.1 in
  balanced r ∧
  (∀ f sr, files r !! f = Some sr →
           f ∈ self_files ∧ output sr = Some (output_for input_dir output_dir f)) ∧
  (overwrite = true → ∀ f, f ∈ self_files → is_Some (files r !! f)) ∧
  s'.2 = s.2 ++ map (λ f, CallConvertFile f (output_for input_dir output_dir f))
                    (recorded (files r) self_files).
Proof.
  destruct s as [w tr]. unfold decrypt_files. cbn [fst snd].
  assert (∃ w0 saved, (if save_to_config
                       then Config._save_directories_to_config cfg_write_fault now
                              (show_path input_dir) (show_path output_dir) w
                       else (w, Ret tt)) = (w0, saved) ∧ wfiles w0 = wfiles w)
    as (w0 & saved & -> & Hw0).
  { destruct save_to_config; [|by eauto].
    pose proof (save_directories_files cfg_write_fault now (show_path input_dir)
                  (show_path output_dir) w) as [H _].
    destruct (Config._save_directories_to_config _ _ _ _ _) as [w0 saved]. eauto. }
  destruct saved as [[]|e]; [|done].
  rewrite <- (find_self_files_ext input_dir w0 w Hw0).
  pose proof (find_self_files_NoDup input_dir w0) as Hnd.
  destruct (Patch.find_self_files io input_dir w0) as [|f l] eqn:Hl.
  { intros [= <- <-]. cbv zeta. cbn [dr_counts empty_stage files snd recorded List.filter map].
    rewrite app_nil_r. split; [apply balanced_empty|].
    split; [intros f sr Hf; by rewrite lookup_empty in Hf|].
    split; [intros _ f Hf; by apply not_elem_of_nil in Hf | done]. }
  destruct (decrypt_loop_spec input_dir output_dir overwrite (f :: l)
              (mkdir_p output_dir w0, tr) empty_stage Hnd)
    as (H1 & H2 & H3 & H4 & H5); [done | apply balanced_empty |].
  cbv zeta in *.
  destruct (foldl _ _ _) as [s1 r1]. intros [= <- <-]. cbn [dr_counts fst snd] in *.
  split; [done|]. split; [|done].
  intros g sr Hg.
  destruct (decide (g ∈ f :: l)) as [Hin|Hin].
  - split; [done|]. by eapply H3.
  - rewrite H2 in Hg by done. cbn [empty_stage files] in Hg.
    by rewrite lookup_empty in Hg.
Qed.

(** Every returning run of [downgrade_and_sign] accounts for what it did.
    In both stage reports the counters count the entries by their [success]
    flag; the downgrade report has an entry for exactly the ELF files of the
    input directory, the signing report only for such files, and no more
    files are signed than were downgraded.  The calls of the run are, in
    this order: the version patcher once on every ELF file, the signer once
    on every file whose signing entry names an output, then the libc step
    and the fakelib step the flags select (none of the two when there is no
    ELF file). *)
Theorem downgrade_and_sign_accounts_for_every_file
    input_dir output_dir sdk_pair paid ptype fakelib_source
    create_backup overwrite apply_libc_patch auto_revert_for_high_sdk save_to_config
    s s' r :
  downgrade_and_sign input_dir output_dir sdk_pair paid ptype fakelib_source
    create_backup overwrite apply_libc_patch auto_revert_for_high_sdk save_to_config s
  = (s', Ret r) →
  let elf_files := Patch.find_elf_files io input_dir s.1 in
  balanced (downgrade r) ∧ balanced (signing r) ∧
  (∀ f, f ∈ elf_files ↔ is_Some (files (downgrade r) !! f)) ∧
  successful (downgrade r) + failed (downgrade r) = length elf_files ∧
  (∀ f, is_Some (files (signing r) !! f) → f ∈ elf_files) ∧
  successful (signing r) ≤ successful (downgrade r) ∧
  s'.2 = s.2 ++ [CallDowngradeAndSign input_dir output_dir]
             ++ map CallPatchFile elf_files
             ++ map (λ f, CallSignFile f (output_for input_dir output_dir f))
                    (with_output (files (signing r)) elf_files)
             ++ match elf_files with
                | [] => []
                | _ :: _ =>
                    libc_calls output_dir sdk_pair apply_libc_patch
                               auto_revert_for_high_sdk
                    ++ fakelib_calls fakelib_source output_dir
                end.
Proof. apply downgrade_and_sign_inv. Qed.


(** Step 3 of [downgrade_and_sign] runs the libc operation without backups:
    whatever the flags and the pair, it creates and removes no directory,
    leaves the config file alone, and changes no file but the patch targets
    of the output directory, so nothing outside the output directory and no
    file that is neither a signed executable nor a [libc.prx]. *)
Theorem libc_step_changes_only_targets output_dir sdk_pair ap au s :
  let res := libc_step output_dir sdk_pair ap au s in
  wdirs res.1.1 = wdirs s.1 ∧ wconfig res.1.1 = wconfig s.1 ∧
  (∀ q, q ∉ Patch.patch_targets io output_dir s.1 →
        wfiles res.1.1 !! q = wfiles s.1 !! q) ∧
  (∀ q, is_under output_dir q = false → wfiles res.1.1 !! q = wfiles s.1 !! q).
Proof.
  destruct s as [w tr]. unfold libc_step. cbv zeta. cbn [fst snd].
  destruct ap; [|done].
  destruct (sdk_pair <=? 6)%Z.
  - unfold Patch.apply_libc_patch.
    destruct (patch_libc_frame Patch.apply_direction io
                (default Patch.LIBC_PATCH_PATTERN None)
                (default Patch.LIBC_PATCH_REPLACEMENT None) false output_dir w)
      as ([A1 A2] & A3 & A4).
    destruct (Patch.patch_libc _ _ _ _ _ _ _) as [w1 r1]. cbn [fst snd] in *.
    repeat split; try done. intros q Hq. by apply A3.
  - destruct au; [|done].
    unfold Patch.revert_libc_patch.
    destruct (patch_libc_frame Patch.revert_direction io
                (default Patch.LIBC_PATCH_REPLACEMENT None)
                (default Patch.LIBC_PATCH_PATTERN None) false output_dir w)
      as ([A1 A2] & A3 & A4).
    destruct (Patch.patch_libc _ _ _ _ _ _ _) as [w1 r1]. cbn [fst snd] in *.
    repeat split; try done. intros q Hq. by apply A3.
Qed.

End WithEnv.

End PipelineCoverage.

(** ** The config round trip, and the wiring of the full pipeline *)

Module ConfigCoverage.

Import PyPath Json Exn FS Config ConfigFacts.

(** What [_save_directories_to_config] writes is what
    [get_last_directories] reads: after a save that reaches the disk, on a
    config file that was absent, unusable or held a JSON object, the two
    directories come back as saved; the other top-level keys of an existing
    object are kept, and no file or directory is touched. *)
Theorem saved_directories_are_read_back t i o w :
  object_or_unusable (wconfig w) →
  let w' := (_save_directories_to_config None t i o w).1 in
  get_last_directories w' = Ret (JStr i, JStr o) ∧
  wfiles w' = wfiles w ∧ wdirs w' = wdirs w ∧
  (∀ m, wconfig w = CfgJson (JObj m) →
        ∃ m', wconfig w' = CfgJson (JObj m') ∧
              ∀ k, k ≠ "directories" → m' !! k = m !! k).
Proof.
  intros Hc. cbv zeta.
  unfold _save_directories_to_config, get_last_directories, _load_config.
  assert (∀ m : gmap string json,
            dict_get (JObj (<["directories" := directories_entry i o t]> m))
                     "directories" (JObj ∅) = Ret (directories_entry i o t)) as Hget.
  { intros m. simpl. by rewrite lookup_insert_eq. }
  destruct (wconfig w) as [| | |[| | | | | |m]] eqn:Hw; try done;
    cbn [setitem_directories default_config _save_config set_config fst wconfig
         wfiles wdirs];
    rewrite Hget; (split; [reflexivity|]); (split; [done|]); (split; [done|]);
    intros m0; try done.
  intros [= <-]. eexists. split; [done|]. intros k Hk. by rewrite lookup_insert_ne.
Qed.

End ConfigCoverage.

Module PipelineWiring.

Import PyBytes PyPath Json Exn FS Pipeline PipelineVocabulary.
Import ListFacts PipelineFacts StageFacts.

Section WithEnv.

Context `{E : Env}.

Lemma decrypt_files_dirs input_dir output_dir overwrite stc s s' dr :
  decrypt_files input_dir output_dir overwrite stc s = (s', Ret dr) →
  dr_input_dir dr = input_dir ∧ dr_output_dir dr = output_dir.
Proof.
  destruct s as [w tr]. unfold decrypt_files.
  destruct (if stc then _ else _) as [w0 [[]|e0]]; [|done].
  destruct (Patch.find_self_files io input_dir w0) as [|f l]; [by intros [= <- <-]|].
  destruct (foldl _ _ _) as [s1 r]. by intros [= <- <-].
Qed.

Lemma filter_stage_downstream evs :
  Forall (λ e, is_downstream_call e = false) evs → List.filter is_stage_call evs = [].
Proof.
  induction 1 as [|e evs He _ IH]; [done|]. simpl. rewrite IH. by destruct e.
Qed.

Lemma filter_stage_map {A} (f : A → event) l :
  (∀ x, is_stage_call (f x) = false) → List.filter is_stage_call (map f l) = [].
Proof. intros H. induction l as [|x l IH]; [done|]. simpl. by rewrite H. Qed.

Lemma filter_stage_libc o p ap au : List.filter is_stage_call (libc_calls o p ap au) = [].
Proof.
  unfold libc_calls. destruct ap; [|done]. destruct (p <=? 6)%Z; [done|]. by destruct au.
Qed.

Lemma filter_stage_fakelib src o : List.filter is_stage_call (fakelib_calls src o) = [].
Proof. by destruct src. Qed.

(** How [process_full_pipeline] wires its two stages.  A returning run
    reports the directories it was given; its decrypt stage wrote to the
    temporary directory.  It either aborts, exactly when no file was
    decrypted successfully, and then the downstream stage is not called; or
    it calls [downgrade_and_sign] exactly once, to read the temporary
    directory and to write the output directory, and reports its results. *)
Theorem process_full_pipeline_hands_over_temp_dir
    input_dir output_dir sdk_pair paid ptype fakelib_source
    create_backup overwrite apply_libc_patch auto_revert_for_high_sdk s s' res :
  process_full_pipeline input_dir output_dir sdk_pair paid ptype fakelib_source
    create_backup overwrite apply_libc_patch auto_revert_for_high_sdk s = (s', Ret res) →
  let temp_dir := mkdtemp s.1 in
  fp_input_dir res = input_dir ∧ fp_output_dir res = output_dir ∧
  dr_input_dir (decrypt res) = input_dir ∧ dr_output_dir (decrypt res) = temp_dir ∧
  ∃ evs, s'.2 = s.2 ++ evs ∧
    match downgrade_and_sign_results res with
    | Aborted _ _ _ =>
        successful (dr_counts (decrypt res)) = 0 ∧
        List.filter is_stage_call evs = []
    | Completed r =>
        0 < successful (dr_counts (decrypt res)) ∧
        ds_input_dir r = temp_dir ∧ ds_output_dir r = output_dir ∧
        List.filter is_stage_call evs = [CallDowngradeAndSign temp_dir output_dir]
    end.
Proof.
  cbv zeta. unfold process_full_pipeline, pipeline_body.
  set (temp_dir := mkdtemp s.1).
  set (s0 := (set_dirs (λ ds, ds ∪ {[temp_dir]}) s.1, s.2)).
  destruct (decrypt_files input_dir temp_dir overwrite false s0) as [s1 [dr|e]] eqn:Hd;
    [|done].
  destruct (decrypt_files_dirs _ _ _ _ _ _ _ Hd) as [Hdi Hdo].
  destruct (decrypt_files_trace _ _ _ _ _ _ Hd) as (evs1 & Ht1 & Hf1).
  apply filter_stage_downstream in Hf1.
  destruct (successful (dr_counts dr) =? 0) eqn:Hz.
  - apply Nat.eqb_eq in Hz. intros [= <- <-]. cbn [fst snd fp_input_dir fp_output_dir
      decrypt downgrade_and_sign_results abort_report].
    repeat (split; [done|]). exists evs1. done.
  - apply Nat.eqb_neq in Hz.
    destruct (Config._save_directories_to_config _ _ _ _ _) as [w2 [[]|e]]; [|done].
    destruct (downgrade_and_sign temp_dir output_dir sdk_pair paid ptype fakelib_source
                create_backup overwrite apply_libc_patch auto_revert_for_high_sdk false
                (w2, s1.2)) as [s3 [r|e]] eqn:Hr; [|done].
    destruct (downgrade_and_sign_dirs _ _ _ _ _ _ _ _ _ _ _ _ _ _ Hr) as [Hri Hro].
    destruct (downgrade_and_sign_inv _ _ _ _ _ _ _ _ _ _ _ _ _ _ Hr)
      as (_ & _ & _ & _ & _ & _ & Ht3).
    intros [= <- <-]. cbn [fst snd fp_input_dir fp_output_dir
      decrypt downgrade_and_sign_results] in *.
    repeat (split; [done|]).
    eexists. split.
    { rewrite Ht3, Ht1. rewrite <- app_assoc. reflexivity. }
    split; [lia|]. split; [done|]. split; [done|].
    rewrite !List.filter_app, Hf1. cbn [List.filter is_stage_call app].
    rewrite !filter_stage_map by done. f_equal.
    destruct (Patch.find_elf_files io temp_dir w2); [done|].
    by rewrite List.filter_app, filter_stage_libc, filter_stage_fakelib.
Qed.

End WithEnv.

End PipelineWiring.

(** ** The fakelib copies *)

Module FakelibFacts.

Import PyBytes PyPath Json Exn FS Fakelib.
Import ListFacts WalkFacts.

Lemma relocate_app src dst k : relocate src dst (src ++ k) = dst ++ k.
Proof. unfold relocate. by rewrite drop_app_length. Qed.

Lemma walk_nil_under d w p : walk d w = [] → is_under d p = true → wfiles w !! p = None.
Proof.
  intros Hw Hu. destruct (wfiles w !! p) as [c|] eqn:Hp; [|done].
  assert (p ∈ walk d w) as Hin by (apply elem_of_walk; by rewrite Hp).
  rewrite Hw in Hin. by apply not_elem_of_nil in Hin.
Qed.

Lemma walk_not_nil d w p c : is_under d p = true → wfiles w !! p = Some c → walk d w ≠ [].
Proof.
  intros Hu Hp Hw. by rewrite (walk_nil_under d w p Hw Hu) in Hp.
Qed.

Lemma file_exists_false p w : file_exists p w = false ↔ wfiles w !! p = None.
Proof.
  unfold file_exists. rewrite bool_decide_eq_false, <- eq_None_not_Some. done.
Qed.

(** nothing is at or below a path that does not exist *)
Lemma exists_false d w :
  exists_ d w = false →
  ∀ q, d `prefix_of` q → wfiles w !! q = None ∧ q ∉ wdirs w.
Proof.
  unfold exists_, is_dir. intros H q Hq.
  apply orb_false_iff in H as [Hf H]. rewrite Hf in H. cbn [negb andb] in H.
  apply orb_false_iff in H as [Hd Hw].
  apply negb_false_iff, bool_decide_eq_true in Hd, Hw.
  apply file_exists_false in Hf. split.
  - destruct (decide (q = d)) as [->|Hne]; [done|].
    apply (walk_nil_under d w q Hw). unfold is_under.
    rewrite bool_decide_eq_true_2 by done. by rewrite bool_decide_eq_false_2.
  - intros Hin. assert (q ∈ filter (λ q, d `prefix_of` q) (wdirs w)) as Hin'
      by (by apply elem_of_filter).
    rewrite Hd in Hin'. set_solver.
Qed.

Lemma rmtree_lookup d w q :
  wfiles (rmtree d w) !! q = if decide (d `prefix_of` q) then None else wfiles w !! q.
Proof.
  unfold rmtree. cbn [wfiles]. destruct (decide (d `prefix_of` q)) as [Hp|Hp].
  - apply map_lookup_filter_None_2. right. intros x _ H. by apply H.
  - destruct (wfiles w !! q) as [c|] eqn:Hq.
    + by apply map_lookup_filter_Some_2.
    + apply map_lookup_filter_None_2. by left.
Qed.

Lemma rmtree_dirs d w q : q ∈ wdirs (rmtree d w) ↔ q ∈ wdirs w ∧ ¬ d `prefix_of` q.
Proof. unfold rmtree. cbn [wdirs]. rewrite elem_of_filter. tauto. Qed.

(** after [rmtree] nothing is at the path *)
Lemma rmtree_exists d w : exists_ d (rmtree d w) = false.
Proof.
  unfold exists_, is_dir.
  assert (file_exists d (rmtree d w) = false) as ->.
  { apply file_exists_false. rewrite rmtree_lookup. by rewrite decide_True. }
  cbn [negb andb orb]. apply orb_false_iff. split; apply negb_false_iff, bool_decide_eq_true.
  - apply set_eq. intros q. rewrite elem_of_filter, rmtree_dirs. set_solver.
  - destruct (walk d (rmtree d w)) as [|p l] eqn:Hw; [done|].
    assert (p ∈ walk d (rmtree d w)) as Hin by (rewrite Hw; set_solver).
    apply elem_of_walk in Hin as [Hu [c Hc]].
    rewrite rmtree_lookup in Hc. apply is_under_spec in Hu as (k & _ & ->).
    rewrite decide_True in Hc by (by eexists). done.
Qed.

Section Copy.

Variables src dst : path.
Variable w : world.

Abbreviation copied :=
  (map (λ kv : path * bytes, (relocate src dst kv.1, kv.2))
       (List.filter (λ kv : path * bytes, is_under src kv.1) (map_to_list (wfiles w)))).

Lemma elem_of_copied q c :
  (q, c) ∈ copied ↔ ∃ k, k ≠ [] ∧ wfiles w !! (src ++ k) = Some c ∧ q = dst ++ k.
Proof.
  rewrite list_elem_of_fmap. split.
  - intros ([p c'] & [= -> ->] & Hin). apply elem_of_list_filter in Hin as [Hu Hin].
    apply elem_of_map_to_list in Hin. cbn [fst snd] in *.
    apply is_under_spec in Hu as (k & Hk & ->). exists k.
    by rewrite relocate_app.
  - intros (k & Hk & Hc & ->). exists (src ++ k, c). cbn [fst snd].
    rewrite relocate_app. split; [done|]. apply elem_of_list_filter. split.
    + cbn [fst]. apply is_under_spec. by exists k.
    + by apply elem_of_map_to_list.
Qed.

Lemma NoDup_copied : NoDup copied.*1.
Proof.
  rewrite <- list_fmap_compose.
  apply NoDup_fmap_2_strong.
  - intros [p c] [p' c'] Hin Hin' Heq. cbn [compose fst snd] in Heq.
    apply elem_of_list_filter in Hin as [Hu Hin], Hin' as [Hu' Hin'].
    apply elem_of_map_to_list in Hin, Hin'. cbn [fst] in *.
    apply is_under_spec in Hu as (k & _ & ->), Hu' as (k' & _ & ->).
    rewrite !relocate_app in Heq. apply app_inv_head in Heq as ->.
    f_equal. congruence.
  - apply NoDup_list_filter. apply NoDup_map_to_list.
Qed.

Lemma lookup_copied_Some k c :
  k ≠ [] → wfiles w !! (src ++ k) = Some c →
  (list_to_map copied : gmap path bytes) !! (dst ++ k) = Some c.
Proof.
  intros Hk Hc. apply elem_of_list_to_map_1; [apply NoDup_copied|].
  apply elem_of_copied. by exists k.
Qed.

Lemma lookup_copied_None q :
  (∀ k, k ≠ [] → q = dst ++ k → wfiles w !! (src ++ k) = None) →
  (list_to_map copied : gmap path bytes) !! q = None.
Proof.
  intros H. apply not_elem_of_list_to_map_1. intros Hin.
  apply list_elem_of_fmap in Hin as ([q' c] & -> & Hin). cbn [fst] in *.
  apply elem_of_copied in Hin as (k & Hk & Hc & ->).
  rewrite (H k Hk eq_refl) in Hc. done.
Qed.

(** [copytree] changes nothing outside its destination *)
Lemma copytree_frame q :
  ¬ dst `prefix_of` q → wfiles (copytree src dst w).1 !! q = wfiles w !! q.
Proof.
  intros Hq. unfold copytree.
  destruct (file_exists src w); [done|].
  destruct (negb (is_dir src w)); [done|].
  destruct (exists_ dst w); [done|].
  case_bool_decide; [done|]. cbn [fst wfiles].
  rewrite lookup_union_r; [done|].
  apply lookup_copied_None. intros k _ ->. exfalso. apply Hq. by eexists.
Qed.

Lemma copytree_config : wconfig (copytree src dst w).1 = wconfig w.
Proof.
  unfold copytree.
  destruct (file_exists src w); [done|].
  destruct (negb (is_dir src w)); [done|].
  destruct (exists_ dst w); [done|].
  by case_bool_decide.
Qed.

(** a copy that goes through mirrors the source below the destination *)
Lemma copytree_ok :
  is_dir src w = true → exists_ dst w = false → ¬ src `prefix_of` dst →
  (copytree src dst w).2 = Ret tt ∧
  ∀ k, k ≠ [] → wfiles (copytree src dst w).1 !! (dst ++ k) = wfiles w !! (src ++ k).
Proof.
  intros Hd He Hp. unfold copytree.
  assert (file_exists src w = false) as ->.
  { unfold is_dir in Hd. apply andb_true_iff in Hd as [Hd _]. by apply negb_true_iff. }
  rewrite Hd, He. cbn [negb]. rewrite bool_decide_eq_false_2 by done.
  split; [done|]. intros k Hk. cbn [fst wfiles].
  destruct (wfiles w !! (src ++ k)) as [c|] eqn:Hc.
  - apply lookup_union_Some_l. by apply lookup_copied_Some.
  - rewrite lookup_union_r.
    + apply (exists_false dst w He). by eexists.
    + apply lookup_copied_None. intros k' _ Heq. apply app_inv_head in Heq as <-. done.
Qed.

End Copy.

Lemma rmtree_dir_frame d w q :
  ¬ d `prefix_of` q → wfiles (rmtree_dir d w).1 !! q = wfiles w !! q.
Proof.
  intros Hq. unfold rmtree_dir. destruct (file_exists d w); [done|].
  cbn [fst]. rewrite rmtree_lookup. by rewrite decide_False.
Qed.

(** removing and copying changes nothing outside the destination *)
Lemma replace_tree_frame src dest w q :
  ¬ dest `prefix_of` q → wfiles (replace_tree src dest w).1 !! q = wfiles w !! q.
Proof.
  intros Hq. unfold replace_tree.
  destruct (exists_ dest w).
  - pose proof (rmtree_dir_frame dest w q Hq) as Hr.
    destruct (rmtree_dir dest w) as [w1 [[]|e]]; cbn [fst] in *; [|done].
    by rewrite copytree_frame.
  - by rewrite copytree_frame.
Qed.

Lemma replace_tree_config src dest w : wconfig (replace_tree src dest w).1 = wconfig w.
Proof.
  unfold replace_tree. destruct (exists_ dest w).
  - unfold rmtree_dir. destruct (file_exists dest w); [done|].
    by rewrite copytree_config.
  - by rewrite copytree_config.
Qed.


Lemma is_dir_spec d w :
  is_dir d w = true ↔
  wfiles w !! d = None ∧
  ((∃ q, q ∈ wdirs w ∧ d `prefix_of` q) ∨
   (∃ p, is_under d p = true ∧ is_Some (wfiles w !! p))).
Proof.
  unfold is_dir. rewrite andb_true_iff, negb_true_iff, file_exists_false,
    orb_true_iff, !negb_true_iff, !bool_decide_eq_false.
  split; intros [Hf H]; (split; [done|]).
  - destruct H as [H | H].
    + left. apply set_choose_L in H as [q Hq].
      apply elem_of_filter in Hq as [? ?]. eauto.
    + right. destruct (walk d w) as [|p l] eqn:Hw; [done|].
      exists p. apply elem_of_walk. rewrite Hw. set_solver.
  - destruct H as [(q & Hq & Hp) | (p & Hu & Hp)].
    + left. intros He. assert (q ∈ filter (λ q, d `prefix_of` q) (wdirs w)) as Hin
        by (by apply elem_of_filter).
      rewrite He in Hin. set_solver.
    + right. intros Hw. assert (p ∈ walk d w) as Hin by (by apply elem_of_walk).
      rewrite Hw in Hin. by apply not_elem_of_nil in Hin.
Qed.

Lemma is_dir_exists d w : is_dir d w = true → exists_ d w = true.
Proof. unfold exists_. intros ->. apply orb_true_r. Qed.

(** two paths with a common extension are comparable *)
Lemma prefix_comparable (a b q : path) :
  a `prefix_of` q → b `prefix_of` q → a `prefix_of` b ∨ b `prefix_of` a.
Proof. apply prefix_weak_total. Qed.

(** removing a tree keeps a disjoint directory *)
Lemma is_dir_rmtree src dest w :
  is_dir src w = true → ¬ src `prefix_of` dest → ¬ dest `prefix_of` src →
  is_dir src (rmtree dest w) = true.
Proof.
  rewrite !is_dir_spec. intros [Hf H] H1 H2.
  assert (∀ q, src `prefix_of` q → ¬ dest `prefix_of` q) as Hdis.
  { intros q Hs Hd. destruct (prefix_comparable src dest q Hs Hd); done. }
  split.
  { rewrite rmtree_lookup. by destruct (decide _). }
  destruct H as [(q & Hq & Hp) | (p & Hu & Hp)].
  - left. exists q. split; [|done]. apply rmtree_dirs. split; [done|]. by apply Hdis.
  - right. exists p. split; [done|]. rewrite rmtree_lookup.
    rewrite decide_False; [done|]. apply Hdis.
    apply is_under_spec in Hu as (k & _ & ->). by eexists.
Qed.

(** removing a tree removes the directories inside it *)
Lemma is_dir_rmtree_inside src dest w :
  dest `prefix_of` src → is_dir src (rmtree dest w) = false.
Proof.
  intros Hp. apply not_true_is_false. rewrite is_dir_spec.
  intros [_ [(q & Hq & Hs) | (p & Hu & [c Hc])]].
  - apply rmtree_dirs in Hq as [_ Hq]. apply Hq. by etrans.
  - rewrite rmtree_lookup in Hc. apply is_under_spec in Hu as (k & _ & ->).
    rewrite decide_True in Hc; [done|]. etrans; [exact Hp|]. by eexists.
Qed.

Lemma is_dir_above src dest w :
  is_dir src w = true → dest `prefix_of` src → wfiles w !! dest = None →
  is_dir dest w = true.
Proof.
  rewrite !is_dir_spec. intros [Hf H] Hp Hd. split; [done|].
  destruct H as [(q & Hq & Hs) | (p & Hu & Hc)].
  - left. exists q. split; [done | by etrans].
  - right. exists p. split; [|done]. apply is_under_spec in Hu as (k & Hk & ->).
    destruct Hp as [k' ->]. apply is_under_spec. exists (k' ++ k).
    rewrite <- app_assoc. split; [|done]. by destruct k', k.
Qed.

Lemma NoDup_walk d w : NoDup (walk d w).
Proof. unfold walk. apply NoDup_list_filter, NoDup_fst_map_to_list. Qed.

(** a tree that mirrors another has as many files *)
Lemma walk_mirror src dest w w' :
  (∀ k, k ≠ [] → wfiles w' !! (dest ++ k) = wfiles w !! (src ++ k)) →
  length (walk dest w') = length (walk src w).
Proof.
  intros Hm.
  assert (walk dest w' ≡ₚ map (relocate src dest) (walk src w)) as Hp.
  { apply NoDup_Permutation.
    - apply NoDup_walk.
    - apply NoDup_fmap_2_strong; [|apply NoDup_walk].
      intros p p' Hin Hin' Heq.
      apply elem_of_walk in Hin as [Hu _], Hin' as [Hu' _].
      apply is_under_spec in Hu as (k & _ & ->), Hu' as (k' & _ & ->).
      rewrite !relocate_app in Heq. by apply app_inv_head in Heq as ->.
    - intros q. rewrite list_elem_of_fmap, elem_of_walk. split.
      + intros [Hu Hq]. apply is_under_spec in Hu as (k & Hk & ->).
        exists (src ++ k). rewrite relocate_app. split; [done|].
        apply elem_of_walk. rewrite <- Hm by done. split; [|done].
        apply is_under_spec. by exists k.
      + intros (p & -> & Hin). apply elem_of_walk in Hin as [Hu Hp].
        apply is_under_spec in Hu as (k & Hk & ->). rewrite relocate_app.
        rewrite Hm by done. split; [|done]. apply is_under_spec. by exists k. }
  by rewrite Hp, length_map.
Qed.

(** what removing and copying does when the two trees are apart *)
Lemma replace_tree_ok src dest w :
  is_dir src w = true → file_exists dest w = false →
  ¬ src `prefix_of` dest → ¬ dest `prefix_of` src →
  (replace_tree src dest w).2 = Ret tt ∧
  ∀ k, k ≠ [] → wfiles (replace_tree src dest w).1 !! (dest ++ k) = wfiles w !! (src ++ k).
Proof.
  intros Hd Hf H1 H2. unfold replace_tree.
  destruct (exists_ dest w) eqn:He.
  - unfold rmtree_dir. rewrite Hf.
    destruct (copytree_ok src dest (rmtree dest w)) as [Hr Hm];
      [by apply is_dir_rmtree | apply rmtree_exists | done |].
    split; [done|]. intros k Hk. rewrite Hm by done.
    rewrite rmtree_lookup. rewrite decide_False; [done|].
    intros Hp. destruct (prefix_comparable src dest (src ++ k)); [by eexists|done..].
  - by apply copytree_ok.
Qed.

(** *** The loop over the [eboot.bin] files *)

Lemma parent_under out e : is_under out e = true → out `prefix_of` parent e.
Proof.
  intros Hu. apply is_under_spec in Hu as (k & Hk & ->). unfold parent.
  destruct (exists_last Hk) as (k' & x & ->).
  rewrite app_assoc, removelast_last. by eexists.
Qed.

Lemma elem_of_eboot_files out w e :
  e ∈ eboot_files out w → is_under out e = true ∧ lower (name e) = "eboot.bin".
Proof.
  unfold eboot_files. rewrite elem_of_list_filter, elem_of_walk.
  intros [He [Hu _]]. split; [done|]. by apply String.eqb_eq.
Qed.

Lemma below_a_fakelib_intro out d q :
  out `prefix_of` d → (d ++ ["fakelib"]) `prefix_of` q → below_a_fakelib out q = true.
Proof.
  intros [k ->] [k' ->]. unfold below_a_fakelib. apply andb_true_iff.
  rewrite !bool_decide_eq_true. split.
  - rewrite <- !app_assoc. by eexists.
  - rewrite <- !app_assoc, drop_app_length. set_solver.
Qed.

Section EbootLoop.

Variables src out : path.

Abbreviation copy_one := (copy_to_eboot_dir src out).

Lemma copy_to_eboot_dir_frame s e q :
  is_under out e = true → below_a_fakelib out q = false →
  wfiles (copy_one s e).1 !! q = wfiles s.1 !! q ∧
  wconfig (copy_one s e).1 = wconfig s.1.
Proof.
  intros Hu Hq. destruct s as [w [created locations]]. unfold copy_to_eboot_dir.
  case_bool_decide; [done|].
  pose proof (replace_tree_frame src (parent e ++ ["fakelib"]) w q) as Hf.
  pose proof (replace_tree_config src (parent e ++ ["fakelib"]) w) as Hc.
  destruct (replace_tree src (parent e ++ ["fakelib"]) w) as [w1 [[]|x]];
    cbn [fst snd] in *; (split; [|done]); apply Hf;
    intros Hp;
    (rewrite (below_a_fakelib_intro out (parent e) q) in Hq;
       [done | by apply parent_under | done]).
Qed.

Lemma copy_loop_frame l s q :
  Forall (λ e, is_under out e = true) l → below_a_fakelib out q = false →
  wfiles (foldl copy_one s l).1 !! q = wfiles s.1 !! q ∧
  wconfig (foldl copy_one s l).1 = wconfig s.1.
Proof.
  revert s. induction l as [|e l IH]; intros s Hl Hq; cbn [foldl]; [done|].
  apply Forall_cons in Hl as [He Hl].
  destruct (IH (copy_one s e) Hl Hq) as [H1 H2].
  destruct (copy_to_eboot_dir_frame s e q He Hq) as [H3 H4].
  split; congruence.
Qed.

Abbreviation counted_here := (counted out).

Lemma copy_to_eboot_dir_counted all s e :
  e ∈ all → counted_here all s.2 →
  counted_here all (copy_one s e).2 ∧ (copy_one s e).2.1 ≤ S s.2.1.
Proof.
  intros He [Hc Hl]. destruct s as [w [created locations]]. unfold copy_to_eboot_dir.
  cbn [fst snd] in *.
  case_bool_decide as Hp; [split; [done | cbn; lia]|].
  destruct (replace_tree src (parent e ++ ["fakelib"]) w) as [w1 [[]|x]];
    cbn [fst snd]; [|split; [done | lia]].
  split; [|lia]. split; cbn [fst snd].
  - rewrite length_app. simpl. lia.
  - apply Forall_app. split; [done|]. apply Forall_singleton. by exists e.
Qed.

Lemma copy_loop_counted all l s :
  (∀ e, e ∈ l → e ∈ all) → counted_here all s.2 →
  counted_here all (foldl copy_one s l).2 ∧ (foldl copy_one s l).2.1 ≤ s.2.1 + length l.
Proof.
  revert s. induction l as [|e l IH]; intros s Hl Hc; cbn [foldl].
  { split; [done | simpl; lia]. }
  destruct (copy_to_eboot_dir_counted all s e) as [H1 H2]; [set_solver | done |].
  destruct (IH (copy_one s e)) as [H3 H4]; [set_solver | done |].
  split; [done|]. simpl. lia.
Qed.

End EbootLoop.

End FakelibFacts.

Module FakelibTheorems.

Import PyBytes PyPath Json Exn FS Fakelib.
Import ListFacts WalkFacts FakelibFacts.

(** [_copy_fakelib] with a source directory that lies apart from
    [output_dir/fakelib], and no regular file in the way: the copy is
    reported as a success with the number of files of the source, the tree
    below [output_dir/fakelib] is the tree below the source, file for file
    (what was there before is gone), and every file outside
    [output_dir/fakelib] is as before. *)
Theorem copy_fakelib_mirrors_source src out w :
  is_dir src w = true →
  file_exists (out ++ ["fakelib"]) w = false →
  ¬ src `prefix_of` (out ++ ["fakelib"]) →
  ¬ (out ++ ["fakelib"]) `prefix_of` src →
  let res := _copy_fakelib src out w in
  res.2 = (true, "Copied fakelib directory from " +:+ show_path src +:+ " ("
                 +:+ pretty (length (walk src w)) +:+ " files)") ∧
  (∀ k, k ≠ [] → wfiles res.1 !! (out ++ ["fakelib"] ++ k) = wfiles w !! (src ++ k)) ∧
  (∀ q, ¬ (out ++ ["fakelib"]) `prefix_of` q → wfiles res.1 !! q = wfiles w !! q).
Proof.
  intros Hd Hf H1 H2. cbv zeta. unfold _copy_fakelib.
  rewrite (is_dir_exists _ _ Hd), Hd. cbn [negb].
  destruct (replace_tree_ok src (out ++ ["fakelib"]) w Hd Hf H1 H2) as [Hr Hm].
  pose proof (replace_tree_frame src (out ++ ["fakelib"]) w) as Hfr.
  destruct (replace_tree src (out ++ ["fakelib"]) w) as [w1 [[]|e]]; [|done].
  cbn [fst snd] in *. split.
  - by rewrite (walk_mirror src (out ++ ["fakelib"]) w w1 Hm).
  - split; [|done]. intros k Hk. rewrite app_assoc. by apply Hm.
Qed.


(** [_copy_fakelib_to_eboot_dirs] counts what it reports: ['created'] is the
    number of recorded locations and at most the number of [eboot.bin] files
    found; every location is the [fakelib] directory next to an [eboot.bin]
    (in any case) that lies below the output directory but not directly in
    it, so [output_dir/fakelib] itself is never among them. *)
Theorem eboot_copies_are_counted src out w :
  let res := _copy_fakelib_to_eboot_dirs src out w in
  res.2.1 = length res.2.2 ∧
  res.2.1 ≤ length (eboot_files out w) ∧
  Forall (λ loc, ∃ e, e ∈ eboot_files out w ∧ lower (name e) = "eboot.bin" ∧
                      is_under out e = true ∧ parent e ≠ out ∧
                      loc = parent e ++ ["fakelib"]) res.2.2 ∧
  (out ++ ["fakelib"]) ∉ res.2.2.
Proof.
  cbv zeta.
  assert (counted out (eboot_files out w) (_copy_fakelib_to_eboot_dirs src out w).2 ∧
          (_copy_fakelib_to_eboot_dirs src out w).2.1 ≤ length (eboot_files out w))
    as [[Hc Hl] Hle].
  { unfold _copy_fakelib_to_eboot_dirs.
    destruct (negb (exists_ src w) || negb (is_dir src w)).
    { split; [by split | simpl; lia]. }
    cbv zeta. destruct (eboot_files out w) as [|e l] eqn:He.
    { split; [by split | simpl; lia]. }
    apply (copy_loop_counted src out (e :: l) (e :: l) (w, (0, []))); [done|].
    by split. }
  split; [done|]. split; [done|]. split.
  - eapply Forall_impl; [exact Hl|]. intros loc (e & He & Hp & ->).
    exists e. destruct (elem_of_eboot_files out w e He) as [Hu Hn]. done.
  - intros Hin. rewrite Forall_forall in Hl.
    destruct (Hl _ Hin) as (e & _ & Hp & Heq).
    apply app_inj_tail in Heq as [Heq _]. congruence.
Qed.

(** Step 4 of [downgrade_and_sign] writes only into directories named
    [fakelib]: a file that does not lie in or below a [fakelib] directory of
    the output tree holds the same bytes after the step, whatever the source
    is and whichever copies fail, so no signed file outside such a directory
    is overwritten or removed and nothing outside the output directory
    changes; the config file is not touched. *)
Theorem copy_fakelib_step_writes_only_below_fakelib src out w q :
  below_a_fakelib out q = false →
  let res := copy_fakelib_step src out w in
  wfiles res.1 !! q = wfiles w !! q ∧ wconfig res.1 = wconfig w.
Proof.
  intros Hq. cbv zeta. unfold copy_fakelib_step.
  assert (wfiles (_copy_fakelib src out w).1 !! q = wfiles w !! q ∧
          wconfig (_copy_fakelib src out w).1 = wconfig w) as [H1 H2].
  { unfold _copy_fakelib.
    destruct (negb (exists_ src w)); [done|].
    destruct (negb (is_dir src w)); [done|].
    pose proof (replace_tree_frame src (out ++ ["fakelib"]) w q) as Hf.
    pose proof (replace_tree_config src (out ++ ["fakelib"]) w) as Hc.
    destruct (replace_tree src (out ++ ["fakelib"]) w) as [w1 [[]|e]];
      cbn [fst] in *; (split; [|done]); apply Hf; intros Hp;
      (rewrite (below_a_fakelib_intro out out q) in Hq; [done | done | done]). }
  destruct (_copy_fakelib src out w) as [w1 [success message]]. cbn [fst] in *.
  destruct success; [|done].
  assert (wfiles (_copy_fakelib_to_eboot_dirs src out w1).1 !! q = wfiles w1 !! q ∧
          wconfig (_copy_fakelib_to_eboot_dirs src out w1).1 = wconfig w1) as [H3 H4].
  { unfold _copy_fakelib_to_eboot_dirs.
    destruct (negb (exists_ src w1) || negb (is_dir src w1)); [done|].
    pose proof (elem_of_eboot_files out w1) as Hall.
    cbv zeta. destruct (eboot_files out w1) as [|e l]; [done|].
    apply (copy_loop_frame src out (e :: l) (w1, (0, [])) q); [|done].
    apply Forall_forall. intros x Hx. by apply Hall. }
  destruct (_copy_fakelib_to_eboot_dirs src out w1) as [w2 copies]. cbn [fst] in *.
  split; congruence.
Qed.

End FakelibTheorems.

(** ** The directory filter; the targets of the libc operations *)

Module GuiFacts.

Import PyPath Exn Gui.

Lemma list_remove_app pre x l :
  x ∉ pre → list_remove x (pre ++ x :: l) = Some (pre ++ l).
Proof.
  induction pre as [|y pre IH]; intros Hx; simpl.
  - by rewrite String.eqb_refl.
  - rewrite (proj2 (String.eqb_neq y x)) by set_solver.
    rewrite IH by set_solver. done.
Qed.

Section Skip.

Variable skip_name : string.

Abbreviation hit d := (String.eqb (lower d) (lower skip_name)).
Abbreviation drop_one acc dir_name :=
  (match acc with
   | Ret ds =>
       match list_remove dir_name ds with
       | Some ds' => Ret ds'
       | None => Raise (ValueError "list.remove(x): x not in list")
       end
   | Raise e => Raise e
   end).

Lemma skip_loop pre l :
  Forall (λ d, hit d = false) pre →
  foldl (λ acc dir_name, drop_one acc dir_name) (Ret (pre ++ l)) (List.filter (λ d, hit d) l)
  = Ret (pre ++ List.filter (λ d, negb (hit d)) l).
Proof.
  revert pre. induction l as [|d l IH]; intros pre Hpre; [done|].
  cbn [List.filter]. destruct (hit d) eqn:Hd; cbn [negb foldl].
  - rewrite list_remove_app; [by apply IH|].
    intros Hin. rewrite Forall_forall in Hpre. specialize (Hpre d Hin). congruence.
  - replace (pre ++ d :: l) with ((pre ++ [d]) ++ l) by (by rewrite <- app_assoc).
    rewrite IH.
    + by rewrite <- app_assoc.
    + apply Forall_app. split; [done|]. by apply Forall_singleton.
Qed.

End Skip.


End GuiFacts.

Module TargetFacts.

Import PyBytes PyPath Json Exn FS Patch.
Import PyBytesFacts ListFacts PyPathFacts PatchFacts ClassifyFacts WalkFacts.

Lemma add_libc_files_spec walked self_files p :
  p ∈ add_libc_files walked self_files ↔
  p ∈ self_files ∨ (p ∈ walked ∧ lower (name p) = "libc.prx").
Proof.
  revert self_files. induction walked as [|q rest IH]; intros self_files; simpl.
  - split; [by left | intros [H | [H _]]; [done | by apply not_elem_of_nil in H]].
  - destruct (String.eqb (lower (name q)) "libc.prx") eqn:Hn; cbn [andb].
    + apply String.eqb_eq in Hn. case_bool_decide as Hin; cbn [negb]; rewrite IH.
      * split.
        -- intros [H | [H ?]]; [by left | right; set_solver].
        -- intros [H | [H ?]]; [by left|].
           apply elem_of_cons in H as [-> | H]; [by left | right; done].
      * rewrite elem_of_app, list_elem_of_singleton. split.
        -- intros [[H | ->] | [H ?]]; [by left | right; set_solver | right; set_solver].
        -- intros [H | [H ?]]; [by left; left|].
           apply elem_of_cons in H as [-> | H]; [left; by right | right; done].
    + apply String.eqb_neq in Hn. rewrite IH. split.
      * intros [H | [H ?]]; [by left | right; set_solver].
      * intros [H | [H ?]]; [by left|].
        apply elem_of_cons in H as [-> | H]; [done | right; done].
Qed.

Lemma patch_targets_spec io d w p :
  p ∈ patch_targets io d w ↔
  is_under d p = true ∧
  ∃ content, wfiles w !! p = Some content ∧
    (lower (name p) = "libc.prx" ∨
     (endswith (name p) ".bak" = false ∧ magic_fault (io p) = false ∧
      (take 4 content = SELF_MAGIC_1 ∨ take 4 content = SELF_MAGIC_2))).
Proof.
  unfold patch_targets. rewrite add_libc_files_spec.
  unfold find_self_files. rewrite elem_of_list_filter, elem_of_walk.
  unfold _is_self_file, read_magic. split.
  - intros [[Hs [Hu [c Hc]]] | [[Hu [c Hc]] Hn]].
    + split; [done|]. exists c. split; [done|]. right.
      destruct (endswith (name p) ".bak"); [done|]. cbn [negb andb] in Hs.
      destruct (magic_fault (io p)); [done|]. rewrite Hc in Hs. cbn in Hs.
      apply orb_true_iff in Hs. rewrite !bytes_eqb_eq in Hs. done.
    + split; [done|]. exists c. split; [done|]. by left.
  - intros [Hu (c & Hc & [Hn | (Hb & Hm & Hmagic)])].
    + right. split; [|done]. split; [done|]. by rewrite Hc.
    + left. split; [|split; [done | by rewrite Hc]].
      rewrite Hb, Hm, Hc. cbn. apply orb_true_iff. rewrite !bytes_eqb_eq. done.
Qed.

Lemma elf_is_not_self io d w p :
  p ∈ find_elf_files io d w → p ∉ find_self_files io d w.
Proof.
  unfold find_elf_files, find_self_files. rewrite !elem_of_list_filter.
  unfold _is_elf_file, _is_self_file, read_magic.
  intros [He _] [Hs _].
  destruct (endswith (name p) ".bak"); [done|]. cbn [negb andb] in *.
  destruct (magic_fault (io p)); [done|].
  destruct (wfiles w !! p) as [c|]; [|done]. cbn in *.
  apply bytes_eqb_eq in He. rewrite He in Hs. done.
Qed.

(** The files the three libc operations look at.  A file is a target exactly
    when it lies below the directory and either is a SELF file (readable
    magic [4F 15 3D 1D] or [54 14 F5 EE], name not ending in [.bak]) or is
    named [libc.prx] in any case, whatever its bytes.  No file is both an
    ELF file and a SELF file. *)
Theorem patch_targets_characterised io d w p :
  (p ∈ patch_targets io d w ↔
   is_under d p = true ∧
   ∃ content, wfiles w !! p = Some content ∧
     (lower (name p) = "libc.prx" ∨
      (endswith (name p) ".bak" = false ∧ magic_fault (io p) = false ∧
       (take 4 content = SELF_MAGIC_1 ∨ take 4 content = SELF_MAGIC_2)))) ∧
  (p ∈ find_elf_files io d w → p ∉ find_self_files io d w).
Proof. split; [apply patch_targets_spec | apply elf_is_not_self]. Qed.

End TargetFacts.

(** ** Running the operations twice, and one after the other *)

Module RoundTripFacts.

Import PyBytes PyPath Json Exn FS Patch PatchVocabulary.
Import PyBytesFacts ListFacts PyPathFacts PatchFacts ClassifyFacts.
Import Patterns PatternFacts WalkFacts PatchMore PatchCoverage TargetFacts.

(** A replacement leaves a prefix alone in which the first byte of [old]
    does not occur. *)
Lemma replace_keeps_prefix o old new n c :
  o ∉ take n c →
  take n (replace (o :: old) new c) = take n c.
Proof.
  revert c. induction n as [|n IH]; intros c Ho; [done|].
  destruct c as [|x c]; [done|].
  rewrite replace_nomatch; [|done|].
  - cbn [take] in *. f_equal. apply IH. set_solver.
  - apply startswith_false. intros Hp. apply prefix_cons_inv_1 in Hp.
    subst. cbn [take] in Ho. set_solver.
Qed.

Lemma default_patterns_keep_magic c :
  take 4 c = SELF_MAGIC_1 ∨ take 4 c = SELF_MAGIC_2 →
  take 4 (replace LIBC_PATCH_PATTERN LIBC_PATCH_REPLACEMENT c) = take 4 c ∧
  take 4 (replace LIBC_PATCH_REPLACEMENT LIBC_PATCH_PATTERN c) = take 4 c.
Proof.
  intros Hm. split; apply replace_keeps_prefix;
    destruct Hm as [-> | ->]; intros Hin; apply list_elem_of_In in Hin;
    cbn in Hin; intuition discriminate.
Qed.

Section Noop.

Variable D : direction.
Variables search_pattern replacement_pattern : bytes.
Variable create_backup : bool.

Abbreviation step :=
  (patch_one D (λ _, no_faults) search_pattern replacement_pattern create_backup).

Abbreviation is_settled :=
  (settled D search_pattern replacement_pattern create_backup).

Lemma patch_one_noop p w r c :
  wfiles w !! p = Some c → is_settled p c →
  (step (w, r) p).1 = w ∧ changed (step (w, r) p).2 = changed r.
Proof.
  intros Hp Hs. unfold patch_one, read_file. cbn [read_fault no_faults]. rewrite Hp.
  destruct (contains search_pattern c) eqn:H1; [|by split].
  destruct (contains replacement_pattern c) eqn:H2; [by split|].
  destruct Hs as [Hs | [Hs | [-> Hs]]]; [congruence..|].
  unfold make_backup. rewrite Hs. by split.
Qed.

Lemma patch_files_noop l w r :
  (∀ p, p ∈ l → ∃ c, wfiles w !! p = Some c ∧ is_settled p c) →
  (patch_files D (λ _, no_faults) search_pattern replacement_pattern create_backup
     l (w, r)).1 = w ∧
  changed (patch_files D (λ _, no_faults) search_pattern replacement_pattern
             create_backup l (w, r)).2 = changed r.
Proof.
  revert r. induction l as [|p l IH]; intros r Hl; [done|].
  unfold patch_files in *. cbn [foldl].
  destruct (Hl p) as (c & Hc & Hs); [set_solver|].
  destruct (patch_one_noop p w r c Hc Hs) as [H1 H2].
  destruct (step (w, r) p) as [w1 r1]. cbn [fst snd] in *. subst w1.
  rewrite <- H2. apply IH. intros q Hq. apply Hl. set_solver.
Qed.

(** Without faults and with patterns that cannot straddle a replacement, the
    loop body leaves its file settled. *)
Lemma patch_one_settles p w r c :
  search_pattern ≠ [] → overlap_free search_pattern replacement_pattern = true →
  wfiles w !! p = Some c →
  (create_backup = true → with_suffix p (d_backup_suffix D) ≠ Some p) →
  ∃ c', wfiles (step (w, r) p).1 !! p = Some c' ∧ is_settled p c'.
Proof.
  intros Hne Hof Hp Hb.
  destruct (contains search_pattern c) eqn:H1.
  2: { exists c. destruct (patch_one_noop p w r c Hp) as [-> _]; [by left|].
       split; [done | by left]. }
  destruct (contains replacement_pattern c) eqn:H2.
  { exists c. destruct (patch_one_noop p w r c Hp) as [-> _]; [by right; left|].
    split; [done | by right; left]. }
  assert ((create_backup = true ∧ with_suffix p (d_backup_suffix D) = None) ∨
          (create_backup = true → ∃ b, with_suffix p (d_backup_suffix D) = Some b ∧ b ≠ p))
    as [Hnone | Hsome].
  { destruct (with_suffix p (d_backup_suffix D)) as [b|] eqn:Hs.
    - right. intros Hcb. exists b. split; [done|]. intros ->. by apply Hb.
    - destruct create_backup; [by left | by right]. }
  - exists c. destruct (patch_one_noop p w r c Hp) as [-> _]; [by right; right|].
    split; [done | by right; right].
  - destruct (patch_one_success D (λ _, no_faults) search_pattern replacement_pattern
                create_backup p w r c) as (w' & r' & Heq & Hw' & _); try done.
    + repeat split; [by apply replace_removes_old | by apply replace_inserts_new].
    + rewrite Heq. eexists. split; [exact Hw'|]. left. by apply replace_removes_old.
Qed.

End Noop.

(** *** Running [apply_libc_patch] again *)

Lemma apply_settles_targets dir cb w p :
  let w1 := (apply_libc_patch (λ _, no_faults) dir None None cb w).1 in
  p ∈ patch_targets (λ _, no_faults) dir w1 →
  ∃ c, wfiles w1 !! p = Some c ∧
       settled apply_direction LIBC_PATCH_PATTERN LIBC_PATCH_REPLACEMENT cb p c.
Proof.
  cbv zeta. intros Hin1.
  pose proof (target_not_bak _ _ _ _ Hin1) as Hnb.
  assert (p ∈ patch_targets (λ _, no_faults) dir w) as Hin.
  { destruct (decide (p ∈ patch_targets (λ _, no_faults) dir w)) as [|Hn]; [done|].
    exfalso.
    destruct (patch_libc_frame apply_direction (λ _, no_faults) LIBC_PATCH_PATTERN
                LIBC_PATCH_REPLACEMENT cb dir w) as (_ & Hfr & _).
    specialize (Hfr p Hn). unfold apply_libc_patch in Hin1. cbn [default] in Hin1.
    apply Hn.
    pose proof (patch_targets_spec (λ _, no_faults) dir
                (patch_libc apply_direction (λ _, no_faults) LIBC_PATCH_PATTERN
                   LIBC_PATCH_REPLACEMENT cb dir w).1 p) as Hc1.
    pose proof (patch_targets_spec (λ _, no_faults) dir w p) as Hc.
    apply Hc. apply Hc1 in Hin1. rewrite Hfr in Hin1; [done|].
    intros _ t _ Hs. apply with_suffix_endswith in Hs.
    change (d_backup_suffix apply_direction) with ".bak" in Hs. congruence. }
  destruct (patch_targets_walk _ _ _ _ Hin) as [_ [c Hc]].
  destruct (patch_libc_at apply_direction (λ _, no_faults) LIBC_PATCH_PATTERN
              LIBC_PATCH_REPLACEMENT cb dir w p Hin) as (w0 & r0 & H0 & H1 & _).
  { intros _ q _ _ Hs. apply with_suffix_endswith in Hs.
    change (d_backup_suffix apply_direction) with ".bak" in Hs. congruence. }
  unfold apply_libc_patch. cbn [default]. cbv zeta in H1. rewrite H1.
  apply (patch_one_settles apply_direction LIBC_PATCH_PATTERN LIBC_PATCH_REPLACEMENT
           cb p w0 r0 c); try done.
  - by rewrite H0.
  - intros _ Hs. apply with_suffix_endswith in Hs.
    change (d_backup_suffix apply_direction) with ".bak" in Hs. congruence.
Qed.

End RoundTripFacts.

Module RoundTripTheorems.

Import PyBytes PyPath Json Exn FS Patch PatchVocabulary.
Import PyBytesFacts ListFacts PyPathFacts PatchFacts ClassifyFacts.
Import Patterns PatternFacts WalkFacts PatchMore PatchCoverage TargetFacts RoundTripFacts.

(** [apply_libc_patch] is idempotent on disk: when nothing fails, a second
    run with the default patterns on what the first run left changes no
    file, directory or config, and counts no file as applied. *)
Theorem second_apply_changes_nothing dir cb w :
  let first := apply_libc_patch (λ _, no_faults) dir None None cb w in
  let second := apply_libc_patch (λ _, no_faults) dir None None cb first.1 in
  second.1 = first.1 ∧ applied second.2 = 0.
Proof.
  cbv zeta.
  set (w1 := (apply_libc_patch (λ _, no_faults) dir None None cb w).1).
  pose proof (apply_settles_targets dir cb w) as Hs. cbv zeta in Hs. fold w1 in Hs.
  clearbody w1. unfold apply_libc_patch. cbn [default]. unfold patch_libc.
  destruct (patch_targets (λ _, no_faults) dir w1) as [|p l]; [done|].
  apply (patch_files_noop apply_direction LIBC_PATCH_PATTERN LIBC_PATCH_REPLACEMENT cb
           (p :: l) w1). exact Hs.
Qed.

(** The round trip of the two operations on a directory: when nothing
    fails, a target that held the original pattern and not the replacement
    holds its old bytes again after [apply_libc_patch] followed by
    [revert_libc_patch] (default patterns, with or without backups),
    provided its name does not end in [.revert_bak].  In between, the file
    is still a target: patching does not change the magic of a SELF
    file. *)
Theorem apply_then_revert_restores_directory dir cb1 cb2 w p content :
  p ∈ patch_targets (λ _, no_faults) dir w →
  wfiles w !! p = Some content →
  contains LIBC_PATCH_PATTERN content = true →
  contains LIBC_PATCH_REPLACEMENT content = false →
  name p ≠ "" →
  endswith (name p) ".revert_bak" = false →
  let w1 := (apply_libc_patch (λ _, no_faults) dir None None cb1 w).1 in
  let w2 := (revert_libc_patch (λ _, no_faults) dir None None cb2 w1).1 in
  p ∈ patch_targets (λ _, no_faults) dir w1 ∧
  wfiles w2 !! p = Some content.
Proof.
  intros Hin Hp Hs Hr Hn Hrb. cbv zeta.
  set (patched := replace LIBC_PATCH_PATTERN LIBC_PATCH_REPLACEMENT content).
  destruct (default_patterns_go_through no_faults content eq_refl eq_refl) as [Hgo _].
  specialize (Hgo Hs). destruct Hgo as (_ & _ & Hv1 & Hv2). fold patched in Hv1, Hv2.
  assert (wfiles (apply_libc_patch (λ _, no_faults) dir None None cb1 w).1 !! p
          = Some patched) as Hp1.
  { destruct (patch_libc_success apply_direction (λ _, no_faults) LIBC_PATCH_PATTERN
                LIBC_PATCH_REPLACEMENT cb1 dir w p content) as [H1 _]; try done.
    intros _. split; [done|]. by eapply target_not_bak. }
  set (w1 := (apply_libc_patch (λ _, no_faults) dir None None cb1 w).1) in *.
  assert (p ∈ patch_targets (λ _, no_faults) dir w1) as Hin1.
  { pose proof (patch_targets_spec (λ _, no_faults) dir w p) as Hc.
    pose proof (patch_targets_spec (λ _, no_faults) dir w1 p) as Hc1.
    apply Hc1. apply Hc in Hin as [Hu (c & Hc' & Hcases)].
    rewrite Hp in Hc'. injection Hc' as <-.
    split; [done|]. exists patched. split; [done|].
    destruct Hcases as [Hl | (Hb & Hm & Hmagic)]; [by left|]. right.
    split; [done|]. split; [done|].
    destruct (default_patterns_keep_magic content Hmagic) as [Hk _].
    fold patched in Hk. by rewrite Hk. }
  split; [exact Hin1|].
  destruct (patch_libc_success revert_direction (λ _, no_faults) LIBC_PATCH_REPLACEMENT
              LIBC_PATCH_PATTERN cb2 dir w1 p patched) as [H2 _]; try done.
  { destruct (default_patterns_go_through no_faults patched eq_refl eq_refl) as [_ Hgo].
    by apply Hgo. }
  unfold revert_libc_patch. cbn [default]. cbv zeta in H2. rewrite H2.
  f_equal. apply replace_inverse; [done | by vm_compute | done].
Qed.

End RoundTripTheorems.

(** ** The code on concrete inputs *)

Module Checks.

Import PyBytes PyPath Json Exn FS Patch Demo.
Import PatchFacts PatchTheorems ClassifyFacts ConfigFacts PipelineFacts.

(** C1.  A directory with one signed file that holds the original pattern:
    the first [apply_libc_patch] reports it as applied; the second reports
    it as "pattern_not_found", not as "already_patched" (that counter stays
    at zero); the bytes on disk are those the first run left. *)
Lemma C1_second_apply_reports_pattern_not_found :
  let first := apply_libc_patch nofaults ["d"] None None true one_original in
  let second := apply_libc_patch nofaults ["d"] None None true first.1 in
  status <$> files first.2 !! eboot = Some "applied" ∧
  status <$> files second.2 !! eboot = Some "pattern_not_found" ∧
  already_patched second.2 = 0 ∧
  pattern_not_found second.2 = 1 ∧
  wfiles second.1 = wfiles first.1.
Proof. cbv zeta. repeat split; vm_compute; reflexivity. Qed.

(** C4.  A signed file named [eboot.revert_bak] that holds the original
    pattern: [apply_libc_patch] patches it; [revert_libc_patch] with backups
    then takes the file itself as backup path, the copy raises, the file is
    reported as an error and keeps its patched bytes. *)
Lemma C4_round_trip_fails_on_revert_bak_name :
  let first := apply_libc_patch nofaults ["d"] None None true one_leftover in
  let second := revert_libc_patch nofaults ["d"] None None true first.1 in
  status <$> files first.2 !! leftover = Some "applied" ∧
  with_suffix leftover ".revert_bak" = Some leftover ∧
  status <$> files second.2 !! leftover = Some "error" ∧
  wfiles second.1 !! leftover = wfiles first.1 !! leftover ∧
  wfiles second.1 !! leftover ≠ wfiles one_leftover !! leftover.
Proof. cbv zeta. repeat split; vm_compute; first [reflexivity | discriminate]. Qed.

(** C7.  A name that ends in [.revert_bak] is classified by its magic like
    any other name: as SELF and as ELF, and it is among the targets.  Such a
    file is left behind by [revert_libc_patch] itself when the write
    fails. *)
Lemma C7_revert_backup_is_classified :
  endswith (name leftover) ".revert_bak" = true ∧
  _is_self_file nofaults leftover one_leftover = true ∧
  patch_targets nofaults ["d"] one_leftover = [leftover] ∧
  _is_elf_file nofaults leftover elf_leftover = true ∧
  find_elf_files nofaults ["d"] elf_leftover = [leftover] ∧
  (let after := (revert_libc_patch write_fails_on_x ["d"] None None true one_patched).1 in
   wfiles after !! x_revert_bak = wfiles one_patched !! x_self ∧
   x_revert_bak ∈ patch_targets nofaults ["d"] after).
Proof.
  cbv zeta. repeat split; try (vm_compute; reflexivity).
  apply list_elem_of_In. vm_compute. tauto.
Qed.

(** C8.  A patched file [x.self] next to a signed file [x.revert_bak] that
    holds both patterns: [check_libc_patch_status] lists the second under
    the both-patterns files; [revert_libc_patch] with backups reports it as
    already original, takes its path as the backup path of [x.self], and
    the file is gone when the operation returns. *)
Lemma C8_revert_destroys_both_patterns_file :
  map fi_path (both_patterns_files
                 (check_libc_patch_status nofaults ["d"] None None patched_and_both))
    = [x_revert_bak] ∧
  let res := revert_libc_patch nofaults ["d"] None None true patched_and_both in
  status <$> files res.2 !! x_revert_bak = Some "already_original" ∧
  status <$> files res.2 !! x_self = Some "reverted" ∧
  is_Some (wfiles patched_and_both !! x_revert_bak) ∧
  wfiles res.1 !! x_revert_bak = None.
Proof.
  cbv zeta. repeat split; try (vm_compute; reflexivity).
  vm_compute. by eexists.
Qed.

(** C9.  A config file that holds the JSON array [[]]:
    [_save_directories_to_config] raises a [TypeError],
    [get_last_directories] raises an [AttributeError], and [decrypt_files],
    which returns its report when told not to save, raises when it saves. *)
Lemma C9_save_raises_on_json_array :
  (Config._save_directories_to_config None "2024-01-01 00:00:00" "in" "out" array_config).2
    = Raise (TypeError "list indices must be integers or slices, not str") ∧
  Config.get_last_directories array_config
    = Raise (AttributeError "'list' object has no attribute 'get'") ∧
  (Pipeline.decrypt_files (E := demo_env) ["in"] ["out"] false true (array_config, [])).2
    = Raise (TypeError "list indices must be integers or slices, not str") ∧
  (Pipeline.decrypt_files (E := demo_env) ["in"] ["out"] false false (array_config, [])).2
    = Ret (Pipeline.DecryptResults ["in"] ["out"] Pipeline.empty_stage).
Proof. repeat split; vm_compute; reflexivity. Qed.

(** C2, the claim as stated fails twice.  With pair 3 and the patch enabled,
    a run over an input without ELF files returns without calling
    [apply_libc_patch]; with pair 7 and the auto-revert enabled but
    [apply_libc_patch=False], a run over two ELF files returns without
    calling [revert_libc_patch]. *)
Lemma C2_counterexample :
  (let res := Pipeline.downgrade_and_sign (E := demo_env) ["in"] ["out"] 3 0 0 None
                true false true true false (empty_world, []) in
   (∃ r, res.2 = Ret r) ∧
   Pipeline.CallApplyLibcPatch ["out"] ∉ res.1.2) ∧
  (let res := Pipeline.downgrade_and_sign (E := demo_env) ["in"] ["out"] 7 0 0 None
                true false false true false (two_elfs, []) in
   (∃ r, res.2 = Ret r) ∧
   Pipeline.CallRevertLibcPatch ["out"] ∉ res.1.2).
Proof.
  split; cbv zeta; (split; [vm_compute; by eexists|]);
    rewrite list_elem_of_In; vm_compute; intuition discriminate.
Qed.

(** *** Witnesses: the theorems with hypotheses, at concrete inputs *)




(** the loop body twice on the signed file with the original pattern *)
Lemma apply_again_witness :
  let first := patch_one apply_direction nofaults LIBC_PATCH_PATTERN
                         LIBC_PATCH_REPLACEMENT true (one_original, empty_report) eboot in
  status <$> files first.2 !! eboot = Some "applied" ∧
  read_fault (nofaults eboot) = None ∧
  patch_one apply_direction nofaults LIBC_PATCH_PATTERN LIBC_PATCH_REPLACEMENT true
            (first.1, empty_report) eboot
  = (first.1,
     set_entry eboot (FileResult "pattern_not_found" None false
                                 "Search pattern not found in file")
               (count_not_found empty_report)).
Proof.
  cbv zeta.
  assert (status <$> files (patch_one apply_direction nofaults LIBC_PATCH_PATTERN
                              LIBC_PATCH_REPLACEMENT true (one_original, empty_report)
                              eboot).2 !! eboot = Some "applied") as H1
    by (vm_compute; reflexivity).
  split; [exact H1|]. split; [reflexivity|].
  exact (apply_again_reports_pattern_not_found nofaults LIBC_PATCH_PATTERN
           LIBC_PATCH_REPLACEMENT true eboot one_original empty_report empty_report
           H1 eq_refl).
Defined.

(** apply, then revert, both with backups, on the same file *)
Lemma apply_then_revert_witness :
  let s1 := patch_one apply_direction nofaults LIBC_PATCH_PATTERN LIBC_PATCH_REPLACEMENT
                      true (one_original, empty_report) eboot in
  let s2 := patch_one revert_direction nofaults LIBC_PATCH_REPLACEMENT LIBC_PATCH_PATTERN
                      true (s1.1, empty_report) eboot in
  wfiles one_original !! eboot = Some (self (LIBC_PATCH_PATTERN ++ of_str "zz")) ∧
  status <$> files s1.2 !! eboot = Some "applied" ∧
  nofaults eboot = no_faults ∧
  (∃ b, with_suffix eboot ".revert_bak" = Some b ∧ b ≠ eboot) ∧
  wfiles s2.1 !! eboot = Some (self (LIBC_PATCH_PATTERN ++ of_str "zz")) ∧
  status <$> files s2.2 !! eboot = Some "reverted".
Proof.
  cbv zeta.
  assert (wfiles one_original !! eboot
          = Some (self (LIBC_PATCH_PATTERN ++ of_str "zz"))) as H1
    by (vm_compute; reflexivity).
  assert (status <$> files (patch_one apply_direction nofaults LIBC_PATCH_PATTERN
                              LIBC_PATCH_REPLACEMENT true (one_original, empty_report)
                              eboot).2 !! eboot = Some "applied") as H2
    by (vm_compute; reflexivity).
  assert (∃ b, with_suffix eboot ".revert_bak" = Some b ∧ b ≠ eboot) as H3.
  { exists leftover. split; [vm_compute; reflexivity | discriminate]. }
  do 4 (split; [first [assumption | reflexivity]|]).
  exact (apply_then_revert_restores nofaults nofaults true true eboot one_original
           empty_report empty_report _ H1 H2 eq_refl (λ _, H3)).
Defined.

(** a signed file named [x.self.bak] *)
Lemma bak_files_witness :
  endswith (name x_bak) ".bak" = true ∧
  (x_bak ∉ find_self_files nofaults ["d"] one_bak) ∧
  (x_bak ∉ find_elf_files nofaults ["d"] one_bak) ∧
  (x_bak ∉ patch_targets nofaults ["d"] one_bak).
Proof.
  assert (endswith (name x_bak) ".bak" = true) as H1 by (vm_compute; reflexivity).
  split; [exact H1|].
  exact (bak_files_are_never_targets nofaults ["d"] one_bak x_bak H1).
Defined.

(** a signed file that holds both patterns, [apply_libc_patch] with
    backups *)
Lemma apply_leaves_both_witness :
  x_self ∈ patch_targets nofaults ["d"] one_both ∧
  wfiles one_both !! x_self
    = Some (self (LIBC_PATCH_PATTERN ++ LIBC_PATCH_REPLACEMENT)) ∧
  (let res := apply_libc_patch nofaults ["d"] None None true one_both in
   wfiles res.1 !! x_self = Some (self (LIBC_PATCH_PATTERN ++ LIBC_PATCH_REPLACEMENT)) ∧
   status <$> files res.2 !! x_self = Some "already_patched").
Proof.
  assert (x_self ∈ patch_targets nofaults ["d"] one_both) as H1.
  { apply list_elem_of_In. vm_compute. tauto. }
  assert (wfiles one_both !! x_self
          = Some (self (LIBC_PATCH_PATTERN ++ LIBC_PATCH_REPLACEMENT))) as H2
    by (vm_compute; reflexivity).
  split; [exact H1|]. split; [exact H2|].
  refine (apply_leaves_both_patterns_file nofaults ["d"] None None true one_both x_self
            _ H1 H2 eq_refl _ _); vm_compute; reflexivity.
Defined.

(** the same file, [revert_libc_patch] with backups: its name does not end
    in [.revert_bak] *)
Lemma revert_leaves_both_witness :
  x_self ∈ patch_targets nofaults ["d"] one_both ∧
  wfiles one_both !! x_self
    = Some (self (LIBC_PATCH_PATTERN ++ LIBC_PATCH_REPLACEMENT)) ∧
  endswith (name x_self) ".revert_bak" = false ∧
  (let res := revert_libc_patch nofaults ["d"] None None true one_both in
   wfiles res.1 !! x_self = Some (self (LIBC_PATCH_PATTERN ++ LIBC_PATCH_REPLACEMENT)) ∧
   status <$> files res.2 !! x_self = Some "already_original").
Proof.
  assert (x_self ∈ patch_targets nofaults ["d"] one_both) as H1.
  { apply list_elem_of_In. vm_compute. tauto. }
  assert (wfiles one_both !! x_self
          = Some (self (LIBC_PATCH_PATTERN ++ LIBC_PATCH_REPLACEMENT))) as H2
    by (vm_compute; reflexivity).
  assert (endswith (name x_self) ".revert_bak" = false) as H3
    by (vm_compute; reflexivity).
  split; [exact H1|]. split; [exact H2|]. split; [exact H3|].
  refine (revert_leaves_both_patterns_file nofaults ["d"] None None true one_both x_self
            _ H1 H2 eq_refl _ _ (or_intror H3)); vm_compute; reflexivity.
Defined.

(** no config file, and the write fails *)
Lemma save_directories_witness :
  object_or_unusable (wconfig empty_world) ∧
  (Config._save_directories_to_config (Some CfgUnparseable) "2024-01-01 00:00:00"
     "in" "out" empty_world).2 = Ret tt.
Proof.
  split; [exact I|].
  exact (save_directories_swallows (Some CfgUnparseable) "2024-01-01 00:00:00"
           "in" "out" empty_world I).
Defined.

(** a config file that holds [{}] *)
Lemma get_last_directories_witness :
  Config.get_last_directories empty_object_config = Ret (JStr "", JStr "").
Proof. exact (get_last_directories_defaults empty_object_config I). Defined.

End Checks.

(** ** More of the code on concrete inputs *)

Module CoverageChecks.

Import PyBytes PyPath Json Exn FS Patch Demo Samples.
Import PatchCoverage RoundTripTheorems ConfigFacts ConfigCoverage.
Import PipelineCoverage PipelineWiring FakelibTheorems.

(** the file without pattern in the mixed directory *)
Lemma skipped_witness :
  c_self ∈ patch_targets nofaults ["d"] mixed_dir ∧
  wfiles mixed_dir !! c_self = Some (self (of_str "plain")) ∧
  (let res := apply_libc_patch nofaults ["d"] None None true mixed_dir in
   wfiles res.1 !! c_self = Some (self (of_str "plain")) ∧
   status <$> files res.2 !! c_self = Some "pattern_not_found") ∧
  (let res := revert_libc_patch nofaults ["d"] None None true mixed_dir in
   wfiles res.1 !! c_self = Some (self (of_str "plain")) ∧
   status <$> files res.2 !! c_self = Some "patch_not_found").
Proof.
  assert (c_self ∈ patch_targets nofaults ["d"] mixed_dir) as H1.
  { apply list_elem_of_In. vm_compute. tauto. }
  assert (wfiles mixed_dir !! c_self = Some (self (of_str "plain"))) as H2
    by (vm_compute; reflexivity).
  split; [exact H1|]. split; [exact H2|].
  destruct (files_without_search_pattern_are_skipped nofaults ["d"] None None true
              mixed_dir c_self _ H1 H2 eq_refl) as [Ha Hr].
  split.
  - apply Ha. vm_compute. reflexivity.
  - apply Hr; [vm_compute; reflexivity | right; vm_compute; reflexivity].
Defined.

(** the file with the original pattern: its size after either operation *)
Lemma file_length_witness :
  a_self ∈ patch_targets nofaults ["d"] mixed_dir ∧
  wfiles mixed_dir !! a_self = Some original_bytes ∧
  (∃ c', wfiles (apply_libc_patch nofaults ["d"] None None true mixed_dir).1 !! a_self
         = Some c' ∧ length c' = length original_bytes) ∧
  (∃ c', wfiles (revert_libc_patch nofaults ["d"] None None true mixed_dir).1 !! a_self
         = Some c' ∧ length c' = length original_bytes).
Proof.
  assert (a_self ∈ patch_targets nofaults ["d"] mixed_dir) as H1.
  { apply list_elem_of_In. vm_compute. tauto. }
  assert (wfiles mixed_dir !! a_self = Some original_bytes) as H2
    by (vm_compute; reflexivity).
  split; [exact H1|]. split; [exact H2|].
  destruct (patch_preserves_file_length nofaults ["d"] true mixed_dir a_self _
              H1 H2 eq_refl) as [Ha Hr].
  split; [exact Ha|]. apply Hr. right. vm_compute. reflexivity.
Defined.

(** the file with the original pattern, [apply_libc_patch] with backups *)
Lemma apply_patches_witness :
  a_self ∈ patch_targets nofaults ["d"] mixed_dir ∧
  wfiles mixed_dir !! a_self = Some original_bytes ∧
  (let res := apply_libc_patch nofaults ["d"] None None true mixed_dir in
   wfiles res.1 !! a_self = Some patched_bytes ∧
   status <$> files res.2 !! a_self = Some "applied").
Proof.
  assert (a_self ∈ patch_targets nofaults ["d"] mixed_dir) as H1.
  { apply list_elem_of_In. vm_compute. tauto. }
  assert (wfiles mixed_dir !! a_self = Some original_bytes) as H2
    by (vm_compute; reflexivity).
  split; [exact H1|]. split; [exact H2|].
  assert (contains LIBC_PATCH_PATTERN original_bytes = true) as H3
    by (vm_compute; reflexivity).
  assert (contains LIBC_PATCH_REPLACEMENT original_bytes = false) as H4
    by (vm_compute; reflexivity).
  assert (name a_self ≠ "") as H5 by discriminate.
  destruct (apply_patches_original_file nofaults ["d"] true mixed_dir a_self _
              H1 H2 eq_refl H3 H4 H5) as (Hw & Hst & _).
  split; [|exact Hst].
  replace patched_bytes
    with (replace LIBC_PATCH_PATTERN LIBC_PATCH_REPLACEMENT original_bytes)
    by (vm_compute; reflexivity).
  exact Hw.
Defined.

(** the patched file, [revert_libc_patch] with backups *)
Lemma revert_restores_witness :
  b_self ∈ patch_targets nofaults ["d"] mixed_dir ∧
  wfiles mixed_dir !! b_self = Some patched_bytes ∧
  endswith (name b_self) ".revert_bak" = false ∧
  (let res := revert_libc_patch nofaults ["d"] None None true mixed_dir in
   wfiles res.1 !! b_self = Some original_bytes ∧
   status <$> files res.2 !! b_self = Some "reverted").
Proof.
  assert (b_self ∈ patch_targets nofaults ["d"] mixed_dir) as H1.
  { apply list_elem_of_In. vm_compute. tauto. }
  assert (wfiles mixed_dir !! b_self = Some patched_bytes) as H2
    by (vm_compute; reflexivity).
  assert (endswith (name b_self) ".revert_bak" = false) as H6
    by (vm_compute; reflexivity).
  split; [exact H1|]. split; [exact H2|]. split; [exact H6|].
  assert (contains LIBC_PATCH_REPLACEMENT patched_bytes = true) as H3
    by (vm_compute; reflexivity).
  assert (contains LIBC_PATCH_PATTERN patched_bytes = false) as H4
    by (vm_compute; reflexivity).
  assert (name b_self ≠ "") as H5 by discriminate.
  destruct (revert_restores_patched_file nofaults ["d"] true mixed_dir b_self _
              H1 H2 eq_refl H3 H4 H5 H6) as (Hw & Hst & _).
  split; [|exact Hst].
  replace original_bytes
    with (replace LIBC_PATCH_REPLACEMENT LIBC_PATCH_PATTERN patched_bytes)
    by (vm_compute; reflexivity).
  exact Hw.
Defined.

(** apply, then revert, on the mixed directory *)
Lemma round_trip_witness :
  a_self ∈ patch_targets nofaults ["d"] mixed_dir ∧
  wfiles mixed_dir !! a_self = Some original_bytes ∧
  (let w1 := (apply_libc_patch nofaults ["d"] None None true mixed_dir).1 in
   let w2 := (revert_libc_patch nofaults ["d"] None None true w1).1 in
   wfiles w2 !! a_self = Some original_bytes).
Proof.
  assert (a_self ∈ patch_targets nofaults ["d"] mixed_dir) as H1.
  { apply list_elem_of_In. vm_compute. tauto. }
  assert (wfiles mixed_dir !! a_self = Some original_bytes) as H2
    by (vm_compute; reflexivity).
  split; [exact H1|]. split; [exact H2|].
  assert (contains LIBC_PATCH_PATTERN original_bytes = true) as H3
    by (vm_compute; reflexivity).
  assert (contains LIBC_PATCH_REPLACEMENT original_bytes = false) as H4
    by (vm_compute; reflexivity).
  assert (name a_self ≠ "") as H5 by discriminate.
  assert (endswith (name a_self) ".revert_bak" = false) as H6
    by (vm_compute; reflexivity).
  exact (proj2 (apply_then_revert_restores_directory ["d"] true true mixed_dir a_self _
                  H1 H2 H3 H4 H5 H6)).
Defined.

(** a config file that holds [{}], saved to and read back *)
Lemma saved_directories_witness :
  object_or_unusable (wconfig empty_object_config) ∧
  Config.get_last_directories
    (Config._save_directories_to_config None "2024-01-01 00:00:00" "in" "out"
       empty_object_config).1
  = Ret (JStr "in", JStr "out").
Proof.
  split; [exact I|].
  exact (proj1 (saved_directories_are_read_back "2024-01-01 00:00:00" "in" "out"
                  empty_object_config I)).
Defined.

(** the decoder on two signed files *)
Lemma decrypt_accounts_witness :
  ∃ s' dr,
    Pipeline.decrypt_files (E := demo_env) ["in"] ["out"] false false (two_selfs, [])
    = (s', Ret dr) ∧
    Pipeline.successful (Pipeline.dr_counts dr) = 2 ∧
    PipelineVocabulary.balanced (Pipeline.dr_counts dr) ∧
    length s'.2 = 2.
Proof.
  destruct (Pipeline.decrypt_files (E := demo_env) ["in"] ["out"] false false
              (two_selfs, [])) as [s' [dr|e]] eqn:Hrun.
  2: { vm_compute in Hrun. discriminate. }
  exists s', dr. split; [reflexivity|].
  pose proof Hrun as Hc. vm_compute in Hc. injection Hc as Hs Hr.
  split; [by rewrite <- Hr|].
  destruct (decrypt_files_accounts_for_every_file (E := demo_env) ["in"] ["out"]
              false false (two_selfs, []) s' dr Hrun) as (Hb & _).
  split; [exact Hb|]. by rewrite <- Hs.
Defined.

(** two raw executables, one of them refused by the version patcher *)
Lemma downgrade_accounts_witness :
  ∃ s' r,
    Pipeline.downgrade_and_sign (E := full_env) ["in"] ["out"] 3 0 0 (Some fakelib_src)
      true false true true false (two_elfs, []) = (s', Ret r) ∧
    PipelineVocabulary.balanced (Pipeline.downgrade r) ∧
    PipelineVocabulary.balanced (Pipeline.signing r) ∧
    Pipeline.successful (Pipeline.downgrade r) + Pipeline.failed (Pipeline.downgrade r) = 2 ∧
    Pipeline.successful (Pipeline.signing r) ≤ Pipeline.successful (Pipeline.downgrade r).
Proof.
  destruct (Pipeline.downgrade_and_sign (E := full_env) ["in"] ["out"] 3 0 0
              (Some fakelib_src) true false true true false (two_elfs, []))
    as [s' [r|e]] eqn:Hrun.
  2: { vm_compute in Hrun. discriminate. }
  exists s', r. split; [reflexivity|].
  destruct (downgrade_and_sign_accounts_for_every_file (E := full_env) ["in"] ["out"]
              3 0 0 (Some fakelib_src) true false true true false (two_elfs, []) s' r
              Hrun) as (H1 & H2 & _ & H4 & _ & H6 & _).
  split; [exact H1|]. split; [exact H2|]. split; [|exact H6].
  rewrite H4. vm_compute. reflexivity.
Defined.

(** the full pipeline on two signed files *)
Lemma pipeline_wiring_witness :
  ∃ s' res,
    Pipeline.process_full_pipeline (E := demo_env) ["in"] ["out"] 3 0 0 None
      true false true true (two_selfs, []) = (s', Ret res) ∧
    Pipeline.fp_input_dir res = ["in"] ∧ Pipeline.fp_output_dir res = ["out"] ∧
    Pipeline.dr_output_dir (Pipeline.decrypt res) = ["tmp"; "ps5_elf_0"].
Proof.
  destruct (Pipeline.process_full_pipeline (E := demo_env) ["in"] ["out"] 3 0 0 None
              true false true true (two_selfs, [])) as [s' [res|e]] eqn:Hrun.
  2: { vm_compute in Hrun. discriminate. }
  destruct (process_full_pipeline_hands_over_temp_dir (E := demo_env) ["in"] ["out"]
              3 0 0 None true false true true (two_selfs, []) s' res Hrun)
    as (H1 & H2 & _ & H4 & _).
  exists s', res. split; [reflexivity|]. split; [exact H1|]. split; [exact H2 | exact H4].
Defined.

(** the fakelib directory copied into the output tree *)
Lemma copy_fakelib_witness :
  Fakelib.is_dir fakelib_src fakelib_world = true ∧
  (let res := Fakelib._copy_fakelib fakelib_src ["out"] fakelib_world in
   res.2 = (true, "Copied fakelib directory from proj/fakelib (2 files)") ∧
   wfiles res.1 !! ["out"; "fakelib"; "libc.prx"] = Some (of_str "stub one") ∧
   wfiles res.1 !! ["out"; "fakelib"; "stale.prx"] = None ∧
   wfiles res.1 !! ["out"; "eboot.bin"] = Some (self (of_str "main"))).
Proof.
  assert (Fakelib.is_dir fakelib_src fakelib_world = true) as H1
    by (vm_compute; reflexivity).
  split; [exact H1|]. cbv zeta.
  destruct (copy_fakelib_mirrors_source fakelib_src ["out"] fakelib_world H1)
    as (Hr & Hm & Hf).
  - vm_compute. reflexivity.
  - intros [k Hk]. discriminate.
  - intros [k Hk]. discriminate.
  - split; [rewrite Hr; vm_compute; reflexivity|].
    split; [|split].
    + etrans; [exact (Hm ["libc.prx"] ltac:(discriminate))|].
      vm_compute. reflexivity.
    + etrans; [exact (Hm ["stale.prx"] ltac:(discriminate))|].
      vm_compute. reflexivity.
    + etrans; [apply Hf; intros [k Hk]; discriminate|].
      vm_compute. reflexivity.
Defined.


(** step 4 on the output tree: the signed [eboot.bin] is not touched *)
Lemma fakelib_step_frame_witness :
  Fakelib.below_a_fakelib ["out"] ["out"; "eboot.bin"] = false ∧
  wfiles (Fakelib.copy_fakelib_step fakelib_src ["out"] fakelib_world).1
    !! ["out"; "eboot.bin"] = Some (self (of_str "main")).
Proof.
  assert (Fakelib.below_a_fakelib ["out"] ["out"; "eboot.bin"] = false) as H1
    by (vm_compute; reflexivity).
  split; [exact H1|].
  destruct (copy_fakelib_step_writes_only_below_fakelib fakelib_src ["out"]
              fakelib_world ["out"; "eboot.bin"] H1) as [Hw _].
  rewrite Hw. vm_compute. reflexivity.
Defined.

End CoverageChecks.
